(** * Inventory ledger engine

    A shallow embedding of the stock services of the inventory application
    ([inventory/services/stock.py]), of the request validation of
    [inventory/serializers.py] and of the reorder advisor of
    [inventory/views.py], with the properties of the ledger proved over it.

    Modelling conventions.
    - A quantity is a [Z] counting hundredths: every quantity column is a
      [DecimalField(decimal_places=2)], so [Decimal("3.00")] is [300].
    - A product or a location is its primary key; an optional location
      ([Location | None]) is an [option].  Products handed to the services are
      resolved instances, so [Product.objects.get(id=pid)] is the identity;
      the module [Raw] drops this assumption, and the one that every batch
      line holds a product and a decimal quantity, for the batch service.
    - Quantities are unbounded: the 14-digit range of the quantity columns is
      not represented.
    - The database is a record of tables.  The [InventoryLevel] table is a
      finite map keyed by its [unique_together] pair (product, location); the
      event tables are lists kept in primary-key order.
    - A service body runs in a state-and-exception monad over the database;
      [transaction.atomic] commits the final state of a body that returns and
      restores the initial one when the body raises.
    - [lvl.on_hand = F("on_hand") + q; lvl.save(update_fields=["on_hand"])] is
      the relative update [UPDATE .. SET on_hand = on_hand + q WHERE id = ..]
      of the row the instance denotes.
    - The [created_at] columns ([auto_now_add]) are not represented. *)

From stdpp Require Import gmap strings list fin_maps pretty.
From Stdlib Require Import ZArith String Sorted.
Local Open Scope Z_scope.

(** ** Data model ([inventory/models.py]) *)

Abbreviation Product := N (only parsing).
Abbreviation Location := N (only parsing).

Module StockMoveType.
Definition INBOUND : string := "INBOUND".
Definition OUTBOUND : string := "OUTBOUND".
Definition TRANSFER : string := "TRANSFER".
End StockMoveType.
Import StockMoveType.

Record StockMove := {
  move_id : N;
  move_type : string;
  move_product : Product;
  move_qty : Z;
  move_from_location : option Location;
  move_to_location : option Location;
  move_timestamp : Z
}.

Record StockMoveBatch := {
  batch_id : N;
  batch_type : string;
  batch_from_location : option Location;
  batch_to_location : option Location;
  batch_timestamp : Z
}.

Record StockMoveLine := {
  line_id : N;
  line_batch_id : N;
  line_product_id : Product;
  line_qty : Z
}.

Record DB := {
  levels : gmap (N * N) Z;
  moves : list StockMove;
  batches : list StockMoveBatch;
  lines : list StockMoveLine
}.

Definition empty_db : DB :=
  {| levels := ∅; moves := []; batches := []; lines := [] |}.

Definition set_levels (f : gmap (N * N) Z → gmap (N * N) Z) (db : DB) : DB :=
  {| levels := f (levels db); moves := moves db;
     batches := batches db; lines := lines db |}.

(** The quantity a reader sees for a pair: the row's [on_hand], and zero for
    a pair that has no row yet (rows are created at zero on first use). *)
Definition on_hand_of (db : DB) (product : Product) (location : Location) : Z :=
  default 0 (levels db !! (product, location)).

(** An in-memory [InventoryLevel] instance: the row it denotes and the value
    of [on_hand] it last read. *)
Record Level := {
  lvl_product : Product;
  lvl_location : Location;
  lvl_on_hand : Z
}.

(** ** Exceptions and the service monad *)

Inductive exn :=
| StockError (msg : string)
| IntegrityError
| DoesNotExist
| DatabaseError
| KeyError
| IndexError
| ValidationError (msg : string)
| InvalidOperation.

Inductive result (A : Type) :=
| Ok (a : A)
| Raise (e : exn).
Arguments Ok {A} a.
Arguments Raise {A} e.

Definition M (A : Type) : Type := DB → result (A * DB).

Definition ret {A} (a : A) : M A := λ db, Ok (a, db).
Definition raise {A} (e : exn) : M A := λ _, Raise e.
Definition bind {A B} (m : M A) (k : A → M B) : M B :=
  λ db, match m db with
        | Ok (a, db') => k a db'
        | Raise e => Raise e
        end.

Notation "'do' x <- m ; k" := (bind m (λ x, k))
  (at level 10, x name, m at level 100, k at level 200).
Notation "m ;; k" := (bind m (λ _, k))
  (at level 100, k at level 200, right associativity).

(** [@transaction.atomic]: all or nothing. *)
Definition atomic {A} (body : M A) (db : DB) : DB * result A :=
  match body db with
  | Ok (a, db') => (db', Ok a)
  | Raise e => (db, Raise e)
  end.

(** A [for] loop whose body may raise. *)
Fixpoint for_each {A} (xs : list A) (body : A → M unit) : M unit :=
  match xs with
  | [] => ret tt
  | x :: xs' => body x ;; for_each xs' body
  end.

(** ** Ledger store *)

(** [InventoryLevel.objects.select_for_update().get_or_create(product=..,
    location=.., defaults={"on_hand": Decimal("0")})].  The location column
    is not nullable: creating a row for no location is refused by the
    database. *)
Definition _get_level_for_update (product : Product) (location : option Location)
  : M Level :=
  λ db,
    match location with
    | None => Raise IntegrityError
    | Some loc =>
        match levels db !! (product, loc) with
        | Some v =>
            Ok ({| lvl_product := product; lvl_location := loc; lvl_on_hand := v |}, db)
        | None =>
            Ok ({| lvl_product := product; lvl_location := loc; lvl_on_hand := 0 |},
                set_levels (insert (product, loc) 0) db)
        end
    end.

(** [lvl.refresh_from_db()] *)
Definition refresh_from_db (lvl : Level) : M Level :=
  λ db,
    match levels db !! (lvl_product lvl, lvl_location lvl) with
    | Some v =>
        Ok ({| lvl_product := lvl_product lvl; lvl_location := lvl_location lvl;
               lvl_on_hand := v |}, db)
    | None => Raise DoesNotExist
    end.

(** [lvl.on_hand = F("on_hand") + delta; lvl.save(update_fields=["on_hand"])] *)
Definition save_on_hand (lvl : Level) (delta : Z) : M unit :=
  λ db,
    match levels db !! (lvl_product lvl, lvl_location lvl) with
    | Some v =>
        Ok (tt, set_levels (insert (lvl_product lvl, lvl_location lvl) (v + delta)) db)
    | None => Raise DatabaseError
    end.

(** The primary key the database gives a new row: above every key in use. *)
Definition next_id (ids : list N) : N := (foldr N.max 0%N ids + 1)%N.

(** [StockMove.objects.create(...)]: the row inserted, and the table after. *)
Definition new_move (db : DB) (type : string) (product : Product) (qty : Z)
    (from_location to_location : option Location) (timestamp : Z) : StockMove :=
  {| move_id := next_id (move_id <$> moves db);
     move_type := type; move_product := product; move_qty := qty;
     move_from_location := from_location; move_to_location := to_location;
     move_timestamp := timestamp |}.

Definition with_move (move : StockMove) (db : DB) : DB :=
  {| levels := levels db; moves := moves db ++ [move];
     batches := batches db; lines := lines db |}.

Definition StockMove_create (type : string) (product : Product) (qty : Z)
    (from_location to_location : option Location) (timestamp : Z) : M StockMove :=
  λ db,
    let move := new_move db type product qty from_location to_location timestamp in
    Ok (move, with_move move db).

(** [move.delete()] *)
Definition without_move (move : StockMove) (db : DB) : DB :=
  {| levels := levels db;
     moves := filter (λ m, move_id m ≠ move_id move) (moves db);
     batches := batches db; lines := lines db |}.

Definition StockMove_delete (move : StockMove) : M unit :=
  λ db, Ok (tt, without_move move db).

(** ** Single movements *)

Definition apply_stock_move_body (type : string) (product : Product)
    (qty : option Z) (from_location to_location : option Location)
    (timestamp : Z) : M StockMove :=
  match qty with
  | None => raise (StockError "Quantity must be positive.")
  | Some qty =>
      if qty <=? 0 then raise (StockError "Quantity must be positive.")
      else
        (if String.eqb type INBOUND then
           match to_location with
           | None =>
               raise (StockError "INBOUND moves require a destination (to_location).")
           | Some _ =>
               do to_lvl <- _get_level_for_update product to_location;
               save_on_hand to_lvl qty
           end
         else if String.eqb type OUTBOUND then
           match from_location with
           | None =>
               raise (StockError "OUTBOUND moves require a source (from_location).")
           | Some _ =>
               do from_lvl <- _get_level_for_update product from_location;
               do from_lvl <- refresh_from_db from_lvl;
               if lvl_on_hand from_lvl <? qty
               then raise (StockError "Insufficient stock at source location.")
               else save_on_hand from_lvl (- qty)
           end
         else if String.eqb type TRANSFER then
           match from_location, to_location with
           | Some src, Some dst =>
               if N.eqb src dst
               then raise (StockError "Source and destination locations must differ.")
               else
                 do from_lvl <- _get_level_for_update product from_location;
                 do to_lvl <- _get_level_for_update product to_location;
                 do from_lvl <- refresh_from_db from_lvl;
                 if lvl_on_hand from_lvl <? qty
                 then raise (StockError "Insufficient stock at source location for transfer.")
                 else
                   save_on_hand from_lvl (- qty) ;;
                   save_on_hand to_lvl qty
           | _, _ =>
               raise (StockError "TRANSFER moves require both source and destination.")
           end
         else raise (StockError "Unknown move type.")) ;;
        StockMove_create type product qty from_location to_location timestamp
  end.

Definition apply_stock_move (type : string) (product : Product)
    (qty : option Z) (from_location to_location : option Location)
    (timestamp : Z) (db : DB) : DB * result StockMove :=
  atomic (apply_stock_move_body type product qty from_location to_location timestamp) db.

Definition reverse_stock_move_body (move : StockMove) : M unit :=
  let qty := move_qty move in
  let product := move_product move in
  (if String.eqb (move_type move) INBOUND then
     match move_to_location move with
     | None => raise (StockError "Cannot reverse: missing destination.")
     | Some _ =>
         do to_lvl <- _get_level_for_update product (move_to_location move);
         do to_lvl <- refresh_from_db to_lvl;
         if lvl_on_hand to_lvl <? qty
         then raise (StockError "Cannot reverse: would go negative at destination.")
         else save_on_hand to_lvl (- qty)
     end
   else if String.eqb (move_type move) OUTBOUND then
     match move_from_location move with
     | None => raise (StockError "Cannot reverse: missing source.")
     | Some _ =>
         do from_lvl <- _get_level_for_update product (move_from_location move);
         save_on_hand from_lvl qty
     end
   else if String.eqb (move_type move) TRANSFER then
     match move_from_location move, move_to_location move with
     | Some _, Some _ =>
         do to_lvl <- _get_level_for_update product (move_to_location move);
         do from_lvl <- _get_level_for_update product (move_from_location move);
         do to_lvl <- refresh_from_db to_lvl;
         if lvl_on_hand to_lvl <? qty
         then raise (StockError "Cannot reverse: insufficient stock at destination.")
         else
           save_on_hand to_lvl (- qty) ;;
           save_on_hand from_lvl qty
     | _, _ => raise (StockError "Cannot reverse: missing locations.")
     end
   else raise (StockError "Unknown move type.")) ;;
  StockMove_delete move.

Definition reverse_stock_move (move : StockMove) (db : DB) : DB * result unit :=
  atomic (reverse_stock_move_body move) db.

(** ** Batches *)

(** Truth value of a [Location | None]: an instance is true, [None] false. *)
Definition truthy {A} (o : option A) : bool :=
  match o with Some _ => true | None => false end.

(** A Python [dict] from product id to a total, in insertion order.
    [totals[pid] = totals[pid] + qty] on a [defaultdict(Decimal)]: a missing
    key reads as zero and is appended; a present key keeps its position. *)
Fixpoint dict_add (pid : Product) (qty : Z) (totals : list (Product * Z))
  : list (Product * Z) :=
  match totals with
  | [] => [(pid, 0 + qty)]
  | (k, v) :: rest =>
      if N.eqb k pid then (k, v + qty) :: rest
      else (k, v) :: dict_add pid qty rest
  end.

(** The loop of [_group_lines_by_product] on lines given as pairs: both keys
    are present and the quantity is a decimal amount.  [Raw.group_lines_loop]
    takes the line dicts as they come. *)
Fixpoint group_lines_loop (lines : list (Product * Z)) (totals : list (Product * Z))
  : result (list (Product * Z)) :=
  match lines with
  | [] => Ok totals
  | (pid, qty) :: rest =>
      if qty <=? 0 then Raise (StockError "Line quantity must be positive.")
      else group_lines_loop rest (dict_add pid qty totals)
  end.

Definition _group_lines_by_product (lines : list (Product * Z))
  : result (list (Product * Z)) :=
  group_lines_loop lines [].

Definition lift {A} (r : result A) : M A :=
  λ db, match r with Ok a => Ok (a, db) | Raise e => Raise e end.

(** [d[pid]] on a dict of locked levels. *)
Definition dict_get (d : gmap N Level) (pid : Product) : M Level :=
  match d !! pid with
  | Some lvl => ret lvl
  | None => raise KeyError
  end.

(** The local [lock_level] of [apply_stock_batch_move], for a product that
    exists; [Raw.lock_level] looks the product up. *)
Definition lock_level (prod_id : Product) (loc : option Location) : M Level :=
  do lvl <- _get_level_for_update prod_id loc;
  refresh_from_db lvl.

(** [for pid in totals: d[pid] = lock_level(pid, loc)] *)
Fixpoint lock_levels (totals : list (Product * Z)) (loc : option Location)
    (d : gmap N Level) : M (gmap N Level) :=
  match totals with
  | [] => ret d
  | (pid, _) :: rest =>
      do lvl <- lock_level pid loc;
      lock_levels rest loc (<[pid := lvl]> d)
  end.

(** [StockMoveBatch.objects.create(...)] *)
Definition new_batch (db : DB) (type : string)
    (from_location to_location : option Location) (timestamp : Z) : StockMoveBatch :=
  {| batch_id := next_id (batch_id <$> batches db);
     batch_type := type;
     batch_from_location := from_location;
     batch_to_location := to_location;
     batch_timestamp := timestamp |}.

Definition with_batch (batch : StockMoveBatch) (db : DB) : DB :=
  {| levels := levels db; moves := moves db;
     batches := batches db ++ [batch]; lines := lines db |}.

Definition StockMoveBatch_create (type : string)
    (from_location to_location : option Location) (timestamp : Z)
  : M StockMoveBatch :=
  λ db,
    let batch := new_batch db type from_location to_location timestamp in
    Ok (batch, with_batch batch db).

(** One row of [StockMoveLine.objects.bulk_create([...])]. *)
Definition with_line (batch : StockMoveBatch) (pid : Product) (q : Z) (db : DB) : DB :=
  {| levels := levels db; moves := moves db; batches := batches db;
     lines := lines db ++ [{| line_id := next_id (line_id <$> lines db);
                              line_batch_id := batch_id batch;
                              line_product_id := pid; line_qty := q |}] |}.

Definition StockMoveLine_create (batch : StockMoveBatch) (pid : Product) (q : Z)
  : M unit :=
  λ db, Ok (tt, with_line batch pid q db).

(** [StockError(f"Insufficient stock at source for product id={pid}.")] *)
Definition insufficient_for (pid : Product) : exn :=
  StockError ("Insufficient stock at source for product id=" +:+ pretty pid +:+ ".").

Definition apply_stock_batch_move_body (type : string)
    (from_location to_location : option Location) (timestamp : Z)
    (lines : list (Product * Z)) : M StockMoveBatch :=
  let is_in := String.eqb type INBOUND in
  let is_out := String.eqb type OUTBOUND in
  let is_tr := String.eqb type TRANSFER in
  if negb (is_in || is_out || is_tr) then raise (StockError "Unknown move type.")
  else if is_in && negb (truthy to_location)
  then raise (StockError "INBOUND requires a destination (to_location).")
  else if is_out && negb (truthy from_location)
  then raise (StockError "OUTBOUND requires a source (from_location).")
  else
    (if is_tr then
       match from_location, to_location with
       | Some src, Some dst =>
           if N.eqb src dst
           then raise (StockError "Source and destination locations must differ.")
           else ret tt
       | _, _ => raise (StockError "TRANSFER requires both source and destination.")
       end
     else ret tt) ;;
    match lines with
    | [] => raise (StockError "At least one line is required.")
    | _ :: _ =>
        do totals <- lift (_group_lines_by_product lines);
        do levels_src <-
          (if is_out || is_tr then lock_levels totals from_location ∅ else ret ∅);
        do levels_dst <-
          (if is_in || is_tr then lock_levels totals to_location ∅ else ret ∅);
        (if is_out || is_tr then
           for_each totals (λ '(pid, q),
             do lvl <- dict_get levels_src pid;
             if lvl_on_hand lvl <? q
             then raise (insufficient_for pid)
             else ret tt)
         else ret tt) ;;
        (if is_in then
           for_each totals (λ '(pid, q),
             do lvl <- dict_get levels_dst pid;
             save_on_hand lvl q)
         else if is_out then
           for_each totals (λ '(pid, q),
             do lvl <- dict_get levels_src pid;
             save_on_hand lvl (- q))
         else
           for_each totals (λ '(pid, q),
             do src <- dict_get levels_src pid;
             do dst <- dict_get levels_dst pid;
             save_on_hand src (- q) ;;
             save_on_hand dst q)) ;;
        do batch <- StockMoveBatch_create type from_location to_location timestamp;
        for_each totals (λ '(pid, q), StockMoveLine_create batch pid q) ;;
        ret batch
    end.

Definition apply_stock_batch_move (type : string)
    (from_location to_location : option Location) (timestamp : Z)
    (lines : list (Product * Z)) (db : DB) : DB * result StockMoveBatch :=
  atomic (apply_stock_batch_move_body type from_location to_location timestamp lines) db.

(** [batch.lines], in the model's [ordering = ["id"]]. *)
Definition batch_lines (batch : StockMoveBatch) (db : DB) : list StockMoveLine :=
  filter (λ ln, line_batch_id ln = batch_id batch) (lines db).

(** [batch.delete()]: the lines go with it ([on_delete=CASCADE]). *)
Definition without_batch (batch : StockMoveBatch) (db : DB) : DB :=
  {| levels := levels db; moves := moves db;
     batches := filter (λ b, batch_id b ≠ batch_id batch) (batches db);
     lines := filter (λ ln, line_batch_id ln ≠ batch_id batch) (lines db) |}.

Definition StockMoveBatch_delete (batch : StockMoveBatch) : M unit :=
  λ db, Ok (tt, without_batch batch db).

(** The totals loop of the reversal: no sign check on the stored lines. *)
Fixpoint line_totals (lns : list StockMoveLine) (totals : list (Product * Z))
  : list (Product * Z) :=
  match lns with
  | [] => totals
  | ln :: rest => line_totals rest (dict_add (line_product_id ln) (line_qty ln) totals)
  end.

(** [ln.product if (ln := lines[0]) else Product.objects.get(id=pid)]: the
    condition binds [ln] to the first line, a model instance and therefore
    true, so the expression is the first line's product whatever [pid] is. *)
Definition reversal_lock_product (lns : list StockMoveLine) (pid : Product)
  : M Product :=
  match lns with
  | ln :: _ => ret (line_product_id ln)
  | [] => raise IndexError
  end.

(** [for pid in totals: d[pid] = _get_level_for_update(<product>, loc)] *)
Fixpoint reversal_lock_levels (lns : list StockMoveLine)
    (totals : list (Product * Z)) (loc : option Location) (d : gmap N Level)
  : M (gmap N Level) :=
  match totals with
  | [] => ret d
  | (pid, _) :: rest =>
      do prod <- reversal_lock_product lns pid;
      do lvl <- _get_level_for_update prod loc;
      reversal_lock_levels lns rest loc (<[pid := lvl]> d)
  end.

(** The transfer reversal takes both locks inside one loop. *)
Fixpoint reversal_lock_both (lns : list StockMoveLine)
    (totals : list (Product * Z)) (src_loc dst_loc : option Location)
    (ds dd : gmap N Level) : M (gmap N Level * gmap N Level) :=
  match totals with
  | [] => ret (ds, dd)
  | (pid, _) :: rest =>
      do prod <- reversal_lock_product lns pid;
      do s <- _get_level_for_update prod src_loc;
      do prod' <- reversal_lock_product lns pid;
      do t <- _get_level_for_update prod' dst_loc;
      reversal_lock_both lns rest src_loc dst_loc (<[pid := s]> ds) (<[pid := t]> dd)
  end.

Definition reverse_stock_batch_move_body (batch : StockMoveBatch) : M unit :=
  do lns <- (λ db, Ok (batch_lines batch db, db));
  match lns with
  | [] => StockMoveBatch_delete batch
  | _ :: _ =>
      let totals := line_totals lns [] in
      (if String.eqb (batch_type batch) INBOUND then
         do levels_dst <- reversal_lock_levels lns totals (batch_to_location batch) ∅;
         for_each totals (λ '(pid, q),
           do lvl <- dict_get levels_dst pid;
           do lvl <- refresh_from_db lvl;
           if lvl_on_hand lvl <? q
           then raise (StockError "Cannot reverse: would go negative at destination.")
           else ret tt) ;;
         for_each totals (λ '(pid, q),
           do lvl <- dict_get levels_dst pid;
           save_on_hand lvl (- q))
       else if String.eqb (batch_type batch) OUTBOUND then
         do levels_src <- reversal_lock_levels lns totals (batch_from_location batch) ∅;
         for_each totals (λ '(pid, q),
           do lvl <- dict_get levels_src pid;
           save_on_hand lvl q)
       else
         do both <- reversal_lock_both lns totals (batch_from_location batch)
                      (batch_to_location batch) ∅ ∅;
         let levels_src := both.1 in
         let levels_dst := both.2 in
         for_each totals (λ '(pid, q),
           do lvl <- dict_get levels_dst pid;
           do lvl <- refresh_from_db lvl;
           if lvl_on_hand lvl <? q
           then raise (StockError "Cannot reverse: insufficient stock at destination.")
           else ret tt) ;;
         for_each totals (λ '(pid, q),
           do dst <- dict_get levels_dst pid;
           do src <- dict_get levels_src pid;
           save_on_hand dst (- q) ;;
           save_on_hand src q)) ;;
      StockMoveBatch_delete batch
  end.

Definition reverse_stock_batch_move (batch : StockMoveBatch) (db : DB)
  : DB * result unit :=
  atomic (reverse_stock_batch_move_body batch) db.

(** ** Request validation ([inventory/serializers.py]) *)

Record StockMoveAttrs := {
  attr_type : string;
  attr_product : Product;
  attr_qty : option Z;
  attr_from_location : option Location;
  attr_to_location : option Location;
  attr_timestamp : option Z
}.

Definition same_location (a b : option Location) : bool :=
  match a, b with
  | Some x, Some y => N.eqb x y
  | None, None => true
  | _, _ => false
  end.

(** [StockMoveSerializer.validate] *)
Definition StockMoveSerializer_validate (attrs : StockMoveAttrs)
  : result StockMoveAttrs :=
  let t := attr_type attrs in
  let from_loc := attr_from_location attrs in
  let to_loc := attr_to_location attrs in
  let bad_qty := match attr_qty attrs with None => true | Some q => q <=? 0 end in
  if bad_qty then Raise (ValidationError "Quantity must be positive.")
  else if String.eqb t INBOUND && negb (truthy to_loc)
  then Raise (ValidationError "INBOUND requires a destination.")
  else if String.eqb t OUTBOUND && negb (truthy from_loc)
  then Raise (ValidationError "OUTBOUND requires a source.")
  else if String.eqb t TRANSFER && negb (truthy from_loc && truthy to_loc)
  then Raise (ValidationError "TRANSFER requires both source and destination.")
  else if String.eqb t TRANSFER && same_location from_loc to_loc
  then Raise (ValidationError "Source and destination must differ.")
  else Ok attrs.

(** [StockMoveSerializer.create]: a [StockError] of the service is turned
    into a [ValidationError] carrying its message. *)
Definition StockMoveSerializer_create (validated_data : StockMoveAttrs)
    (now : Z) (db : DB) : DB * result StockMove :=
  match apply_stock_move (attr_type validated_data) (attr_product validated_data)
          (attr_qty validated_data) (attr_from_location validated_data)
          (attr_to_location validated_data)
          (default now (attr_timestamp validated_data)) db with
  | (db', Raise (StockError msg)) => (db', Raise (ValidationError msg))
  | r => r
  end.

(** Validation, then creation when validation passed. *)
Definition StockMoveSerializer_save (attrs : StockMoveAttrs) (now : Z) (db : DB)
  : DB * result StockMove :=
  match StockMoveSerializer_validate attrs with
  | Ok validated_data => StockMoveSerializer_create validated_data now db
  | Raise e => (db, Raise e)
  end.

(** ** Reorder advisor ([ReorderSuggestionView.get]) *)

(** Timestamps count microseconds; [timedelta(days=1)]. *)
Definition day : Z := 86400000000.

(** [(n / Decimal(d)).quantize(Decimal("0.01"))] for [n] in hundredths and a
    positive integer [d]: the nearest hundredth, a tie going to the even one
    (the default context rounds half to even).  The quotient is taken
    exactly; the context's 28 significant digits are far beyond the
    quantities a [max_digits=14] column holds. *)
Definition quantize2 (n d : Z) : Z :=
  let q := n / d in
  let r := n mod d in
  if 2 * r <? d then q
  else if d <? 2 * r then q + 1
  else if Z.even q then q else q + 1.

(** [.values("product_id").annotate(qty=Sum("qty"))]: one row per product. *)
Definition sum_by_product (rows : list (Product * Z)) : list (Product * Z) :=
  foldl (λ acc row, dict_add row.1 row.2 acc) [] rows.

(** The rows [filter(type=OUTBOUND, timestamp__gte=start)] selects. *)
Definition outbound_move_rows (start : Z) (db : DB) : list (Product * Z) :=
  (λ m, (move_product m, move_qty m)) <$>
    filter (λ m, move_type m = OUTBOUND ∧ start ≤ move_timestamp m) (moves db).

Definition outbound_single (start : Z) (db : DB) : list (Product * Z) :=
  sum_by_product (outbound_move_rows start db).

Definition line_in_outbound_batch (start : Z) (db : DB) (ln : StockMoveLine) : Prop :=
  Exists (λ b, batch_id b = line_batch_id ln ∧ batch_type b = OUTBOUND
               ∧ start ≤ batch_timestamp b) (batches db).

(** The rows [filter(batch__type=OUTBOUND, batch__timestamp__gte=start)]
    selects. *)
Definition outbound_line_rows (start : Z) (db : DB) : list (Product * Z) :=
  (λ ln, (line_product_id ln, line_qty ln)) <$>
    filter (line_in_outbound_batch start db) (lines db).

Definition outbound_batched (start : Z) (db : DB) : list (Product * Z) :=
  sum_by_product (outbound_line_rows start db).

(** [InventoryLevel.objects.values("product_id").annotate(on_hand=Sum("on_hand"))]
    read through [on_map.get(pid, Decimal("0"))]. *)
Definition total_step (pid : Product) (k : N * N) (v acc : Z) : Z :=
  if N.eqb k.1 pid then v + acc else acc.

Definition on_hand_total (db : DB) (pid : Product) : Z :=
  map_fold (total_step pid) 0 (levels db).

Record Suggestion := {
  sg_product : Product;
  sg_avg_daily_demand : Z;
  sg_on_hand_total : Z;
  sg_suggested_qty : Z;
  sg_window_days : Z;
  sg_coverage_days : Z
}.

(** [if days <= 0: days = 1] *)
Definition effective_days (days : Z) : Z := if days <=? 0 then 1 else days.

(** [avg_daily = (total_out / Decimal(days)).quantize(Decimal("0.01"))] *)
Definition avg_daily_of (days total_out : Z) : Z := quantize2 total_out days.

(** [target = (avg_daily * Decimal(coverage_days)).quantize(Decimal("0.01"))] *)
Definition target_of (avg_daily coverage_days : Z) : Z :=
  quantize2 (avg_daily * coverage_days) 1.

(** The body of the loop over [totals.items()]: the row for one product, or
    nothing when the loop [continue]s. *)
Definition suggestion_row (days coverage_days min_qty : Z) (pid : Product)
    (total_out on_hand : Z) : option Suggestion :=
  let avg_daily := avg_daily_of days total_out in
  let target := target_of avg_daily coverage_days in
  let suggested := target - on_hand in
  if suggested <? min_qty then None
  else if suggested <=? 0 then None
  else Some {| sg_product := pid;
               sg_avg_daily_demand := avg_daily;
               sg_on_hand_total := quantize2 on_hand 1;
               sg_suggested_qty := quantize2 suggested 1;
               sg_window_days := days;
               sg_coverage_days := coverage_days |}.

(** [data.sort(key=.., reverse=True)]: descending and stable. *)
Fixpoint insert_desc (x : Suggestion) (l : list Suggestion) : list Suggestion :=
  match l with
  | [] => [x]
  | y :: l' =>
      if sg_suggested_qty x <? sg_suggested_qty y then y :: insert_desc x l'
      else x :: y :: l'
  end.

Definition sort_desc (l : list Suggestion) : list Suggestion :=
  foldr insert_desc [] l.

Definition advisor_totals (start : Z) (db : DB) : list (Product * Z) :=
  foldl (λ acc row, dict_add row.1 row.2 acc) []
        (outbound_single start db ++ outbound_batched start db).

Definition ReorderSuggestionView_get (days coverage_days min_qty now : Z) (db : DB)
  : list Suggestion :=
  let start := now - days * day in
  let totals := advisor_totals start db in
  let days := effective_days days in
  sort_desc
    (omap (λ '(pid, total_out),
             suggestion_row days coverage_days min_qty pid total_out
                            (on_hand_total db pid))
          totals).

(** ** Auxiliary definitions for the proofs *)

(** The one primitive every store access reduces to: set the row of a pair
    to its current quantity plus [delta], creating it when missing. *)
Definition add_at (product : Product) (location : Location) (delta : Z) (db : DB) : DB :=
  set_levels (insert (product, location) (on_hand_of db product location + delta)) db.

Definition mk_level (product : Product) (location : Location) (v : Z) : Level :=
  {| lvl_product := product; lvl_location := location; lvl_on_hand := v |}.

(** The Balance invariant of the data model. *)
Definition nonneg_balances (db : DB) : Prop :=
  ∀ product location, 0 ≤ on_hand_of db product location.

(** Sample states and events used to instantiate the theorems. *)
Definition main_with (product : Product) (qty : Z) : DB :=
  {| levels := {[ (product, 1%N) := qty ]}; moves := []; batches := []; lines := [] |}.

Definition sample_move (type : string) (qty : Z)
    (from_location to_location : option Location) : StockMove :=
  {| move_id := 1; move_type := type; move_product := 1%N; move_qty := qty;
     move_from_location := from_location; move_to_location := to_location;
     move_timestamp := 0 |}.

Definition sample_attrs (type : string) (qty : Z)
    (from_location to_location : option Location) : StockMoveAttrs :=
  {| attr_type := type; attr_product := 1%N; attr_qty := Some qty;
     attr_from_location := from_location; attr_to_location := to_location;
     attr_timestamp := None |}.

(** Closed forms of the loops of the batch services. *)

(** The state after the rows of [location] were locked for every product of
    [totals]: missing rows now exist, at zero. *)
Fixpoint touch_all (totals : list (Product * Z)) (location : Location) (db : DB) : DB :=
  match totals with
  | [] => db
  | (pid, _) :: rest => touch_all rest location (add_at pid location 0 db)
  end.

(** The dict of locked levels, given the quantity read for each product. *)
Fixpoint locked (bal : Product → Z) (location : Location)
    (totals : list (Product * Z)) (d : gmap N Level) : gmap N Level :=
  match totals with
  | [] => d
  | (pid, _) :: rest =>
      locked bal location rest (<[pid := mk_level pid location (bal pid)]> d)
  end.

(** The first product of [totals] whose balance is short of its total. *)
Fixpoint first_short (bal : Product → Z) (totals : list (Product * Z)) : option Product :=
  match totals with
  | [] => None
  | (pid, q) :: rest => if bal pid <? q then Some pid else first_short bal rest
  end.

Fixpoint credit_all (totals : list (Product * Z)) (location : Location) (db : DB) : DB :=
  match totals with
  | [] => db
  | (pid, q) :: rest => credit_all rest location (add_at pid location q db)
  end.

Fixpoint debit_all (totals : list (Product * Z)) (location : Location) (db : DB) : DB :=
  match totals with
  | [] => db
  | (pid, q) :: rest => debit_all rest location (add_at pid location (- q) db)
  end.

Fixpoint transfer_all (totals : list (Product * Z)) (src dst : Location) (db : DB) : DB :=
  match totals with
  | [] => db
  | (pid, q) :: rest =>
      transfer_all rest src dst (add_at pid dst q (add_at pid src (- q) db))
  end.

Fixpoint with_lines (batch : StockMoveBatch) (totals : list (Product * Z)) (db : DB) : DB :=
  match totals with
  | [] => db
  | (pid, q) :: rest => with_lines batch rest (with_line batch pid q db)
  end.

(** The quantity [totals] holds for a product: the sum of its entries. *)
Fixpoint qty_of (totals : list (Product * Z)) (product : Product) : Z :=
  match totals with
  | [] => 0
  | (pid, q) :: rest => (if N.eqb pid product then q else 0) + qty_of rest product
  end.

(** A dict [d] holds, for every product of [totals], a level of that
    product at [l]; [bal] is the quantity those levels carry. *)
Definition levels_for (bal : Product → Z) (l : Location)
    (totals : list (Product * Z)) (d : gmap N Level) : Prop :=
  ∀ pid, pid ∈ totals.*1 → d !! pid = Some (mk_level pid l (bal pid)).

(** Referential integrity of the lines table: the [batch] foreign key of a
    line names a row of the batches table. *)
Definition fk_lines (db : DB) : Prop :=
  ∀ ln, ln ∈ lines db → line_batch_id ln ∈ batch_id <$> batches db.

(** What a batch line says: its product and its quantity. *)
Definition line_entry (ln : StockMoveLine) : Product * Z :=
  (line_product_id ln, line_qty ln).

Definition two_products (qty_a qty_b : Z) : DB :=
  {| levels := {[ (1%N, 1%N) := qty_a; (2%N, 1%N) := qty_b ]};
     moves := []; batches := []; lines := [] |}.

(** ** Sequences of applications *)

(** One request to apply: a single movement or a batch. *)
Inductive operation :=
| OpMove (type : string) (product : Product) (qty : option Z)
         (from_location to_location : option Location) (timestamp : Z)
| OpBatch (type : string) (from_location to_location : option Location)
          (timestamp : Z) (lines : list (Product * Z)).

(** The state after a request, when the request succeeded. *)
Definition run_operation (o : operation) (db : DB) : option DB :=
  match o with
  | OpMove type product qty from_location to_location timestamp =>
      match apply_stock_move type product qty from_location to_location timestamp db with
      | (db', Ok _) => Some db'
      | (_, Raise _) => None
      end
  | OpBatch type from_location to_location timestamp lines =>
      match apply_stock_batch_move type from_location to_location timestamp lines db with
      | (db', Ok _) => Some db'
      | (_, Raise _) => None
      end
  end.

(** A sequence of requests, every one of which succeeds. *)
Fixpoint run_operations (ops : list operation) (db : DB) : option DB :=
  match ops with
  | [] => Some db
  | o :: rest =>
      match run_operation o db with
      | Some db' => run_operations rest db'
      | None => None
      end
  end.

(** The quantity of a product a request of kind [kind] asks to move. *)
Definition requested (kind : string) (product : Product) (o : operation) : Z :=
  match o with
  | OpMove type p qty _ _ _ =>
      if String.eqb type kind && N.eqb p product then default 0 qty else 0
  | OpBatch type _ _ _ lines =>
      if String.eqb type kind then qty_of lines product else 0
  end.

Definition total_requested (kind : string) (product : Product)
    (ops : list operation) : Z :=
  foldr (λ o acc, requested kind product o + acc) 0 ops.

(** ** The reorder advisor as the specification words it *)

(** Rounding to the nearest hundredth with a tie going up, the rounding the
    specification calls standard: [n / d], in hundredths, for a positive [d]. *)
Definition standard_rounding (n d : Z) : Z := (2 * n + d) / (2 * d).

(** The average daily demand as the specification computes it: the summed
    outbound quantity over [W], rounded to two decimals by standard rounding. *)
Definition spec_avg_daily (W total_out : Z) : Z := standard_rounding total_out W.

(** A ledger with one unit received and shipped on day 100. *)
Definition one_unit_shipped : DB :=
  (apply_stock_move OUTBOUND 1%N (Some 100) (Some 1%N) None (100 * day)
     (apply_stock_move INBOUND 1%N (Some 100) None (Some 1%N) (100 * day) empty_db).1).1.

(** The scenario of the specification: 150 units received, 140 shipped. *)
Definition scenario_140 : DB :=
  (apply_stock_batch_move OUTBOUND (Some 1%N) None (100 * day) [(1%N, 4000)]
     (apply_stock_move OUTBOUND 1%N (Some 10000) (Some 1%N) None (100 * day)
        (apply_stock_move INBOUND 1%N (Some 15000) None (Some 1%N) (100 * day)
           empty_db).1).1).1.

(** ** Batches applied and then reversed *)

(** An INBOUND batch of two products received at location 1 on an empty
    ledger: the state after it, and the batch it recorded. *)
Definition received (qty_a qty_b : Z) : DB * result StockMoveBatch :=
  apply_stock_batch_move INBOUND None (Some 1%N) 0 [(1%N, qty_a); (2%N, qty_b)] empty_db.

(** A TRANSFER batch of two products from location 1 to location 2. *)
Definition transferred (qty_a qty_b : Z) : DB * result StockMoveBatch :=
  apply_stock_batch_move TRANSFER (Some 1%N) (Some 2%N) 0 [(1%N, qty_a); (2%N, qty_b)]
                         (two_products qty_a qty_b).

Definition sample_batch (type : string) (from_location to_location : option Location)
  : StockMoveBatch :=
  {| batch_id := 1; batch_type := type; batch_from_location := from_location;
     batch_to_location := to_location; batch_timestamp := 0 |}.

(** Closed forms of the loops of the batch reversal: every level it locks is
    the first line's product's. *)
Definition same_product (p0 : Product) (totals : list (Product * Z))
  : list (Product * Z) :=
  (λ x, (p0, x.2)) <$> totals.

Fixpoint locked_first (p0 : Product) (location : Location) (v : Z)
    (totals : list (Product * Z)) (d : gmap N Level) : gmap N Level :=
  match totals with
  | [] => d
  | (pid, _) :: rest =>
      locked_first p0 location v rest (<[pid := mk_level p0 location v]> d)
  end.

Definition first_levels (p0 : Product) (l : Location)
    (totals : list (Product * Z)) (d : gmap N Level) : Prop :=
  ∀ pid, pid ∈ totals.*1 → ∃ v, d !! pid = Some (mk_level p0 l v).

(** The sum of all quantities of a list of entries. *)
Definition sum_qty (totals : list (Product * Z)) : Z :=
  foldr (λ x acc, x.2 + acc) 0 totals.

(** ** Further definitions: outcomes, views, catalogue *)

(** The services signal every refusal with [StockError]; the views catch
    nothing else. *)
Definition only_stock_error {A} (r : result A) : Prop :=
  match r with
  | Ok _ => True
  | Raise (StockError _) => True
  | Raise _ => False
  end.

(** A state with one balance of 5.00 and a recorded OUTBOUND movement. *)
Definition shipped_once : DB :=
  (apply_stock_move OUTBOUND 1%N (Some 100) (Some 1%N) None 0 (main_with 1%N 500)).1.

(** The state after the transfer reversal locked, for every total, the rows
    of the first line's product at the source and at the destination. *)
Fixpoint touch_both (totals : list (Product * Z)) (p0 : Product)
    (src dst : Location) (db : DB) : DB :=
  match totals with
  | [] => db
  | _ :: rest => touch_both rest p0 src dst (add_at p0 dst 0 (add_at p0 src 0 db))
  end.

(** The first line's product of a batch, if it has lines. *)
Definition first_product (batch : StockMoveBatch) (db : DB) : option Product :=
  line_product_id <$> head (batch_lines batch db).

(** A state in which an OUTBOUND batch of two products was recorded. *)
Definition shipped_batch : DB :=
  (apply_stock_batch_move OUTBOUND (Some 1%N) None 0 [(1%N, 400); (2%N, 300)]
                          (two_products 1000 1000)).1.

(** ** Views ([inventory/views.py])

    A view returns a response or lets an exception it does not catch
    propagate.  The request is taken to be authenticated and to carry no
    filter parameters, so [get_object()] is a lookup by primary key that
    answers 404 when no row has the key. *)

Inductive Response :=
| NoContent                                      (* 204 *)
| BadRequest (detail : string)                   (* 400 *)
| NotFound                                       (* 404 *)
| Conflict (detail : string) (references : list (string * nat)).  (* 409 *)

(** [StockMoveViewSet.destroy] *)
Definition StockMoveViewSet_destroy (pk : N) (db : DB) : DB * result Response :=
  match head (filter (λ m, move_id m = pk) (moves db)) with
  | None => (db, Ok NotFound)
  | Some move =>
      match reverse_stock_move move db with
      | (db', Ok _) => (db', Ok NoContent)
      | (db', Raise (StockError msg)) => (db', Ok (BadRequest msg))
      | (db', Raise e) => (db', Raise e)
      end
  end.

(** [StockMoveBatchViewSet.destroy] *)
Definition StockMoveBatchViewSet_destroy (pk : N) (db : DB) : DB * result Response :=
  match head (filter (λ b, batch_id b = pk) (batches db)) with
  | None => (db, Ok NotFound)
  | Some batch =>
      match reverse_stock_batch_move batch db with
      | (db', Ok _) => (db', Ok NoContent)
      | (db', Raise (StockError msg)) => (db', Ok (BadRequest msg))
      | (db', Raise e) => (db', Raise e)
      end
  end.

(** The kinds a [ChoiceField(choices=StockMove.TYPES)] lets through. *)
Definition known_kind (type : string) : Prop :=
  type = INBOUND ∨ type = OUTBOUND ∨ type = TRANSFER.

(** ** The catalogue views ([ProductViewSet], [LocationViewSet])

    A site is the stock tables together with the [Product] and [Location]
    tables, given by their primary keys.  Deleting a catalogue row follows
    the [on_delete] rules of [inventory/models.py]: the [InventoryLevel] rows
    of a product or location go with it (CASCADE), while a [StockMove], a
    [StockMoveLine] or a [StockMoveBatch] that refers to the row makes
    [delete()] raise [ProtectedError] before anything is deleted (PROTECT). *)

Record Site := {
  products : gset N;
  locations : gset N;
  ledger : DB
}.

(** [StockMove.objects.filter(product=instance)] *)
Definition product_stock_moves (pk : Product) (db : DB) : list StockMove :=
  filter (λ m, move_product m = pk) (moves db).

(** [StockMoveLine.objects.filter(product=instance)] *)
Definition product_stock_move_lines (pk : Product) (db : DB) : list StockMoveLine :=
  filter (λ ln, line_product_id ln = pk) (lines db).

(** [StockMoveBatch.objects.filter(lines__product=instance).distinct()] *)
Definition product_stock_batches (pk : Product) (db : DB) : list StockMoveBatch :=
  filter (λ b, Exists (λ ln, line_batch_id ln = batch_id b)
                      (product_stock_move_lines pk db))
         (batches db).

(** [InventoryLevel.objects.filter(product=instance)] *)
Definition product_inventory_levels (pk : Product) (db : DB) : gmap (N * N) Z :=
  filter (λ kv, kv.1.1 = pk) (levels db).

(** [instance.delete()] on a product; [None] stands for [ProtectedError]. *)
Definition Product_delete (pk : Product) (site : Site) : option Site :=
  match product_stock_moves pk (ledger site),
        product_stock_move_lines pk (ledger site) with
  | [], [] =>
      Some {| products := products site ∖ {[pk]};
              locations := locations site;
              ledger := set_levels (filter (λ kv, kv.1.1 ≠ pk)) (ledger site) |}
  | _, _ => None
  end.

(** [ProductViewSet.destroy] *)
Definition ProductViewSet_destroy (pk : N) (site : Site) : Site * Response :=
  if decide (pk ∈ products site) then
    match Product_delete pk site with
    | Some site' => (site', NoContent)
    | None =>
        let db := ledger site in
        (site,
         Conflict
           "Cannot delete product: it is referenced by existing stock data (moves, batch lines, or inventory levels). Reverse/delete those first."
           [("stock_moves", List.length (product_stock_moves pk db));
            ("stock_batch_lines", List.length (product_stock_move_lines pk db));
            ("stock_batches", List.length (product_stock_batches pk db));
            ("inventory_levels", size (product_inventory_levels pk db))])
    end
  else (site, NotFound).

(** [StockMove.objects.filter(from_location=instance)] and its three
    siblings. *)
Definition stock_moves_from (pk : Location) (db : DB) : list StockMove :=
  filter (λ m, move_from_location m = Some pk) (moves db).

Definition stock_moves_to (pk : Location) (db : DB) : list StockMove :=
  filter (λ m, move_to_location m = Some pk) (moves db).

Definition stock_batches_from (pk : Location) (db : DB) : list StockMoveBatch :=
  filter (λ b, batch_from_location b = Some pk) (batches db).

Definition stock_batches_to (pk : Location) (db : DB) : list StockMoveBatch :=
  filter (λ b, batch_to_location b = Some pk) (batches db).

(** [InventoryLevel.objects.filter(location=instance)] *)
Definition location_inventory_levels (pk : Location) (db : DB) : gmap (N * N) Z :=
  filter (λ kv, kv.1.2 = pk) (levels db).

(** [instance.delete()] on a location; [None] stands for [ProtectedError]. *)
Definition Location_delete (pk : Location) (site : Site) : option Site :=
  match stock_moves_from pk (ledger site), stock_moves_to pk (ledger site),
        stock_batches_from pk (ledger site), stock_batches_to pk (ledger site) with
  | [], [], [], [] =>
      Some {| products := products site;
              locations := locations site ∖ {[pk]};
              ledger := set_levels (filter (λ kv, kv.1.2 ≠ pk)) (ledger site) |}
  | _, _, _, _ => None
  end.

(** [LocationViewSet.destroy] *)
Definition LocationViewSet_destroy (pk : N) (site : Site) : Site * Response :=
  if decide (pk ∈ locations site) then
    match Location_delete pk site with
    | Some site' => (site', NoContent)
    | None =>
        let db := ledger site in
        (site,
         Conflict
           "Cannot delete location: it is referenced by existing stock data. Reverse moves or move stock first."
           [("stock_moves_from", List.length (stock_moves_from pk db));
            ("stock_moves_to", List.length (stock_moves_to pk db));
            ("stock_batches_from", List.length (stock_batches_from pk db));
            ("stock_batches_to", List.length (stock_batches_to pk db));
            ("inventory_levels", size (location_inventory_levels pk db))])
    end
  else (site, NotFound).

(** Referential integrity: every foreign key of the stock tables names a
    row of the catalogue. *)
Definition well_referenced (site : Site) : Prop :=
  let db := ledger site in
  (∀ m, m ∈ moves db →
        move_product m ∈ products site
        ∧ (∀ l, move_from_location m = Some l → l ∈ locations site)
        ∧ (∀ l, move_to_location m = Some l → l ∈ locations site))
  ∧ (∀ b, b ∈ batches db →
          (∀ l, batch_from_location b = Some l → l ∈ locations site)
          ∧ (∀ l, batch_to_location b = Some l → l ∈ locations site))
  ∧ (∀ ln, ln ∈ lines db → line_product_id ln ∈ products site)
  ∧ (∀ p l, is_Some (levels db !! (p, l)) → p ∈ products site ∧ l ∈ locations site).

(** Whether a response is a 409. *)
Definition is_conflict (r : Response) : Prop :=
  match r with Conflict _ _ => True | _ => False end.

(** A site with product 1 and the location MAIN, holding [db]. *)
Definition site_of (db : DB) : Site :=
  {| products := {[1%N]}; locations := {[1%N]}; ledger := db |}.

(** The state the reversal of the TRANSFER batch [1: 4.00, 2: 3.00] leaves
    behind when the batch was applied to balances of 4.00 and 3.00: product 1
    stands at -3.00 at location 2. *)
Definition overdrawn : DB :=
  (reverse_stock_batch_move (sample_batch TRANSFER (Some 1%N) (Some 2%N))
                            (transferred 400 300).1).1.

(** ** Batch lines as the service receives them

    [apply_stock_batch_move] takes [lines: list[dict]] and reads
    [ln["product"]] and [ln["qty"]] itself, and it resolves every product id
    with [Product.objects.get].  The definitions above take the lines whose
    keys are present, whose quantity is a decimal amount and whose product is
    resolved, as pairs.  The definitions of this module make no such
    assumption: a line is a dict that may lack a key or hold a quantity that
    [Decimal(str(..))] rejects, and the [Product] table, which the services
    only read, is given by its primary keys.  On lines of the first kind the
    two agree (lemma [apply_stock_batch_move_on_amounts]). *)

(** What [ln["qty"]] holds: a finite amount [Decimal(str(..))] reads, in
    hundredths, or something that makes the line raise
    [decimal.InvalidOperation]: text that is no number, [None], or a NaN,
    which the comparison with zero rejects. *)
Inductive QtyField :=
| Amount (qty : Z)
| NotANumber.

(** A line dict; [None] is an absent key.  The product is given by instance
    or by id: [ln["product"].id if isinstance(ln["product"], Product) else
    ln["product"]] is its primary key either way. *)
Record LineDict := {
  ld_product : option Product;
  ld_qty : option QtyField
}.

(** The dict of a line with both keys and a decimal amount. *)
Definition line_dict (x : Product * Z) : LineDict :=
  {| ld_product := Some x.1; ld_qty := Some (Amount x.2) |}.

(** [Product.objects.get(id=..)] *)
Definition Product_get (products : gset N) (id : Product) : M Product :=
  if decide (id ∈ products) then ret id else raise DoesNotExist.

Module Raw.

Fixpoint group_lines_loop (lines : list LineDict) (totals : list (Product * Z))
  : result (list (Product * Z)) :=
  match lines with
  | [] => Ok totals
  | ln :: rest =>
      match ld_product ln with
      | None => Raise KeyError
      | Some pid =>
          match ld_qty ln with
          | None => Raise KeyError
          | Some NotANumber => Raise InvalidOperation
          | Some (Amount qty) =>
              if qty <=? 0 then Raise (StockError "Line quantity must be positive.")
              else group_lines_loop rest (dict_add pid qty totals)
          end
      end
  end.

Definition _group_lines_by_product (lines : list LineDict)
  : result (list (Product * Z)) :=
  group_lines_loop lines [].

(** The local [lock_level] of [apply_stock_batch_move]. *)
Definition lock_level (products : gset N) (prod_id : Product) (loc : option Location)
  : M Level :=
  do prod <- Product_get products prod_id;
  do lvl <- _get_level_for_update prod loc;
  refresh_from_db lvl.

(** [for pid in totals: d[pid] = lock_level(pid, loc)] *)
Fixpoint lock_levels (products : gset N) (totals : list (Product * Z))
    (loc : option Location) (d : gmap N Level) : M (gmap N Level) :=
  match totals with
  | [] => ret d
  | (pid, _) :: rest =>
      do lvl <- lock_level products pid loc;
      lock_levels products rest loc (<[pid := lvl]> d)
  end.

(** [[StockMoveLine(batch=batch, product=Product.objects.get(id=pid), qty=q)
    for pid, q in totals.items()]]: the products are fetched before any row
    is written. *)
Fixpoint line_instances (products : gset N) (totals : list (Product * Z))
  : M (list (Product * Z)) :=
  match totals with
  | [] => ret []
  | (pid, q) :: rest =>
      do prod <- Product_get products pid;
      do instances <- line_instances products rest;
      ret ((prod, q) :: instances)
  end.

Definition apply_stock_batch_move_body (products : gset N) (type : string)
    (from_location to_location : option Location) (timestamp : Z)
    (lines : list LineDict) : M StockMoveBatch :=
  let is_in := String.eqb type INBOUND in
  let is_out := String.eqb type OUTBOUND in
  let is_tr := String.eqb type TRANSFER in
  if negb (is_in || is_out || is_tr) then raise (StockError "Unknown move type.")
  else if is_in && negb (truthy to_location)
  then raise (StockError "INBOUND requires a destination (to_location).")
  else if is_out && negb (truthy from_location)
  then raise (StockError "OUTBOUND requires a source (from_location).")
  else
    (if is_tr then
       match from_location, to_location with
       | Some src, Some dst =>
           if N.eqb src dst
           then raise (StockError "Source and destination locations must differ.")
           else ret tt
       | _, _ => raise (StockError "TRANSFER requires both source and destination.")
       end
     else ret tt) ;;
    match lines with
    | [] => raise (StockError "At least one line is required.")
    | _ :: _ =>
        do totals <- lift (_group_lines_by_product lines);
        do levels_src <-
          (if is_out || is_tr then lock_levels products totals from_location ∅
           else ret ∅);
        do levels_dst <-
          (if is_in || is_tr then lock_levels products totals to_location ∅
           else ret ∅);
        (if is_out || is_tr then
           for_each totals (λ '(pid, q),
             do lvl <- dict_get levels_src pid;
             if lvl_on_hand lvl <? q
             then raise (insufficient_for pid)
             else ret tt)
         else ret tt) ;;
        (if is_in then
           for_each totals (λ '(pid, q),
             do lvl <- dict_get levels_dst pid;
             save_on_hand lvl q)
         else if is_out then
           for_each totals (λ '(pid, q),
             do lvl <- dict_get levels_src pid;
             save_on_hand lvl (- q))
         else
           for_each totals (λ '(pid, q),
             do src <- dict_get levels_src pid;
             do dst <- dict_get levels_dst pid;
             save_on_hand src (- q) ;;
             save_on_hand dst q)) ;;
        do batch <- StockMoveBatch_create type from_location to_location timestamp;
        do instances <- line_instances products totals;
        for_each instances (λ '(prod, q), StockMoveLine_create batch prod q) ;;
        ret batch
    end.

Definition apply_stock_batch_move (products : gset N) (type : string)
    (from_location to_location : option Location) (timestamp : Z)
    (lines : list LineDict) (db : DB) : DB * result StockMoveBatch :=
  atomic (apply_stock_batch_move_body products type from_location to_location
            timestamp lines) db.

End Raw.

(** A line that has its product and a decimal amount. *)
Definition has_amount (ln : LineDict) : Prop :=
  is_Some (ld_product ln) ∧ ∃ q, ld_qty ln = Some (Amount q).

(** What a service may raise on a list of line dicts: a [StockError]; a
    [KeyError] when a line lacks a key; [decimal.InvalidOperation] when a
    quantity is not a number; [Product.DoesNotExist] when a line names a
    product the table does not hold. *)
Definition accounted_for (products : gset N) (lines : list LineDict) (e : exn) : Prop :=
  match e with
  | StockError _ => True
  | KeyError => Exists (λ ln, ld_product ln = None ∨ ld_qty ln = None) lines
  | InvalidOperation => Exists (λ ln, ld_qty ln = Some NotANumber) lines
  | DoesNotExist =>
      Exists (λ ln, ∃ pid, ld_product ln = Some pid ∧ pid ∉ products) lines
  | _ => False
  end.

(** * Properties *)

(** ** The ledger store *)

Lemma db_eta (db : DB) :
  {| levels := levels db; moves := moves db; batches := batches db; lines := lines db |} = db.
Proof. by destruct db. Qed.

Lemma on_hand_of_add_at p l delta db p' l' :
  on_hand_of (add_at p l delta db) p' l'
  = on_hand_of db p' l' + (if decide ((p, l) = (p', l')) then delta else 0).
Proof.
  unfold add_at, on_hand_of, set_levels; simpl.
  rewrite lookup_insert. case_decide as E.
  - inversion E; subst. done.
  - simpl. lia.
Qed.

Lemma on_hand_of_touch p l db p' l' :
  on_hand_of (add_at p l 0 db) p' l' = on_hand_of db p' l'.
Proof. rewrite on_hand_of_add_at. case_decide; lia. Qed.

Lemma levels_add_at_eq p l delta db :
  levels (add_at p l delta db) !! (p, l) = Some (on_hand_of db p l + delta).
Proof. unfold add_at, set_levels; simpl. by rewrite lookup_insert_eq. Qed.

Lemma get_level_eq p l db :
  _get_level_for_update p (Some l) db
  = Ok (mk_level p l (on_hand_of db p l), add_at p l 0 db).
Proof.
  unfold _get_level_for_update, add_at, on_hand_of, mk_level, set_levels.
  destruct (levels db !! (p, l)) as [v|] eqn:E; simpl.
  - rewrite Z.add_0_r, insert_id by done. by rewrite db_eta.
  - done.
Qed.

Lemma refresh_eq lvl db v :
  levels db !! (lvl_product lvl, lvl_location lvl) = Some v →
  refresh_from_db lvl db = Ok (mk_level (lvl_product lvl) (lvl_location lvl) v, db).
Proof. unfold refresh_from_db. by intros ->. Qed.

Lemma save_eq lvl delta db :
  is_Some (levels db !! (lvl_product lvl, lvl_location lvl)) →
  save_on_hand lvl delta db
  = Ok (tt, add_at (lvl_product lvl) (lvl_location lvl) delta db).
Proof.
  intros [v E]. unfold save_on_hand, add_at, on_hand_of. by rewrite E.
Qed.

Lemma has_row_add_at p l delta db k :
  is_Some (levels db !! k) → is_Some (levels (add_at p l delta db) !! k).
Proof.
  intros H. unfold add_at, set_levels; simpl.
  rewrite lookup_insert. case_decide; eauto.
Qed.

Lemma has_row_add_at_eq p l delta db :
  is_Some (levels (add_at p l delta db) !! (p, l)).
Proof. rewrite levels_add_at_eq. eauto. Qed.

Lemma refresh_row lvl db :
  is_Some (levels db !! (lvl_product lvl, lvl_location lvl)) →
  refresh_from_db lvl db
  = Ok (mk_level (lvl_product lvl) (lvl_location lvl)
                 (on_hand_of db (lvl_product lvl) (lvl_location lvl)), db).
Proof.
  intros [v E]. rewrite (refresh_eq _ _ v E). unfold on_hand_of. by rewrite E.
Qed.

Lemma lock_level_eq p l db :
  lock_level p (Some l) db = Ok (mk_level p l (on_hand_of db p l), add_at p l 0 db).
Proof.
  unfold lock_level, bind. rewrite get_level_eq.
  rewrite refresh_row by (simpl; apply has_row_add_at_eq).
  simpl. by rewrite on_hand_of_touch.
Qed.

Lemma moves_add_at p l d db : moves (add_at p l d db) = moves db.
Proof. done. Qed.
Lemma batches_add_at p l d db : batches (add_at p l d db) = batches db.
Proof. done. Qed.
Lemma lines_add_at p l d db : lines (add_at p l d db) = lines db.
Proof. done. Qed.

Lemma add_at_add_at p l d1 d2 db :
  add_at p l d2 (add_at p l d1 db) = add_at p l (d1 + d2) db.
Proof.
  unfold add_at at 1. rewrite on_hand_of_add_at. rewrite decide_True by done.
  unfold add_at, set_levels; simpl. rewrite insert_insert_eq.
  do 2 f_equal. lia.
Qed.

(** ** Single movements in closed form *)

Lemma add_at_comm p1 l1 d1 p2 l2 d2 db :
  (p1, l1) ≠ (p2, l2) →
  add_at p1 l1 d1 (add_at p2 l2 d2 db) = add_at p2 l2 d2 (add_at p1 l1 d1 db).
Proof.
  intros Hne. unfold add_at at 1 3. rewrite !on_hand_of_add_at.
  rewrite decide_False by done. rewrite decide_False by (intros E; by apply Hne).
  unfold add_at, set_levels; simpl. rewrite !Z.add_0_r.
  f_equal. by apply insert_insert_ne.
Qed.

Lemma next_id_fresh (ids : list N) (x : N) : x ∈ ids → (x < next_id ids)%N.
Proof.
  unfold next_id. induction 1; simpl; lia.
Qed.

Lemma filter_Forall_id {A} (P : A → Prop) `{!∀ x, Decision (P x)} (l : list A) :
  Forall P l → filter P l = l.
Proof.
  induction 1 as [|x l Hx _ IH]; [done|].
  rewrite filter_cons_True by done. by rewrite IH.
Qed.

Lemma filter_Forall_nil {A} (P : A → Prop) `{!∀ x, Decision (P x)} (l : list A) :
  Forall (λ x, ¬ P x) l → filter P l = [].
Proof.
  induction 1 as [|x l Hx _ IH]; [done|].
  by rewrite filter_cons_False.
Qed.

Lemma delete_new_move db type p q from to ts :
  without_move (new_move db type p q from to ts)
               (with_move (new_move db type p q from to ts) db) = db.
Proof.
  unfold without_move, with_move; simpl.
  rewrite filter_app, filter_cons_False, filter_nil, app_nil_r by (simpl; tauto).
  rewrite filter_Forall_id; [apply db_eta|].
  apply Forall_forall. intros m Hm E.
  assert (Hin : move_id m ∈ move_id <$> moves db) by (apply list_elem_of_fmap; eauto).
  apply next_id_fresh in Hin. rewrite E in Hin. lia.
Qed.

Arguments _get_level_for_update : simpl never.
Arguments refresh_from_db : simpl never.
Arguments save_on_hand : simpl never.
Arguments lock_level : simpl never.
Arguments add_at : simpl never.
Arguments on_hand_of : simpl never.
Arguments with_move : simpl never.
Arguments without_move : simpl never.
Arguments new_move : simpl never.
Arguments with_batch : simpl never.
Arguments without_batch : simpl never.
Arguments new_batch : simpl never.
Arguments with_line : simpl never.

Lemma levels_add_at p l delta db k :
  levels (add_at p l delta db) !! k
  = if decide ((p, l) = k) then Some (on_hand_of db p l + delta) else levels db !! k.
Proof. unfold add_at, set_levels; simpl. apply lookup_insert. Qed.

Lemma db_ext (db1 db2 : DB) :
  levels db1 = levels db2 → moves db1 = moves db2 →
  batches db1 = batches db2 → lines db1 = lines db2 → db1 = db2.
Proof. destruct db1, db2; simpl; congruence. Qed.

(** Equality of two states built from the same one by [add_at] chains. *)
Ltac add_at_eq :=
  apply db_ext; [ apply map_eq; intros [? ?] | done | done | done ];
  repeat (rewrite ?levels_add_at, ?on_hand_of_add_at; simpl);
  repeat case_decide; simplify_eq; try done; try (f_equal; lia).

Ltac run_store :=
  repeat first
    [ rewrite get_level_eq
    | rewrite lock_level_eq
    | rewrite refresh_row
        by (cbn; repeat first [ apply has_row_add_at_eq | apply has_row_add_at ])
    | rewrite save_eq
        by (cbn; repeat first [ apply has_row_add_at_eq | apply has_row_add_at ])
    | rewrite on_hand_of_touch
    | progress cbn ].

Lemma apply_inbound_eq p q from l ts db :
  0 < q →
  apply_stock_move INBOUND p (Some q) from (Some l) ts db
  = (with_move (new_move db INBOUND p q from (Some l) ts) (add_at p l q db),
     Ok (new_move db INBOUND p q from (Some l) ts)).
Proof.
  intros Hq. unfold apply_stock_move, atomic, apply_stock_move_body, bind.
  rewrite (proj2 (Z.leb_gt q 0)) by done. simpl.
  run_store. rewrite add_at_add_at. done.
Qed.

Lemma apply_outbound_eq p q l to ts db :
  0 < q → q ≤ on_hand_of db p l →
  apply_stock_move OUTBOUND p (Some q) (Some l) to ts db
  = (with_move (new_move db OUTBOUND p q (Some l) to ts) (add_at p l (- q) db),
     Ok (new_move db OUTBOUND p q (Some l) to ts)).
Proof.
  intros Hq Hle. unfold apply_stock_move, atomic, apply_stock_move_body, bind.
  rewrite (proj2 (Z.leb_gt q 0)) by done. simpl.
  run_store. rewrite (proj2 (Z.ltb_ge _ _)) by done.
  run_store. rewrite add_at_add_at. done.
Qed.

Lemma apply_outbound_short p q l to ts db :
  0 < q → on_hand_of db p l < q →
  apply_stock_move OUTBOUND p (Some q) (Some l) to ts db
  = (db, Raise (StockError "Insufficient stock at source location.")).
Proof.
  intros Hq Hlt. unfold apply_stock_move, atomic, apply_stock_move_body, bind.
  rewrite (proj2 (Z.leb_gt q 0)) by done. simpl.
  run_store. rewrite (proj2 (Z.ltb_lt _ _)) by done. done.
Qed.

Lemma apply_transfer_eq p q src dst ts db :
  0 < q → src ≠ dst → q ≤ on_hand_of db p src →
  apply_stock_move TRANSFER p (Some q) (Some src) (Some dst) ts db
  = (with_move (new_move db TRANSFER p q (Some src) (Some dst) ts)
               (add_at p dst q (add_at p src (- q) db)),
     Ok (new_move db TRANSFER p q (Some src) (Some dst) ts)).
Proof.
  intros Hq Hne Hle. unfold apply_stock_move, atomic, apply_stock_move_body, bind.
  rewrite (proj2 (Z.leb_gt q 0)) by done. simpl.
  rewrite (proj2 (N.eqb_neq src dst)) by done.
  run_store. rewrite (proj2 (Z.ltb_ge _ _)) by done.
  run_store. do 2 f_equal. add_at_eq.
Qed.

Lemma apply_transfer_short p q src dst ts db :
  0 < q → src ≠ dst → on_hand_of db p src < q →
  apply_stock_move TRANSFER p (Some q) (Some src) (Some dst) ts db
  = (db, Raise (StockError "Insufficient stock at source location for transfer.")).
Proof.
  intros Hq Hne Hlt. unfold apply_stock_move, atomic, apply_stock_move_body, bind.
  rewrite (proj2 (Z.leb_gt q 0)) by done. simpl.
  rewrite (proj2 (N.eqb_neq src dst)) by done.
  run_store. rewrite (proj2 (Z.ltb_lt _ _)) by done. done.
Qed.

Lemma reverse_inbound_eq mv l db :
  move_type mv = INBOUND → move_to_location mv = Some l →
  move_qty mv ≤ on_hand_of db (move_product mv) l →
  reverse_stock_move mv db
  = (without_move mv (add_at (move_product mv) l (- move_qty mv) db), Ok tt).
Proof.
  intros Ht Hto Hle. unfold reverse_stock_move, atomic, reverse_stock_move_body, bind.
  rewrite Ht, Hto. run_store.
  rewrite (proj2 (Z.ltb_ge _ _)) by done.
  run_store. rewrite add_at_add_at. done.
Qed.

Lemma reverse_inbound_short mv l db :
  move_type mv = INBOUND → move_to_location mv = Some l →
  on_hand_of db (move_product mv) l < move_qty mv →
  reverse_stock_move mv db
  = (db, Raise (StockError "Cannot reverse: would go negative at destination.")).
Proof.
  intros Ht Hto Hlt. unfold reverse_stock_move, atomic, reverse_stock_move_body, bind.
  rewrite Ht, Hto. run_store.
  rewrite (proj2 (Z.ltb_lt _ _)) by done. done.
Qed.

Lemma reverse_outbound_eq mv l db :
  move_type mv = OUTBOUND → move_from_location mv = Some l →
  reverse_stock_move mv db
  = (without_move mv (add_at (move_product mv) l (move_qty mv) db), Ok tt).
Proof.
  intros Ht Hfrom. unfold reverse_stock_move, atomic, reverse_stock_move_body, bind.
  rewrite Ht, Hfrom. run_store. rewrite add_at_add_at. done.
Qed.

Lemma reverse_transfer_eq mv src dst db :
  move_type mv = TRANSFER →
  move_from_location mv = Some src → move_to_location mv = Some dst →
  move_qty mv ≤ on_hand_of db (move_product mv) dst →
  reverse_stock_move mv db
  = (without_move mv (add_at (move_product mv) src (move_qty mv)
                        (add_at (move_product mv) dst (- move_qty mv) db)), Ok tt).
Proof.
  intros Ht Hfrom Hto Hle.
  unfold reverse_stock_move, atomic, reverse_stock_move_body, bind.
  rewrite Ht, Hfrom, Hto. run_store.
  rewrite (proj2 (Z.ltb_ge _ _)) by done.
  run_store. do 2 f_equal. add_at_eq.
Qed.

Lemma reverse_transfer_short mv src dst db :
  move_type mv = TRANSFER →
  move_from_location mv = Some src → move_to_location mv = Some dst →
  on_hand_of db (move_product mv) dst < move_qty mv →
  reverse_stock_move mv db
  = (db, Raise (StockError "Cannot reverse: insufficient stock at destination.")).
Proof.
  intros Ht Hfrom Hto Hlt.
  unfold reverse_stock_move, atomic, reverse_stock_move_body, bind.
  rewrite Ht, Hfrom, Hto. run_store.
  rewrite (proj2 (Z.ltb_lt _ _)) by done. done.
Qed.

Ltac apply_raises H :=
  unfold apply_stock_move, atomic, apply_stock_move_body, bind in H;
  rewrite ?(proj2 (Z.leb_gt _ _)) in H by done;
  cbn in H; rewrite ?N.eqb_refl in H; discriminate H.

(** What a successful single application tells about its request. *)
Lemma apply_stock_move_ok_inv type p q from to ts db db1 mv :
  apply_stock_move type p q from to ts db = (db1, Ok mv) →
  ∃ q', q = Some q' ∧ 0 < q' ∧
    ((type = INBOUND ∧ ∃ l, to = Some l)
     ∨ (type = OUTBOUND ∧ ∃ l, from = Some l ∧ q' ≤ on_hand_of db p l)
     ∨ (type = TRANSFER ∧ ∃ src dst, from = Some src ∧ to = Some dst ∧ src ≠ dst
                            ∧ q' ≤ on_hand_of db p src)).
Proof.
  intros H. destruct q as [q'|]; [|discriminate H].
  destruct (Z.leb_spec q' 0) as [Hq|Hq].
  { unfold apply_stock_move, atomic, apply_stock_move_body in H.
    rewrite (proj2 (Z.leb_le _ _)) in H by done. discriminate H. }
  exists q'. split; [done|]. split; [done|].
  destruct (String.eqb_spec type INBOUND) as [->|Hin].
  { left. split; [done|]. destruct to as [l|]; [eauto|]. apply_raises H. }
  destruct (String.eqb_spec type OUTBOUND) as [->|Hout].
  { right; left. split; [done|]. destruct from as [l|].
    - exists l. split; [done|]. destruct (Z.lt_ge_cases (on_hand_of db p l) q'); [|done].
      rewrite apply_outbound_short in H by done. discriminate H.
    - apply_raises H. }
  destruct (String.eqb_spec type TRANSFER) as [->|Htr].
  { right; right. split; [done|].
    destruct from as [src|], to as [dst|];
      try (apply_raises H).
    exists src, dst. split; [done|]. split; [done|].
    destruct (N.eqb_spec src dst) as [->|Hne].
    { apply_raises H. }
    split; [done|].
    destruct (Z.lt_ge_cases (on_hand_of db p src) q'); [|done].
    rewrite apply_transfer_short in H by done. discriminate H. }
  unfold apply_stock_move, atomic, apply_stock_move_body, bind in H.
  rewrite (proj2 (Z.leb_gt _ _)) in H by done.
  rewrite (proj2 (String.eqb_neq _ _)), (proj2 (String.eqb_neq _ _)),
    (proj2 (String.eqb_neq _ _)) in H by done.
  discriminate H.
Qed.

Ltac new_move_fields :=
  repeat match goal with
  | |- context [move_qty (new_move ?d ?t ?p ?q ?f ?o ?s)] =>
      change (move_qty (new_move d t p q f o s)) with q
  | |- context [move_product (new_move ?d ?t ?p ?q ?f ?o ?s)] =>
      change (move_product (new_move d t p q f o s)) with p
  end.

Lemma without_new_move_add_at db0 db type p q from to ts (f : DB → DB) :
  moves db0 = moves db →
  (∀ d, moves (f d) = moves d) →
  (∀ mv d, f (with_move mv d) = with_move mv (f d)) →
  without_move (new_move db0 type p q from to ts)
    (f (with_move (new_move db0 type p q from to ts) db)) = f db.
Proof.
  intros H0 Hm Hc. rewrite Hc.
  replace (new_move db0 type p q from to ts) with (new_move (f db) type p q from to ts)
    by (unfold new_move; by rewrite Hm, H0).
  apply delete_new_move.
Qed.

(** C3, as stated, fails: it holds only on states without a negative
    balance, and the services do reach others.  Applying the TRANSFER batch
    [1: 4.00, 2: 3.00] to balances of 4.00 and 3.00 and reversing it leaves
    product 1 at -3.00 at location 2.  There an INBOUND movement of 1.00
    succeeds, since it makes no check, and its reversal, asked for at once,
    is refused because the balance of -2.00 is below the quantity: the
    movement stays recorded and the balance stays changed. *)
Lemma reversal_after_apply_can_be_refused :
  (transferred 400 300).2 = Ok (sample_batch TRANSFER (Some 1%N) (Some 2%N))
  ∧ reverse_stock_batch_move (sample_batch TRANSFER (Some 1%N) (Some 2%N))
                             (transferred 400 300).1 = (overdrawn, Ok tt)
  ∧ on_hand_of overdrawn 1%N 2%N = -300
  ∧ ∃ db1 mv,
      apply_stock_move INBOUND 1%N (Some 100) None (Some 2%N) 0 overdrawn = (db1, Ok mv)
      ∧ on_hand_of db1 1%N 2%N = -200
      ∧ reverse_stock_move mv db1
        = (db1, Raise (StockError "Cannot reverse: would go negative at destination.")).
Proof.
  split; [|split; [|split]].
  - vm_compute. reflexivity.
  - vm_compute. reflexivity.
  - vm_compute. reflexivity.
  - eexists _, _. split; [vm_compute; reflexivity|]. split; vm_compute; reflexivity.
Qed.

(** C3, amended.  On a state that satisfies the Balance invariant of the data
    model (no negative quantity), reversing a single movement right after it
    was applied succeeds, brings every balance back to the quantity it had
    before the application and removes the movement, leaving the event tables
    as they were. *)
Theorem apply_then_reverse_restores type p q from to ts db db1 mv :
  nonneg_balances db →
  apply_stock_move type p q from to ts db = (db1, Ok mv) →
  ∃ db2, reverse_stock_move mv db1 = (db2, Ok tt)
    ∧ (∀ p' l', on_hand_of db2 p' l' = on_hand_of db p' l')
    ∧ moves db2 = moves db ∧ batches db2 = batches db ∧ lines db2 = lines db.
Proof.
  intros Hinv H.
  destruct (apply_stock_move_ok_inv _ _ _ _ _ _ _ _ _ H)
    as (q' & -> & Hq & [(-> & l & ->) | [(-> & l & -> & Hle)
                                        | (-> & src & dst & -> & -> & Hne & Hle)]]).
  - rewrite apply_inbound_eq in H by done. simplify_eq.
    rewrite (reverse_inbound_eq _ l); [| done | done |]; last first.
    { new_move_fields. change (on_hand_of (with_move ?m ?d)) with (on_hand_of d).
      rewrite on_hand_of_add_at, decide_True by done. specialize (Hinv p l). lia. }
    eexists. split; [done|].
    new_move_fields.
    rewrite (without_new_move_add_at db (add_at p l q' db) _ _ _ _ _ _
               (add_at p l (- q'))) by done.
    split; [|done]. intros p' l'. rewrite !on_hand_of_add_at. case_decide; lia.
  - rewrite apply_outbound_eq in H by done. simplify_eq.
    rewrite (reverse_outbound_eq _ l) by done.
    eexists. split; [done|].
    new_move_fields.
    rewrite (without_new_move_add_at db (add_at p l (- q') db) _ _ _ _ _ _
               (add_at p l q')) by done.
    split; [|done]. intros p' l'. rewrite !on_hand_of_add_at. case_decide; lia.
  - rewrite apply_transfer_eq in H by done. simplify_eq.
    rewrite (reverse_transfer_eq _ src dst); [| done | done | done |]; last first.
    { new_move_fields. change (on_hand_of (with_move ?m ?d)) with (on_hand_of d).
      rewrite !on_hand_of_add_at. specialize (Hinv p dst).
      repeat case_decide; simplify_eq; lia. }
    eexists. split; [done|].
    new_move_fields.
    rewrite (without_new_move_add_at db (add_at p dst q' (add_at p src (- q') db))
               _ _ _ _ _ _ (λ d, add_at p src q' (add_at p dst (- q') d))) by done.
    split; [|done]. intros p' l'. rewrite !on_hand_of_add_at.
    repeat case_decide; simplify_eq; lia.
Qed.

Lemma nonneg_main_with product qty : 0 ≤ qty → nonneg_balances (main_with product qty).
Proof.
  intros Hq p l. unfold on_hand_of, main_with; cbn.
  destruct (decide ((product, 1%N) = (p, l))) as [<-|Hne].
  - by rewrite lookup_singleton_eq.
  - by rewrite lookup_singleton_ne.
Qed.

Lemma transfer_then_reverse_scenario :
  ∃ db2,
    reverse_stock_move
      {| move_id := 1; move_type := TRANSFER; move_product := 3%N; move_qty := 400;
         move_from_location := Some 1%N; move_to_location := Some 2%N;
         move_timestamp := 0 |}
      (apply_stock_move TRANSFER 3%N (Some 400) (Some 1%N) (Some 2%N) 0
                        (main_with 3%N 1000)).1
    = (db2, Ok tt)
    ∧ (∀ p' l', on_hand_of db2 p' l' = on_hand_of (main_with 3%N 1000) p' l')
    ∧ moves db2 = moves (main_with 3%N 1000)
    ∧ batches db2 = batches (main_with 3%N 1000)
    ∧ lines db2 = lines (main_with 3%N 1000).
Proof.
  apply (apply_then_reverse_restores TRANSFER 3%N (Some 400) (Some 1%N) (Some 2%N) 0
           (main_with 3%N 1000)).
  - apply nonneg_main_with. lia.
  - vm_compute. reflexivity.
Defined.

(** ** C7: a single OUTBOUND movement against its source balance *)

(** C7. A single OUTBOUND movement of a quantity [q] from a source whose
    balance is below [q] fails with the insufficient-stock error and leaves
    the whole state, the source balance included, as it was; when the balance
    is at least [q] the movement succeeds, the source balance decreases by
    exactly [q], no other balance changes and the movement is recorded. *)
Theorem outbound_checks_source_balance p q src to ts db :
  0 < q →
  (on_hand_of db p src < q →
     apply_stock_move OUTBOUND p (Some q) (Some src) to ts db
     = (db, Raise (StockError "Insufficient stock at source location.")))
  ∧ (q ≤ on_hand_of db p src →
     ∃ db' mv,
       apply_stock_move OUTBOUND p (Some q) (Some src) to ts db = (db', Ok mv)
       ∧ on_hand_of db' p src = on_hand_of db p src - q
       ∧ (∀ p' l', (p', l') ≠ (p, src) → on_hand_of db' p' l' = on_hand_of db p' l')
       ∧ moves db' = moves db ++ [mv]
       ∧ move_type mv = OUTBOUND ∧ move_product mv = p ∧ move_qty mv = q
       ∧ move_from_location mv = Some src).
Proof.
  intros Hq. split.
  - intros Hlt. by apply apply_outbound_short.
  - intros Hle. rewrite apply_outbound_eq by done.
    eexists _, _. split; [done|].
    change (on_hand_of (with_move ?m ?d)) with (on_hand_of d).
    split; [|split; [|done]].
    + rewrite on_hand_of_add_at, decide_True by done. lia.
    + intros p' l' Hne. rewrite on_hand_of_add_at, decide_False by congruence. lia.
Qed.

Lemma outbound_six_of_five :
  apply_stock_move OUTBOUND 1%N (Some 600) (Some 1%N) None 0 (main_with 1%N 500)
  = (main_with 1%N 500, Raise (StockError "Insufficient stock at source location."))
  ∧ ∃ db' mv,
      apply_stock_move OUTBOUND 1%N (Some 500) (Some 1%N) None 0 (main_with 1%N 500)
      = (db', Ok mv)
      ∧ on_hand_of db' 1%N 1%N = on_hand_of (main_with 1%N 500) 1%N 1%N - 500.
Proof.
  split.
  - apply (outbound_checks_source_balance 1%N 600 1%N None 0 (main_with 1%N 500));
      vm_compute; reflexivity.
  - destruct (proj2 (outbound_checks_source_balance 1%N 500 1%N None 0
                       (main_with 1%N 500) eq_refl))
      as (db' & mv & H1 & H2 & _).
    + vm_compute. discriminate.
    + exists db', mv. split; assumption.
Defined.

(** ** C10: reversing an OUTBOUND movement *)

(** C10. Reversing a recorded OUTBOUND movement that has a source makes no
    feasibility check: in every state it succeeds, adds the quantity back to
    the source balance, touches no other balance and deletes the movement.
    Reversing an INBOUND or a TRANSFER movement checks the destination
    balance and is refused, with nothing changed, when that balance is below
    the quantity. *)
Theorem reverse_outbound_unconditional :
  (∀ mv src db,
     move_type mv = OUTBOUND → move_from_location mv = Some src →
     ∃ db', reverse_stock_move mv db = (db', Ok tt)
       ∧ on_hand_of db' (move_product mv) src
         = on_hand_of db (move_product mv) src + move_qty mv
       ∧ (∀ p l, (p, l) ≠ (move_product mv, src) → on_hand_of db' p l = on_hand_of db p l)
       ∧ moves db' = filter (λ m, move_id m ≠ move_id mv) (moves db)
       ∧ mv ∉ moves db')
  ∧ (∀ mv dst db,
       move_type mv = INBOUND → move_to_location mv = Some dst →
       on_hand_of db (move_product mv) dst < move_qty mv →
       reverse_stock_move mv db
       = (db, Raise (StockError "Cannot reverse: would go negative at destination.")))
  ∧ (∀ mv src dst db,
       move_type mv = TRANSFER →
       move_from_location mv = Some src → move_to_location mv = Some dst →
       on_hand_of db (move_product mv) dst < move_qty mv →
       reverse_stock_move mv db
       = (db, Raise (StockError "Cannot reverse: insufficient stock at destination."))).
Proof.
  split; [|split].
  - intros mv src db Ht Hfrom. rewrite (reverse_outbound_eq _ src) by done.
    eexists. split; [done|].
    change (on_hand_of (without_move ?m ?d)) with (on_hand_of d).
    split; [|split; [|split; [done|]]].
    + rewrite on_hand_of_add_at, decide_True by done. lia.
    + intros p l Hne. rewrite on_hand_of_add_at, decide_False by congruence. lia.
    + unfold without_move; cbn. intros Hin.
      apply list_elem_of_filter in Hin as [Hid _]. by apply Hid.
  - intros mv dst db Ht Hto Hlt. by apply (reverse_inbound_short _ dst).
  - intros mv src dst db Ht Hfrom Hto Hlt. by apply (reverse_transfer_short _ src dst).
Qed.

Lemma reverse_outbound_on_empty_state :
  (∃ db', reverse_stock_move (sample_move OUTBOUND 600 (Some 1%N) None) empty_db
          = (db', Ok tt)
     ∧ on_hand_of db' 1%N 1%N = on_hand_of empty_db 1%N 1%N + 600)
  ∧ reverse_stock_move (sample_move INBOUND 600 None (Some 1%N)) (main_with 1%N 500)
    = (main_with 1%N 500,
       Raise (StockError "Cannot reverse: would go negative at destination."))
  ∧ reverse_stock_move (sample_move TRANSFER 600 (Some 2%N) (Some 1%N)) (main_with 1%N 500)
    = (main_with 1%N 500,
       Raise (StockError "Cannot reverse: insufficient stock at destination.")).
Proof.
  destruct reverse_outbound_unconditional as (Hout & Hin & Htr).
  split; [|split].
  - destruct (Hout (sample_move OUTBOUND 600 (Some 1%N) None) 1%N empty_db
                eq_refl eq_refl) as (db' & H1 & H2 & _).
    exists db'. split; assumption.
  - apply (Hin (sample_move INBOUND 600 None (Some 1%N)) 1%N (main_with 1%N 500));
      vm_compute; reflexivity.
  - apply (Htr (sample_move TRANSFER 600 (Some 2%N) (Some 1%N)) 2%N 1%N
             (main_with 1%N 500)); vm_compute; reflexivity.
Defined.

(** ** C8: the shape of a single-movement request *)

(** C8, as stated, fails: an INBOUND request that carries a source, and an
    OUTBOUND request that carries a destination, pass the serializer's
    validation and the service, change the balance and are recorded with the
    endpoint the claim forbids. *)
Lemma forbidden_endpoint_is_accepted :
  (∃ db' mv,
     StockMoveSerializer_save (sample_attrs INBOUND 300 (Some 2%N) (Some 1%N)) 0 empty_db
     = (db', Ok mv)
     ∧ on_hand_of db' 1%N 1%N = 300 ∧ move_from_location mv = Some 2%N)
  ∧ (∃ db' mv,
       StockMoveSerializer_save (sample_attrs OUTBOUND 300 (Some 1%N) (Some 2%N)) 0
                                (main_with 1%N 500)
       = (db', Ok mv)
       ∧ on_hand_of db' 1%N 1%N = 200 ∧ move_to_location mv = Some 2%N).
Proof.
  split; eexists _, _; vm_compute; repeat split; reflexivity.
Qed.

Lemma save_raises attrs now db e :
  StockMoveSerializer_validate attrs = Raise e →
  StockMoveSerializer_save attrs now db = (db, Raise e).
Proof. unfold StockMoveSerializer_save. by intros ->. Qed.

Lemma validate_inbound_no_destination attrs :
  attr_type attrs = INBOUND → attr_to_location attrs = None →
  ∃ msg, StockMoveSerializer_validate attrs = Raise (ValidationError msg).
Proof.
  intros Ht Hto. unfold StockMoveSerializer_validate. rewrite Ht, Hto.
  destruct (attr_qty attrs) as [q|]; [destruct (q <=? 0)|]; cbn; eauto.
Qed.

Lemma validate_outbound_no_source attrs :
  attr_type attrs = OUTBOUND → attr_from_location attrs = None →
  ∃ msg, StockMoveSerializer_validate attrs = Raise (ValidationError msg).
Proof.
  intros Ht Hfrom. unfold StockMoveSerializer_validate. rewrite Ht, Hfrom.
  destruct (attr_qty attrs) as [q|]; [destruct (q <=? 0)|]; cbn; eauto.
Qed.

Lemma apply_inbound_no_destination p q from ts db :
  ∃ msg, apply_stock_move INBOUND p q from None ts db = (db, Raise (StockError msg)).
Proof.
  unfold apply_stock_move, atomic, apply_stock_move_body, bind.
  destruct q as [q|]; [destruct (q <=? 0)|]; cbn; eauto.
Qed.

Lemma apply_outbound_no_source p q to ts db :
  ∃ msg, apply_stock_move OUTBOUND p q None to ts db = (db, Raise (StockError msg)).
Proof.
  unfold apply_stock_move, atomic, apply_stock_move_body, bind.
  destruct q as [q|]; [destruct (q <=? 0)|]; cbn; eauto.
Qed.

(** C8 (amended). Validation enforces the endpoint each kind requires, before
    any balance is touched: an INBOUND request without a destination and an
    OUTBOUND request without a source are rejected, by the serializer and by
    the service, and the state is left as it was.  The opposite endpoint is
    not forbidden: with it the request is served exactly as without it, the
    balances end the same, and the endpoint is only recorded on the event. *)
Theorem required_endpoint_is_enforced :
  (∀ attrs now db,
     (attr_type attrs = INBOUND ∧ attr_to_location attrs = None)
     ∨ (attr_type attrs = OUTBOUND ∧ attr_from_location attrs = None) →
     ∃ msg, StockMoveSerializer_validate attrs = Raise (ValidationError msg)
            ∧ StockMoveSerializer_save attrs now db = (db, Raise (ValidationError msg)))
  ∧ (∀ p q other ts db,
       (∃ msg, apply_stock_move INBOUND p q other None ts db
               = (db, Raise (StockError msg)))
       ∧ (∃ msg, apply_stock_move OUTBOUND p q None other ts db
                 = (db, Raise (StockError msg))))
  ∧ (∀ p q l other ts db,
       0 < q →
       (∃ db' mv, apply_stock_move INBOUND p (Some q) other (Some l) ts db = (db', Ok mv)
          ∧ levels db' = levels (apply_stock_move INBOUND p (Some q) None (Some l) ts db).1
          ∧ move_from_location mv = other)
       ∧ (q ≤ on_hand_of db p l →
          ∃ db' mv, apply_stock_move OUTBOUND p (Some q) (Some l) other ts db = (db', Ok mv)
            ∧ levels db' = levels (apply_stock_move OUTBOUND p (Some q) (Some l) None ts db).1
            ∧ move_to_location mv = other)).
Proof.
  split; [|split].
  - intros attrs now db [[Ht Hloc]|[Ht Hloc]].
    + destruct (validate_inbound_no_destination attrs Ht Hloc) as [msg Hv].
      exists msg. split; [done|]. by apply save_raises.
    + destruct (validate_outbound_no_source attrs Ht Hloc) as [msg Hv].
      exists msg. split; [done|]. by apply save_raises.
  - intros p q other ts db. split.
    + apply apply_inbound_no_destination.
    + apply apply_outbound_no_source.
  - intros p q l other ts db Hq. split.
    + rewrite !apply_inbound_eq by done. eexists _, _. done.
    + intros Hle. rewrite !apply_outbound_eq by done. eexists _, _. done.
Qed.

Lemma required_endpoint_scenarios :
  (∃ msg, StockMoveSerializer_validate (sample_attrs INBOUND 300 (Some 2%N) None)
          = Raise (ValidationError msg)
          ∧ StockMoveSerializer_save (sample_attrs INBOUND 300 (Some 2%N) None) 0 empty_db
            = (empty_db, Raise (ValidationError msg)))
  ∧ (∃ db' mv,
       apply_stock_move OUTBOUND 1%N (Some 300) (Some 1%N) (Some 2%N) 0 (main_with 1%N 500)
       = (db', Ok mv)
       ∧ levels db'
         = levels (apply_stock_move OUTBOUND 1%N (Some 300) (Some 1%N) None 0
                                    (main_with 1%N 500)).1
       ∧ move_to_location mv = Some 2%N).
Proof.
  destruct required_endpoint_is_enforced as (Hser & _ & Hextra).
  split.
  - apply (Hser (sample_attrs INBOUND 300 (Some 2%N) None) 0 empty_db).
    left. split; reflexivity.
  - apply (Hextra 1%N 300 1%N (Some 2%N) 0 (main_with 1%N 500)).
    + reflexivity.
    + vm_compute. discriminate.
Defined.

(** ** Batch loops in closed form *)

Arguments dict_get : simpl never.

Lemma locked_ext bal1 bal2 l totals d :
  (∀ p, bal1 p = bal2 p) → locked bal1 l totals d = locked bal2 l totals d.
Proof.
  intros Hb. revert d. induction totals as [|[pid q] rest IH]; intros d; cbn; [done|].
  by rewrite Hb, IH.
Qed.

Lemma locked_lookup_notin bal l totals d pid :
  pid ∉ totals.*1 → locked bal l totals d !! pid = d !! pid.
Proof.
  revert d. induction totals as [|[k q] rest IH]; intros d Hnin; cbn; [done|].
  cbn in Hnin. apply not_elem_of_cons in Hnin as [Hne Hnin].
  rewrite IH by done. by rewrite lookup_insert_ne.
Qed.

Lemma locked_lookup bal l totals d pid :
  pid ∈ totals.*1 → locked bal l totals d !! pid = Some (mk_level pid l (bal pid)).
Proof.
  revert d. induction totals as [|[k q] rest IH]; intros d Hin; cbn in *.
  { by apply elem_of_nil in Hin. }
  destruct (decide (pid ∈ rest.*1)) as [Hr|Hr]; [by apply IH|].
  apply elem_of_cons in Hin as [->|Hin]; [|done].
  rewrite locked_lookup_notin by done. by rewrite lookup_insert_eq.
Qed.

Lemma on_hand_of_touch_all totals l db p' l' :
  on_hand_of (touch_all totals l db) p' l' = on_hand_of db p' l'.
Proof.
  revert db. induction totals as [|[k q] rest IH]; intros db; cbn; [done|].
  by rewrite IH, on_hand_of_touch.
Qed.

Lemma has_row_touch_all totals l db k :
  is_Some (levels db !! k) → is_Some (levels (touch_all totals l db) !! k).
Proof.
  revert db. induction totals as [|[pid q] rest IH]; intros db H; cbn; [done|].
  by apply IH, has_row_add_at.
Qed.

Lemma has_row_touch_all_in totals l db pid :
  pid ∈ totals.*1 → is_Some (levels (touch_all totals l db) !! (pid, l)).
Proof.
  revert db. induction totals as [|[k q] rest IH]; intros db Hin; cbn in *.
  { by apply elem_of_nil in Hin. }
  apply elem_of_cons in Hin as [->|Hin]; [|by apply IH].
  apply has_row_touch_all, has_row_add_at_eq.
Qed.

Lemma lock_levels_eq totals l d db :
  lock_levels totals (Some l) d db
  = Ok (locked (λ p, on_hand_of db p l) l totals d, touch_all totals l db).
Proof.
  revert d db. induction totals as [|[pid q] rest IH]; intros d db; cbn; [done|].
  unfold bind. rewrite lock_level_eq, IH. do 2 f_equal.
  apply locked_ext. intros p. apply on_hand_of_touch.
Qed.

Lemma levels_for_tail bal l x rest d :
  levels_for bal l (x :: rest) d → levels_for bal l rest d.
Proof. intros H pid Hin. apply H. cbn. by apply elem_of_cons; right. Qed.

Lemma levels_for_head bal l pid q rest d :
  levels_for bal l ((pid, q) :: rest) d → d !! pid = Some (mk_level pid l (bal pid)).
Proof. intros H. apply H. cbn. by apply elem_of_cons; left. Qed.

Lemma levels_for_locked bal l totals :
  levels_for bal l totals (locked bal l totals ∅).
Proof. intros pid Hin. by apply locked_lookup. Qed.

Lemma dict_get_eq d pid lvl db :
  d !! pid = Some lvl → dict_get d pid db = Ok (lvl, db).
Proof. unfold dict_get. by intros ->. Qed.

Lemma feasibility_eq bal l totals d db :
  levels_for bal l totals d →
  for_each totals (λ '(pid, q),
    do lvl <- dict_get d pid;
    if lvl_on_hand lvl <? q then raise (insufficient_for pid) else ret tt) db
  = match first_short bal totals with
    | Some pid => Raise (insufficient_for pid)
    | None => Ok (tt, db)
    end.
Proof.
  induction totals as [|[pid q] rest IH]; intros Hd; cbn; [done|].
  unfold bind at 1 2. rewrite (dict_get_eq _ _ _ _ (levels_for_head _ _ _ _ _ _ Hd)).
  cbn. destruct (bal pid <? q); [done|]. cbn.
  apply IH. by eapply levels_for_tail.
Qed.

(** Rows exist for every product of [totals] at [l]. *)
Lemma rows_for_tail (totals : list (Product * Z)) l db x p d :
  (∀ pid, pid ∈ (x :: totals).*1 → is_Some (levels db !! (pid, l))) →
  ∀ pid, pid ∈ totals.*1 → is_Some (levels (add_at p l d db) !! (pid, l)).
Proof.
  intros H pid Hin. apply has_row_add_at, H. cbn. by apply elem_of_cons; right.
Qed.

Lemma credit_loop_eq bal l totals d db :
  levels_for bal l totals d →
  (∀ pid, pid ∈ totals.*1 → is_Some (levels db !! (pid, l))) →
  for_each totals (λ '(pid, q),
    do lvl <- dict_get d pid;
    save_on_hand lvl q) db
  = Ok (tt, credit_all totals l db).
Proof.
  revert db. induction totals as [|[pid q] rest IH]; intros db Hd Hrows; cbn; [done|].
  unfold bind at 1 2. rewrite (dict_get_eq _ _ _ _ (levels_for_head _ _ _ _ _ _ Hd)).
  rewrite save_eq by (cbn; apply Hrows; cbn; apply elem_of_cons; by left).
  cbn. apply IH; [by eapply levels_for_tail|by eapply rows_for_tail].
Qed.

Lemma debit_loop_eq bal l totals d db :
  levels_for bal l totals d →
  (∀ pid, pid ∈ totals.*1 → is_Some (levels db !! (pid, l))) →
  for_each totals (λ '(pid, q),
    do lvl <- dict_get d pid;
    save_on_hand lvl (- q)) db
  = Ok (tt, debit_all totals l db).
Proof.
  revert db. induction totals as [|[pid q] rest IH]; intros db Hd Hrows; cbn; [done|].
  unfold bind at 1 2. rewrite (dict_get_eq _ _ _ _ (levels_for_head _ _ _ _ _ _ Hd)).
  rewrite save_eq by (cbn; apply Hrows; cbn; apply elem_of_cons; by left).
  cbn. apply IH; [by eapply levels_for_tail|by eapply rows_for_tail].
Qed.

Lemma transfer_loop_eq bal1 bal2 src dst totals ds dd db :
  levels_for bal1 src totals ds → levels_for bal2 dst totals dd →
  (∀ pid, pid ∈ totals.*1 → is_Some (levels db !! (pid, src))) →
  (∀ pid, pid ∈ totals.*1 → is_Some (levels db !! (pid, dst))) →
  for_each totals (λ '(pid, q),
    do src <- dict_get ds pid;
    do dst <- dict_get dd pid;
    save_on_hand src (- q) ;;
    save_on_hand dst q) db
  = Ok (tt, transfer_all totals src dst db).
Proof.
  revert db. induction totals as [|[pid q] rest IH]; intros db Hs Hd Hrs Hrd; cbn; [done|].
  unfold bind at 1 2. rewrite (dict_get_eq _ _ _ _ (levels_for_head _ _ _ _ _ _ Hs)).
  unfold bind at 1. rewrite (dict_get_eq _ _ _ _ (levels_for_head _ _ _ _ _ _ Hd)).
  unfold bind at 1.
  rewrite save_eq by (cbn; apply Hrs; cbn; apply elem_of_cons; by left).
  rewrite save_eq
    by (cbn; apply has_row_add_at, Hrd; cbn; apply elem_of_cons; by left).
  cbn. apply IH; try by eapply levels_for_tail.
  - intros pid' Hin. apply has_row_add_at, has_row_add_at, Hrs.
    cbn. by apply elem_of_cons; right.
  - intros pid' Hin. apply has_row_add_at, has_row_add_at, Hrd.
    cbn. by apply elem_of_cons; right.
Qed.

Lemma lines_loop_eq b totals db :
  for_each totals (λ '(pid, q), StockMoveLine_create b pid q) db
  = Ok (tt, with_lines b totals db).
Proof.
  revert db. induction totals as [|[pid q] rest IH]; intros db; cbn; [done|].
  apply IH.
Qed.

(** ** Batch application in closed form *)

Lemma batches_touch_all totals l db : batches (touch_all totals l db) = batches db.
Proof. revert db. induction totals as [|[p q] r IH]; intros db; cbn; [done|]. by rewrite IH. Qed.
Lemma batches_credit_all totals l db : batches (credit_all totals l db) = batches db.
Proof. revert db. induction totals as [|[p q] r IH]; intros db; cbn; [done|]. by rewrite IH. Qed.
Lemma batches_debit_all totals l db : batches (debit_all totals l db) = batches db.
Proof. revert db. induction totals as [|[p q] r IH]; intros db; cbn; [done|]. by rewrite IH. Qed.
Lemma batches_transfer_all totals s t db : batches (transfer_all totals s t db) = batches db.
Proof. revert db. induction totals as [|[p q] r IH]; intros db; cbn; [done|]. by rewrite IH. Qed.

Lemma lines_touch_all totals l db : lines (touch_all totals l db) = lines db.
Proof. revert db. induction totals as [|[p q] r IH]; intros db; cbn; [done|]. by rewrite IH. Qed.
Lemma lines_credit_all totals l db : lines (credit_all totals l db) = lines db.
Proof. revert db. induction totals as [|[p q] r IH]; intros db; cbn; [done|]. by rewrite IH. Qed.
Lemma lines_debit_all totals l db : lines (debit_all totals l db) = lines db.
Proof. revert db. induction totals as [|[p q] r IH]; intros db; cbn; [done|]. by rewrite IH. Qed.
Lemma lines_transfer_all totals s t db : lines (transfer_all totals s t db) = lines db.
Proof. revert db. induction totals as [|[p q] r IH]; intros db; cbn; [done|]. by rewrite IH. Qed.

Lemma moves_touch_all totals l db : moves (touch_all totals l db) = moves db.
Proof. revert db. induction totals as [|[p q] r IH]; intros db; cbn; [done|]. by rewrite IH. Qed.
Lemma moves_credit_all totals l db : moves (credit_all totals l db) = moves db.
Proof. revert db. induction totals as [|[p q] r IH]; intros db; cbn; [done|]. by rewrite IH. Qed.
Lemma moves_debit_all totals l db : moves (debit_all totals l db) = moves db.
Proof. revert db. induction totals as [|[p q] r IH]; intros db; cbn; [done|]. by rewrite IH. Qed.
Lemma moves_transfer_all totals s t db : moves (transfer_all totals s t db) = moves db.
Proof. revert db. induction totals as [|[p q] r IH]; intros db; cbn; [done|]. by rewrite IH. Qed.

Lemma new_batch_same db1 db2 type from to ts :
  batches db1 = batches db2 → new_batch db1 type from to ts = new_batch db2 type from to ts.
Proof. unfold new_batch. by intros ->. Qed.

Arguments _group_lines_by_product : simpl never.
Arguments lock_levels : simpl never.
Arguments for_each : simpl never.
Arguments touch_all : simpl never.
Arguments credit_all : simpl never.
Arguments debit_all : simpl never.
Arguments transfer_all : simpl never.
Arguments with_lines : simpl never.
Arguments locked : simpl never.
Arguments insufficient_for : simpl never.

Lemma bind_eq {A B} (m : M A) (k : A → M B) db :
  bind m k db = match m db with Ok (a, db') => k a db' | Raise e => Raise e end.
Proof. done. Qed.

Lemma apply_batch_inbound_eq from l ts lines totals db :
  lines ≠ [] → _group_lines_by_product lines = Ok totals →
  apply_stock_batch_move INBOUND from (Some l) ts lines db
  = (with_lines (new_batch db INBOUND from (Some l) ts) totals
       (with_batch (new_batch db INBOUND from (Some l) ts)
          (credit_all totals l (touch_all totals l db))),
     Ok (new_batch db INBOUND from (Some l) ts)).
Proof.
  intros Hne Hg. destruct lines as [|ln lines]; [done|].
  unfold apply_stock_batch_move, atomic, apply_stock_batch_move_body.
  cbn. rewrite Hg. cbn.
  rewrite bind_eq, lock_levels_eq. cbn.
  rewrite bind_eq.
  erewrite (credit_loop_eq _ l); [| apply levels_for_locked
                                  | by apply has_row_touch_all_in ].
  rewrite bind_eq. cbn. rewrite bind_eq, lines_loop_eq. cbn.
  by rewrite (new_batch_same _ db)
    by (by rewrite batches_credit_all, batches_touch_all).
Qed.

Lemma apply_batch_outbound_eq l to ts lines totals db :
  lines ≠ [] → _group_lines_by_product lines = Ok totals →
  first_short (λ p, on_hand_of db p l) totals = None →
  apply_stock_batch_move OUTBOUND (Some l) to ts lines db
  = (with_lines (new_batch db OUTBOUND (Some l) to ts) totals
       (with_batch (new_batch db OUTBOUND (Some l) to ts)
          (debit_all totals l (touch_all totals l db))),
     Ok (new_batch db OUTBOUND (Some l) to ts)).
Proof.
  intros Hne Hg Hfs. destruct lines as [|ln lines]; [done|].
  unfold apply_stock_batch_move, atomic, apply_stock_batch_move_body.
  cbn. rewrite Hg. cbn.
  rewrite bind_eq, lock_levels_eq. cbn.
  rewrite bind_eq.
  erewrite (feasibility_eq _ l); [|apply levels_for_locked]. rewrite Hfs.
  rewrite bind_eq.
  erewrite (debit_loop_eq _ l); [| apply levels_for_locked
                                 | by apply has_row_touch_all_in ].
  rewrite bind_eq. cbn. rewrite bind_eq, lines_loop_eq. cbn.
  by rewrite (new_batch_same _ db)
    by (by rewrite batches_debit_all, batches_touch_all).
Qed.

Lemma apply_batch_outbound_short l to ts lines totals db pid :
  lines ≠ [] → _group_lines_by_product lines = Ok totals →
  first_short (λ p, on_hand_of db p l) totals = Some pid →
  apply_stock_batch_move OUTBOUND (Some l) to ts lines db
  = (db, Raise (insufficient_for pid)).
Proof.
  intros Hne Hg Hfs. destruct lines as [|ln lines]; [done|].
  unfold apply_stock_batch_move, atomic, apply_stock_batch_move_body.
  cbn. rewrite Hg. cbn.
  rewrite bind_eq, lock_levels_eq. cbn.
  rewrite bind_eq.
  erewrite (feasibility_eq _ l); [|apply levels_for_locked]. by rewrite Hfs.
Qed.

Lemma apply_batch_transfer_eq src dst ts lines totals db :
  lines ≠ [] → _group_lines_by_product lines = Ok totals → src ≠ dst →
  first_short (λ p, on_hand_of db p src) totals = None →
  apply_stock_batch_move TRANSFER (Some src) (Some dst) ts lines db
  = (with_lines (new_batch db TRANSFER (Some src) (Some dst) ts) totals
       (with_batch (new_batch db TRANSFER (Some src) (Some dst) ts)
          (transfer_all totals src dst
             (touch_all totals dst (touch_all totals src db)))),
     Ok (new_batch db TRANSFER (Some src) (Some dst) ts)).
Proof.
  intros Hne Hg Hsd Hfs. destruct lines as [|ln lines]; [done|].
  unfold apply_stock_batch_move, atomic, apply_stock_batch_move_body.
  cbn. rewrite (proj2 (N.eqb_neq src dst)) by done. cbn. rewrite Hg. cbn.
  rewrite bind_eq, lock_levels_eq. cbn.
  rewrite bind_eq, lock_levels_eq. cbn.
  rewrite bind_eq.
  erewrite (feasibility_eq _ src); [|apply levels_for_locked]. rewrite Hfs.
  rewrite bind_eq.
  erewrite (transfer_loop_eq _ _ src dst);
    [| apply levels_for_locked | apply levels_for_locked
     | intros; by apply has_row_touch_all, has_row_touch_all_in
     | intros; by apply has_row_touch_all_in ].
  rewrite bind_eq. cbn. rewrite bind_eq, lines_loop_eq. cbn.
  by rewrite (new_batch_same _ db)
    by (by rewrite batches_transfer_all, !batches_touch_all).
Qed.

Lemma apply_batch_transfer_short src dst ts lines totals db pid :
  lines ≠ [] → _group_lines_by_product lines = Ok totals → src ≠ dst →
  first_short (λ p, on_hand_of db p src) totals = Some pid →
  apply_stock_batch_move TRANSFER (Some src) (Some dst) ts lines db
  = (db, Raise (insufficient_for pid)).
Proof.
  intros Hne Hg Hsd Hfs. destruct lines as [|ln lines]; [done|].
  unfold apply_stock_batch_move, atomic, apply_stock_batch_move_body.
  cbn. rewrite (proj2 (N.eqb_neq src dst)) by done. cbn. rewrite Hg. cbn.
  rewrite bind_eq, lock_levels_eq. cbn.
  rewrite bind_eq, lock_levels_eq. cbn.
  rewrite bind_eq.
  erewrite (feasibility_eq _ src); [|apply levels_for_locked]. by rewrite Hfs.
Qed.

(** ** Consolidation of lines per product *)

Lemma dict_add_keys_in pid q acc :
  pid ∈ acc.*1 → (dict_add pid q acc).*1 = acc.*1.
Proof.
  induction acc as [|[k v] rest IH]; cbn; intros Hin.
  { by apply elem_of_nil in Hin. }
  destruct (N.eqb_spec k pid) as [->|Hne]; cbn; [done|].
  apply elem_of_cons in Hin as [->|Hin]; [done|]. by rewrite IH.
Qed.

Lemma dict_add_notin pid q acc :
  pid ∉ acc.*1 → dict_add pid q acc = acc ++ [(pid, q)].
Proof.
  induction acc as [|[k v] rest IH]; cbn; intros Hnin; [done|].
  apply not_elem_of_cons in Hnin as [Hne Hnin].
  rewrite (proj2 (N.eqb_neq k pid)) by done. by rewrite IH.
Qed.

Lemma dict_add_NoDup pid q acc : NoDup acc.*1 → NoDup (dict_add pid q acc).*1.
Proof.
  intros Hnd. destruct (decide (pid ∈ acc.*1)) as [Hin|Hnin].
  - by rewrite dict_add_keys_in.
  - rewrite dict_add_notin, fmap_app by done. cbn.
    apply NoDup_app. split; [done|]. split; [|apply NoDup_singleton].
    intros x Hx Hx'. apply list_elem_of_singleton in Hx' as ->. done.
Qed.

Lemma dict_add_elem pid q acc p :
  p ∈ (dict_add pid q acc).*1 ↔ p = pid ∨ p ∈ acc.*1.
Proof.
  destruct (decide (pid ∈ acc.*1)) as [Hin|Hnin].
  - rewrite dict_add_keys_in by done. split; [auto|]. by intros [->|].
  - rewrite dict_add_notin, fmap_app by done. cbn.
    rewrite elem_of_app, list_elem_of_singleton. tauto.
Qed.

Lemma qty_of_dict_add pid q acc p :
  qty_of (dict_add pid q acc) p = qty_of acc p + (if N.eqb pid p then q else 0).
Proof.
  induction acc as [|[k v] rest IH]; cbn.
  { destruct (N.eqb pid p); lia. }
  destruct (N.eqb_spec k pid) as [->|Hne]; cbn.
  - destruct (N.eqb pid p); lia.
  - rewrite IH. lia.
Qed.

Lemma dict_add_positive pid q acc :
  0 < q → Forall (λ x, 0 < x.2) acc → Forall (λ x, 0 < x.2) (dict_add pid q acc).
Proof.
  intros Hq. induction 1 as [|[k v] rest Hv Hrest IH]; cbn in *.
  { by repeat constructor. }
  destruct (N.eqb k pid); constructor; cbn; try done; lia.
Qed.

Lemma dict_add_not_nil pid q acc : dict_add pid q acc ≠ [].
Proof. destruct acc as [|[k v] rest]; cbn; [done|]. by destruct (N.eqb k pid). Qed.

Lemma group_lines_loop_spec lines acc totals :
  group_lines_loop lines acc = Ok totals →
  Forall (λ x, 0 < x.2) lines
  ∧ (NoDup acc.*1 → NoDup totals.*1)
  ∧ (∀ p, p ∈ totals.*1 ↔ p ∈ acc.*1 ∨ p ∈ lines.*1)
  ∧ (∀ p, qty_of totals p = qty_of acc p + qty_of lines p)
  ∧ (Forall (λ x, 0 < x.2) acc → Forall (λ x, 0 < x.2) totals)
  ∧ (lines ≠ [] → totals ≠ []).
Proof.
  revert acc. induction lines as [|[pid q] rest IH]; intros acc H; cbn in H.
  { simplify_eq. repeat split; try done.
    - auto.
    - intros [?|Hin]; [done|]. by apply elem_of_nil in Hin.
    - cbn. lia. }
  destruct (Z.leb_spec q 0) as [Hq|Hq]; [discriminate H|].
  destruct (IH _ H) as (Hpos & Hnd & Hel & Hqty & Hp & Hnn).
  split; [by constructor|]. split; [|split; [|split; [|split]]].
  - intros Hacc. by apply Hnd, dict_add_NoDup.
  - intros p. rewrite Hel, dict_add_elem. cbn. rewrite elem_of_cons. tauto.
  - intros p. rewrite Hqty, qty_of_dict_add. cbn. lia.
  - intros Hacc. by apply Hp, dict_add_positive.
  - intros _. destruct rest as [|x rest'].
    + cbn in H. simplify_eq. apply dict_add_not_nil.
    + by apply Hnn.
Qed.

Lemma group_lines_loop_fresh lines acc :
  NoDup (acc ++ lines).*1 → Forall (λ x, 0 < x.2) lines →
  group_lines_loop lines acc = Ok (acc ++ lines).
Proof.
  revert acc. induction lines as [|[pid q] rest IH]; intros acc Hnd Hpos; cbn.
  { by rewrite app_nil_r. }
  apply Forall_cons in Hpos as [Hq Hpos]. cbn in Hq.
  rewrite (proj2 (Z.leb_gt q 0)) by done.
  rewrite dict_add_notin.
  - rewrite IH; [by rewrite <-app_assoc| by rewrite <-app_assoc |done].
  - rewrite fmap_app in Hnd. apply NoDup_app in Hnd as (_ & Hdis & _).
    intros Hin. apply (Hdis _ Hin). cbn. by apply elem_of_cons; left.
Qed.

Lemma qty_of_NoDup totals p q :
  NoDup totals.*1 → (p, q) ∈ totals → qty_of totals p = q.
Proof.
  induction totals as [|[k v] rest IH]; cbn; intros Hnd Hin.
  { by apply elem_of_nil in Hin. }
  apply NoDup_cons in Hnd as [Hk Hnd].
  apply elem_of_cons in Hin as [E|Hin].
  - simplify_eq. rewrite N.eqb_refl.
    assert (qty_of rest k = 0) as ->; [|lia].
    clear -Hk. induction rest as [|[k' v'] r IH]; cbn; [done|].
    cbn in Hk. apply not_elem_of_cons in Hk as [Hne Hk].
    rewrite (proj2 (N.eqb_neq k' k)) by done. rewrite IH by done. done.
  - assert (k ≠ p).
    { intros ->. apply Hk. apply list_elem_of_fmap. by exists (p, q). }
    rewrite (proj2 (N.eqb_neq k p)) by done. rewrite IH by done. lia.
Qed.

(** The grouping in one statement. *)
Lemma group_lines_spec lines totals :
  _group_lines_by_product lines = Ok totals →
  NoDup totals.*1
  ∧ (∀ p, p ∈ totals.*1 ↔ p ∈ lines.*1)
  ∧ (∀ p, qty_of totals p = qty_of lines p)
  ∧ Forall (λ x, 0 < x.2) totals
  ∧ (lines ≠ [] → totals ≠ [])
  ∧ _group_lines_by_product totals = Ok totals.
Proof.
  intros H. destruct (group_lines_loop_spec _ _ _ H) as (Hpos & Hnd & Hel & Hqty & Hp & Hnn).
  assert (NoDup totals.*1) by (apply Hnd; constructor).
  assert (Forall (λ x, 0 < x.2) totals) by (apply Hp; constructor).
  repeat split; try done.
  - intros Hin. apply Hel in Hin as [Hin|Hin]; [|done]. by apply elem_of_nil in Hin.
  - intros Hin. apply Hel. by right.
  - unfold _group_lines_by_product. by rewrite group_lines_loop_fresh.
Qed.

(** ** What a successful batch application tells *)

Ltac batch_raises H :=
  unfold apply_stock_batch_move, atomic, apply_stock_batch_move_body in H;
  cbn in H; rewrite ?N.eqb_refl in H; cbn in H;
  repeat match goal with
         | Hg : _group_lines_by_product _ = _ |- _ => rewrite Hg in H; cbn in H
         end;
  discriminate H.

Lemma apply_batch_ok_inv type from to ts lines db db' b :
  apply_stock_batch_move type from to ts lines db = (db', Ok b) →
  ∃ totals,
    _group_lines_by_product lines = Ok totals ∧ lines ≠ []
    ∧ b = new_batch db type from to ts
    ∧ ∃ dbm, db' = with_lines b totals (with_batch b dbm)
      ∧ ((type = INBOUND ∧ ∃ l, to = Some l
            ∧ dbm = credit_all totals l (touch_all totals l db))
         ∨ (type = OUTBOUND ∧ ∃ l, from = Some l
              ∧ first_short (λ p, on_hand_of db p l) totals = None
              ∧ dbm = debit_all totals l (touch_all totals l db))
         ∨ (type = TRANSFER ∧ ∃ src dst, from = Some src ∧ to = Some dst ∧ src ≠ dst
              ∧ first_short (λ p, on_hand_of db p src) totals = None
              ∧ dbm = transfer_all totals src dst
                        (touch_all totals dst (touch_all totals src db)))).
Proof.
  intros H.
  destruct (String.eqb_spec type INBOUND) as [->|Hin].
  { destruct to as [l|]; [|batch_raises H].
    destruct lines as [|ln lines]; [batch_raises H|].
    destruct (_group_lines_by_product (ln :: lines)) as [totals|e] eqn:Hg;
      [|batch_raises H].
    rewrite (apply_batch_inbound_eq _ _ _ _ totals) in H by done. simplify_eq.
    exists totals. repeat split; try done. eexists. split; [done|].
    left. eauto. }
  destruct (String.eqb_spec type OUTBOUND) as [->|Hout].
  { destruct from as [l|]; [|batch_raises H].
    destruct lines as [|ln lines]; [batch_raises H|].
    destruct (_group_lines_by_product (ln :: lines)) as [totals|e] eqn:Hg;
      [|batch_raises H].
    destruct (first_short (λ p, on_hand_of db p l) totals) as [pid|] eqn:Hfs.
    { rewrite (apply_batch_outbound_short _ _ _ _ totals _ pid) in H by done.
      discriminate H. }
    rewrite (apply_batch_outbound_eq _ _ _ _ totals) in H by done. simplify_eq.
    exists totals. repeat split; try done. eexists. split; [done|].
    right; left. eauto. }
  destruct (String.eqb_spec type TRANSFER) as [->|Htr].
  { destruct from as [src|], to as [dst|]; try batch_raises H.
    destruct (N.eqb_spec src dst) as [->|Hne]; [batch_raises H|].
    destruct lines as [|ln lines].
    { unfold apply_stock_batch_move, atomic, apply_stock_batch_move_body in H;
        cbn in H. rewrite (proj2 (N.eqb_neq src dst)) in H by done. discriminate H. }
    destruct (_group_lines_by_product (ln :: lines)) as [totals|e] eqn:Hg.
    2:{ unfold apply_stock_batch_move, atomic, apply_stock_batch_move_body in H;
        cbn in H. rewrite (proj2 (N.eqb_neq src dst)) in H by done.
        cbn in H. rewrite Hg in H. discriminate H. }
    destruct (first_short (λ p, on_hand_of db p src) totals) as [pid|] eqn:Hfs.
    { rewrite (apply_batch_transfer_short _ _ _ _ totals _ pid) in H by done.
      discriminate H. }
    rewrite (apply_batch_transfer_eq _ _ _ _ totals) in H by done. simplify_eq.
    exists totals. repeat split; try done. eexists. split; [done|].
    right; right. split; [done|]. exists src, dst. eauto. }
  unfold apply_stock_batch_move, atomic, apply_stock_batch_move_body in H.
  rewrite (proj2 (String.eqb_neq _ _)), (proj2 (String.eqb_neq _ _)),
    (proj2 (String.eqb_neq _ _)) in H by done.
  discriminate H.
Qed.

(** ** C4: a batch is all or nothing *)

Lemma first_short_Some bal totals pid q :
  (pid, q) ∈ totals → bal pid < q → is_Some (first_short bal totals).
Proof.
  induction totals as [|[k v] rest IH]; cbn; intros Hin Hlt.
  { by apply elem_of_nil in Hin. }
  destruct (Z.ltb_spec (bal k) v); [eauto|].
  apply elem_of_cons in Hin as [E|Hin]; [simplify_eq; lia|eauto].
Qed.

(** C4. For an OUTBOUND or TRANSFER batch, when the source balance of any one
    consolidated product is below that product's consolidated quantity the
    whole batch fails with a stock error and the state is returned as it
    was: no balance of any product is changed and no batch or line is
    recorded. *)
Theorem batch_is_all_or_nothing type from to ts lines totals src pid q db :
  type = OUTBOUND ∨ type = TRANSFER →
  from = Some src →
  _group_lines_by_product lines = Ok totals →
  (pid, q) ∈ totals →
  on_hand_of db pid src < q →
  ∃ msg, apply_stock_batch_move type from to ts lines db = (db, Raise (StockError msg)).
Proof.
  intros Ht -> Hg Hin Hlt.
  assert (lines ≠ []) as Hne.
  { intros ->. cbv in Hg. simplify_eq. by apply elem_of_nil in Hin. }
  destruct (first_short_Some (λ p, on_hand_of db p src) totals pid q Hin Hlt)
    as [pid' Hfs].
  destruct Ht as [->| ->].
  - rewrite (apply_batch_outbound_short _ _ _ _ totals _ pid') by done.
    unfold insufficient_for. eauto.
  - destruct to as [dst|].
    + destruct (N.eqb_spec src dst) as [->|Hsd].
      * unfold apply_stock_batch_move, atomic, apply_stock_batch_move_body.
        cbn. rewrite N.eqb_refl. cbn. eauto.
      * rewrite (apply_batch_transfer_short _ _ _ _ totals _ pid') by done.
        unfold insufficient_for. eauto.
    + unfold apply_stock_batch_move, atomic, apply_stock_batch_move_body.
      cbn. eauto.
Qed.

Lemma feasible_and_infeasible_line :
  ∃ msg,
    apply_stock_batch_move OUTBOUND (Some 1%N) None 0
      [(1%N, 500); (2%N, 100000)] (two_products 1000 1000)
    = (two_products 1000 1000, Raise (StockError msg)).
Proof.
  apply (batch_is_all_or_nothing OUTBOUND (Some 1%N) None 0
           [(1%N, 500); (2%N, 100000)] [(1%N, 500); (2%N, 100000)]
           1%N 2%N 100000 (two_products 1000 1000)).
  - left. reflexivity.
  - reflexivity.
  - vm_compute. reflexivity.
  - apply elem_of_cons; right. apply elem_of_cons; left. reflexivity.
  - vm_compute. reflexivity.
Defined.

(** ** C5: consolidation of a batch *)

Lemma with_lines_spec b totals db :
  ∃ new, lines (with_lines b totals db) = lines db ++ new
    ∧ line_entry <$> new = totals
    ∧ Forall (λ ln, line_batch_id ln = batch_id b) new
    ∧ batches (with_lines b totals db) = batches db
    ∧ levels (with_lines b totals db) = levels db
    ∧ moves (with_lines b totals db) = moves db.
Proof.
  revert db. induction totals as [|[pid q] rest IH]; intros db.
  { exists []. by rewrite app_nil_r. }
  destruct (IH (with_line b pid q db)) as (new & Hl & He & Hb & Hbs & Hlv & Hm).
  eexists (_ :: new). change (with_lines b ((pid, q) :: rest) db)
    with (with_lines b rest (with_line b pid q db)).
  rewrite Hl, Hbs, Hlv, Hm. unfold with_line; cbn. rewrite <-app_assoc. cbn.
  repeat split; try done.
  - unfold line_entry at 1; cbn. by rewrite He.
  - by constructor.
Qed.

Lemma batch_lines_of_new_batch db dbm type from to ts totals :
  fk_lines db → lines dbm = lines db →
  line_entry <$> batch_lines (new_batch db type from to ts)
       (with_lines (new_batch db type from to ts) totals
          (with_batch (new_batch db type from to ts) dbm))
  = totals.
Proof.
  intros Hfk Hlines. set (b := new_batch db type from to ts).
  destruct (with_lines_spec b totals (with_batch b dbm)) as (new & Hl & He & Hb & _).
  unfold batch_lines. rewrite Hl. change (lines (with_batch b dbm)) with (lines dbm).
  rewrite Hlines, filter_app, filter_Forall_nil, (filter_Forall_id _ new); [done|done|].
  apply Forall_forall. intros ln Hln E. specialize (Hfk ln Hln).
  apply next_id_fresh in Hfk. rewrite E in Hfk.
  unfold b, new_batch in Hfk; cbn in Hfk. lia.
Qed.

(** C5. The lines of a batch request are summed per product before any
    storage is touched: the totals hold each distinct product once, with the
    sum of that product's quantities; the batch is served exactly as the
    batch whose lines are those totals, one line per product; and the batch
    recorded on success holds exactly those lines. *)
Theorem batch_consolidation type from to ts lines totals db :
  _group_lines_by_product lines = Ok totals →
  NoDup totals.*1
  ∧ (∀ p, p ∈ totals.*1 ↔ p ∈ lines.*1)
  ∧ (∀ p q, (p, q) ∈ totals → q = qty_of lines p)
  ∧ apply_stock_batch_move type from to ts lines db
    = apply_stock_batch_move type from to ts totals db
  ∧ (∀ db' b,
       fk_lines db →
       apply_stock_batch_move type from to ts lines db = (db', Ok b) →
       line_entry <$> batch_lines b db' = totals).
Proof.
  intros Hg.
  destruct (group_lines_spec _ _ Hg) as (Hnd & Hel & Hqty & Hpos & Hnn & Hidem).
  split; [done|]. split; [done|]. split; [|split].
  - intros p q Hin. rewrite <-Hqty. symmetry. by apply qty_of_NoDup.
  - unfold apply_stock_batch_move, apply_stock_batch_move_body.
    destruct lines as [|x l].
    + cbv in Hg. by simplify_eq.
    + destruct totals as [|y t]; [by destruct Hnn|].
      by rewrite Hg, Hidem.
  - intros db' b Hfk H.
    destruct (apply_batch_ok_inv _ _ _ _ _ _ _ _ H)
      as (totals' & Hg' & _ & -> & dbm & -> & Hcases).
    rewrite Hg in Hg'. simplify_eq.
    apply batch_lines_of_new_batch; [done|].
    destruct Hcases as [(_ & l & _ & ->) | [(_ & l & _ & _ & ->)
                                           | (_ & s & t & _ & _ & _ & _ & ->)]].
    + by rewrite lines_credit_all, lines_touch_all.
    + by rewrite lines_debit_all, lines_touch_all.
    + by rewrite lines_transfer_all, !lines_touch_all.
Qed.

Lemma fk_lines_empty : fk_lines empty_db.
Proof. intros ln Hln. by apply elem_of_nil in Hln. Qed.

Lemma three_and_four_make_seven :
  ∃ db' b,
    apply_stock_batch_move INBOUND None (Some 1%N) 0 [(1%N, 300); (1%N, 400)] empty_db
    = (db', Ok b)
    ∧ apply_stock_batch_move INBOUND None (Some 1%N) 0 [(1%N, 700)] empty_db
      = (db', Ok b)
    ∧ line_entry <$> batch_lines b db' = [(1%N, 700)]
    ∧ on_hand_of db' 1%N 1%N = 700.
Proof.
  destruct (batch_consolidation INBOUND None (Some 1%N) 0
              [(1%N, 300); (1%N, 400)] [(1%N, 700)] empty_db eq_refl)
    as (_ & _ & _ & Hsame & Hlines).
  eexists _, _. split; [vm_compute; reflexivity|].
  split; [rewrite <-Hsame; vm_compute; reflexivity|].
  split; [|vm_compute; reflexivity].
  apply Hlines; [apply fk_lines_empty|vm_compute; reflexivity].
Defined.

(** ** C6: conservation of quantity per product *)

Lemma total_step_comm pid j1 j2 z1 z2 y :
  total_step pid j1 z1 (total_step pid j2 z2 y)
  = total_step pid j2 z2 (total_step pid j1 z1 y).
Proof. unfold total_step. destruct (N.eqb j1.1 pid), (N.eqb j2.1 pid); lia. Qed.

Lemma on_hand_total_add_at p l delta db pid :
  on_hand_total (add_at p l delta db) pid
  = on_hand_total db pid + (if N.eqb p pid then delta else 0).
Proof.
  unfold on_hand_total, add_at, set_levels, on_hand_of; cbn.
  destruct (levels db !! (p, l)) as [v|] eqn:E; cbn.
  - rewrite <-insert_delete_eq.
    rewrite (map_fold_delete_L _ _ (p, l) v (levels db));
      [| intros; apply total_step_comm | done ].
    rewrite map_fold_insert_L;
      [| intros; apply total_step_comm | apply lookup_delete_eq ].
    unfold total_step; cbn. destruct (N.eqb p pid); lia.
  - rewrite map_fold_insert_L; [| intros; apply total_step_comm | done ].
    unfold total_step; cbn. destruct (N.eqb p pid); lia.
Qed.

Lemma on_hand_total_levels db1 db2 pid :
  levels db1 = levels db2 → on_hand_total db1 pid = on_hand_total db2 pid.
Proof. unfold on_hand_total. by intros ->. Qed.

Lemma on_hand_total_empty pid : on_hand_total empty_db pid = 0.
Proof. unfold on_hand_total, empty_db; cbn. apply map_fold_empty. Qed.

Lemma on_hand_total_touch_all totals l db pid :
  on_hand_total (touch_all totals l db) pid = on_hand_total db pid.
Proof.
  revert db. induction totals as [|[p q] rest IH]; intros db; [done|].
  change (touch_all ((p, q) :: rest) l db) with (touch_all rest l (add_at p l 0 db)).
  rewrite IH, on_hand_total_add_at. destruct (N.eqb p pid); lia.
Qed.

Lemma on_hand_total_credit_all totals l db pid :
  on_hand_total (credit_all totals l db) pid = on_hand_total db pid + qty_of totals pid.
Proof.
  revert db. induction totals as [|[p q] rest IH]; intros db; cbn [qty_of].
  { change (credit_all [] l db) with db. lia. }
  change (credit_all ((p, q) :: rest) l db) with (credit_all rest l (add_at p l q db)).
  rewrite IH, on_hand_total_add_at. lia.
Qed.

Lemma on_hand_total_debit_all totals l db pid :
  on_hand_total (debit_all totals l db) pid = on_hand_total db pid - qty_of totals pid.
Proof.
  revert db. induction totals as [|[p q] rest IH]; intros db; cbn [qty_of].
  { change (debit_all [] l db) with db. lia. }
  change (debit_all ((p, q) :: rest) l db) with (debit_all rest l (add_at p l (- q) db)).
  rewrite IH, on_hand_total_add_at. destruct (N.eqb p pid); lia.
Qed.

Lemma on_hand_total_transfer_all totals src dst db pid :
  on_hand_total (transfer_all totals src dst db) pid = on_hand_total db pid.
Proof.
  revert db. induction totals as [|[p q] rest IH]; intros db; [done|].
  change (transfer_all ((p, q) :: rest) src dst db)
    with (transfer_all rest src dst (add_at p dst q (add_at p src (- q) db))).
  rewrite IH, !on_hand_total_add_at. destruct (N.eqb p pid); lia.
Qed.

(** The effect of one successful request on the total of a product. *)
Lemma run_operation_total o db db' pid :
  run_operation o db = Some db' →
  on_hand_total db' pid
  = on_hand_total db pid + requested INBOUND pid o - requested OUTBOUND pid o.
Proof.
  destruct o as [type p q from to ts | type from to ts lns]; cbn [run_operation requested].
  - destruct (apply_stock_move type p q from to ts db) as [db1 [mv|e]] eqn:H; [|done].
    intros ?; simplify_eq.
    destruct (apply_stock_move_ok_inv _ _ _ _ _ _ _ _ _ H)
      as (q' & -> & Hq & [(-> & l & ->) | [(-> & l & -> & Hle)
                                          | (-> & src & dst & -> & -> & Hne & Hle)]]).
    + rewrite apply_inbound_eq in H by done. simplify_eq.
      rewrite (on_hand_total_levels _ (add_at p l q' db)) by done.
      rewrite on_hand_total_add_at. cbn. destruct (N.eqb p pid); cbn; lia.
    + rewrite apply_outbound_eq in H by done. simplify_eq.
      rewrite (on_hand_total_levels _ (add_at p l (- q') db)) by done.
      rewrite on_hand_total_add_at. cbn. destruct (N.eqb p pid); cbn; lia.
    + rewrite apply_transfer_eq in H by done. simplify_eq.
      rewrite (on_hand_total_levels _ (add_at p dst q' (add_at p src (- q') db))) by done.
      rewrite !on_hand_total_add_at. cbn. destruct (N.eqb p pid); cbn; lia.
  - destruct (apply_stock_batch_move type from to ts lns db) as [db1 [b|e]] eqn:H; [|done].
    intros ?; simplify_eq.
    destruct (apply_batch_ok_inv _ _ _ _ _ _ _ _ H)
      as (totals & Hg & _ & -> & dbm & -> & Hcases).
    destruct (group_lines_spec _ _ Hg) as (_ & _ & Hqty & _).
    destruct (with_lines_spec (new_batch db type from to ts) totals
                (with_batch (new_batch db type from to ts) dbm))
      as (_ & _ & _ & _ & _ & Hlv & _).
    rewrite (on_hand_total_levels _ dbm) by done.
    destruct Hcases as [(-> & l & _ & ->) | [(-> & l & _ & _ & ->)
                                           | (-> & s & t & _ & _ & _ & _ & ->)]].
    + rewrite on_hand_total_credit_all, on_hand_total_touch_all, Hqty. cbn. lia.
    + rewrite on_hand_total_debit_all, on_hand_total_touch_all, Hqty. cbn. lia.
    + rewrite on_hand_total_transfer_all, !on_hand_total_touch_all. cbn. lia.
Qed.

Lemma run_operations_total ops db db' pid :
  run_operations ops db = Some db' →
  on_hand_total db' pid
  = on_hand_total db pid + total_requested INBOUND pid ops
    - total_requested OUTBOUND pid ops.
Proof.
  revert db. induction ops as [|o rest IH]; intros db H; cbn in H.
  { simplify_eq. cbn. lia. }
  destruct (run_operation o db) as [db1|] eqn:Ho; [|done].
  rewrite (IH _ H), (run_operation_total _ _ _ _ Ho).
  change (total_requested ?k pid (o :: rest))
    with (requested k pid o + total_requested k pid rest).
  lia.
Qed.

(** C6. After any sequence of successfully applied INBOUND, OUTBOUND and
    TRANSFER requests, single or batch, on an empty ledger, the quantity of a
    product summed over all locations is the total INBOUND quantity minus the
    total OUTBOUND quantity requested for it; TRANSFER requests do not enter
    the count. *)
Theorem product_total_is_inbound_minus_outbound ops db pid :
  run_operations ops empty_db = Some db →
  on_hand_total db pid
  = total_requested INBOUND pid ops - total_requested OUTBOUND pid ops.
Proof.
  intros H. rewrite (run_operations_total _ _ _ pid H), on_hand_total_empty. lia.
Qed.

Lemma receive_move_ship :
  ∃ db,
    run_operations
      [ OpBatch INBOUND None (Some 1%N) 0 [(1%N, 600); (2%N, 100); (1%N, 400)];
        OpMove TRANSFER 1%N (Some 300) (Some 1%N) (Some 2%N) 1;
        OpMove OUTBOUND 1%N (Some 200) (Some 2%N) None 2;
        OpBatch OUTBOUND (Some 1%N) None 3 [(1%N, 500)] ] empty_db = Some db
    ∧ on_hand_total db 1%N = 1000 - 700.
Proof.
  eexists. split.
  - vm_compute. reflexivity.
  - apply (product_total_is_inbound_minus_outbound
             [ OpBatch INBOUND None (Some 1%N) 0 [(1%N, 600); (2%N, 100); (1%N, 400)];
               OpMove TRANSFER 1%N (Some 300) (Some 1%N) (Some 2%N) 1;
               OpMove OUTBOUND 1%N (Some 200) (Some 2%N) None 2;
               OpBatch OUTBOUND (Some 1%N) None 3 [(1%N, 500)] ] _ 1%N).
    vm_compute. reflexivity.
Defined.

(** ** C9: the reorder advisor *)

Lemma quantize2_nearest n d :
  0 < d →
  2 * Z.abs (quantize2 n d * d - n) ≤ d
  ∧ (2 * Z.abs (quantize2 n d * d - n) = d → Z.even (quantize2 n d) = true).
Proof.
  intros Hd. unfold quantize2.
  pose proof (Z.div_mod n d ltac:(lia)) as Hdm.
  pose proof (Z.mod_pos_bound n d Hd) as Hr.
  set (q := n / d) in *. set (r := n mod d) in *.
  destruct (Z.ltb_spec (2 * r) d) as [H1|H1].
  { split; [nia|]. intros E. nia. }
  destruct (Z.ltb_spec d (2 * r)) as [H2|H2].
  { split; [nia|]. intros E. nia. }
  assert (2 * r = d) as Htie by lia.
  destruct (Z.even q) eqn:Hev.
  - split; [nia|done].
  - split; [nia|]. intros _. rewrite Z.even_add, Hev. done.
Qed.

Lemma quantize2_one n : quantize2 n 1 = n.
Proof.
  unfold quantize2. rewrite Z.div_1_r, Z.mod_1_r. done.
Qed.

Lemma effective_days_positive days : 1 ≤ effective_days days.
Proof. unfold effective_days. destruct (Z.leb_spec days 0); lia. Qed.

Lemma elem_of_insert_desc x y l : x ∈ insert_desc y l ↔ x = y ∨ x ∈ l.
Proof.
  induction l as [|z l IH]; cbn.
  { rewrite list_elem_of_singleton, elem_of_nil. tauto. }
  destruct (sg_suggested_qty y <? sg_suggested_qty z).
  - rewrite !elem_of_cons, IH. tauto.
  - rewrite !elem_of_cons. tauto.
Qed.

Lemma elem_of_sort_desc x l : x ∈ sort_desc l ↔ x ∈ l.
Proof.
  induction l as [|y l IH]; cbn; [done|].
  rewrite elem_of_insert_desc, elem_of_cons, IH. done.
Qed.

Lemma qty_of_app l1 l2 p : qty_of (l1 ++ l2) p = qty_of l1 p + qty_of l2 p.
Proof.
  induction l1 as [|[k v] rest IH]; cbn; [done|]. rewrite IH. lia.
Qed.

Lemma foldl_dict_add_spec rows acc :
  (NoDup acc.*1 → NoDup (foldl (λ acc row, dict_add row.1 row.2 acc) acc rows).*1)
  ∧ ∀ p, qty_of (foldl (λ acc row, dict_add row.1 row.2 acc) acc rows) p
         = qty_of acc p + qty_of rows p.
Proof.
  revert acc. induction rows as [|[k v] rest IH]; intros acc; cbn.
  { split; [done|]. intros; lia. }
  destruct (IH (dict_add k v acc)) as [Hnd Hq]. split.
  - intros H. by apply Hnd, dict_add_NoDup.
  - intros p. rewrite Hq, qty_of_dict_add. lia.
Qed.

Lemma advisor_totals_spec start db :
  NoDup (advisor_totals start db).*1
  ∧ ∀ pid total_out,
      (pid, total_out) ∈ advisor_totals start db →
      total_out = qty_of (outbound_move_rows start db) pid
                  + qty_of (outbound_line_rows start db) pid.
Proof.
  unfold advisor_totals, outbound_single, outbound_batched, sum_by_product.
  set (f := λ (acc : list (N * Z)) (row : N * Z), dict_add row.1 row.2 acc).
  destruct (foldl_dict_add_spec
              (foldl f [] (outbound_move_rows start db)
               ++ foldl f [] (outbound_line_rows start db)) []) as [Hnd Hq].
  fold f in Hnd, Hq. split; [apply Hnd; constructor|].
  intros pid total Hin.
  rewrite <-(qty_of_NoDup _ pid total (Hnd ltac:(constructor)) Hin).
  rewrite Hq, qty_of_app.
  destruct (foldl_dict_add_spec (outbound_move_rows start db) []) as [_ ->].
  destruct (foldl_dict_add_spec (outbound_line_rows start db) []) as [_ ->].
  cbn. lia.
Qed.

Lemma suggestion_row_Some days coverage_days min_qty pid total_out on_hand row :
  suggestion_row days coverage_days min_qty pid total_out on_hand = Some row ↔
  0 < target_of (avg_daily_of days total_out) coverage_days - on_hand
  ∧ min_qty ≤ target_of (avg_daily_of days total_out) coverage_days - on_hand
  ∧ row = {| sg_product := pid;
             sg_avg_daily_demand := avg_daily_of days total_out;
             sg_on_hand_total := on_hand;
             sg_suggested_qty :=
               target_of (avg_daily_of days total_out) coverage_days - on_hand;
             sg_window_days := days;
             sg_coverage_days := coverage_days |}.
Proof.
  unfold suggestion_row. rewrite !quantize2_one.
  destruct (Z.ltb_spec (target_of (avg_daily_of days total_out) coverage_days - on_hand)
              min_qty);
    [split; [done|lia]|].
  destruct (Z.leb_spec (target_of (avg_daily_of days total_out) coverage_days - on_hand)
              0);
    [split; [done|lia]|].
  split.
  - intros ?; simplify_eq. done.
  - intros (_ & _ & ->). done.
Qed.

(** C9, as stated, fails.  With one unit shipped inside an 8-day window the
    advisor reports an average of 0.12 and, at a coverage of 100 days,
    suggests 12.00, where rounding 0.125 the standard way gives 0.13 and
    13.00: the quotient is rounded half to even.  And with a window of zero
    days the advisor does not divide by the window: it divides by one. *)
Lemma advisor_rounding_is_not_standard :
  (∃ row,
     ReorderSuggestionView_get 8 100 0 (101 * day) one_unit_shipped = [row]
     ∧ sg_avg_daily_demand row = 12 ∧ sg_suggested_qty row = 1200
     ∧ spec_avg_daily 8 100 = 13
     ∧ sg_avg_daily_demand row ≠ spec_avg_daily 8 100)
  ∧ (∃ row,
       ReorderSuggestionView_get 0 100 0 (100 * day) one_unit_shipped = [row]
       ∧ sg_avg_daily_demand row = 100 ∧ sg_window_days row = 1).
Proof.
  split; eexists; (split; [vm_compute; reflexivity|]); vm_compute; repeat split;
    discriminate.
Qed.

(** C9 (amended). For each product with outbound activity in the window the
    advisor sums the outbound quantities of single movements and of batch
    lines; the average daily demand is that sum divided by the window [W]
    (by 1 when [W <= 0]) and rounded to the nearest hundredth, a tie going to
    the even hundredth; the target is the average times [C], rounded to two
    decimals (which leaves it unchanged); the suggestion is the target minus
    the total on hand; each step is rounded as it is taken.  A row is emitted
    exactly when the suggestion is positive and at least the minimum.  140
    units shipped over a 14-day window, coverage 7 and 10 units on hand give
    10.00, 70.00 and 60.00. *)
Theorem reorder_advice_rounds_half_even :
  (∀ W, (1 ≤ W → effective_days W = W) ∧ (W ≤ 0 → effective_days W = 1))
  ∧ (∀ W total_out,
       let avg := avg_daily_of (effective_days W) total_out in
       2 * Z.abs (avg * effective_days W - total_out) ≤ effective_days W
       ∧ (2 * Z.abs (avg * effective_days W - total_out) = effective_days W →
          Z.even avg = true))
  ∧ (∀ avg C, target_of avg C = avg * C)
  ∧ (∀ W C min_qty now db row,
       row ∈ ReorderSuggestionView_get W C min_qty now db ↔
       ∃ total_out,
         (sg_product row, total_out) ∈ advisor_totals (now - W * day) db
         ∧ let avg := avg_daily_of (effective_days W) total_out in
           let suggested := target_of avg C - on_hand_total db (sg_product row) in
           0 < suggested ∧ min_qty ≤ suggested
           ∧ row = {| sg_product := sg_product row;
                      sg_avg_daily_demand := avg;
                      sg_on_hand_total := on_hand_total db (sg_product row);
                      sg_suggested_qty := suggested;
                      sg_window_days := effective_days W;
                      sg_coverage_days := C |})
  ∧ (∀ start db pid total_out,
       (pid, total_out) ∈ advisor_totals start db →
       total_out = qty_of (outbound_move_rows start db) pid
                   + qty_of (outbound_line_rows start db) pid)
  ∧ ReorderSuggestionView_get 14 7 0 (101 * day) scenario_140
    = [ {| sg_product := 1%N; sg_avg_daily_demand := 1000; sg_on_hand_total := 1000;
           sg_suggested_qty := 6000; sg_window_days := 14; sg_coverage_days := 7 |} ].
Proof.
  split; [|split; [|split; [|split; [|split]]]].
  - intros W. unfold effective_days. destruct (Z.leb_spec W 0); lia.
  - intros W total_out. apply quantize2_nearest.
    pose proof (effective_days_positive W). lia.
  - intros avg C. apply quantize2_one.
  - intros W C min_qty now db row. unfold ReorderSuggestionView_get.
    rewrite elem_of_sort_desc, list_elem_of_omap. split.
    + intros ([pid total_out] & Hin & Hrow).
      apply suggestion_row_Some in Hrow as (Hpos & Hmin & ->). cbn.
      exists total_out. done.
    + intros (total_out & Hin & Hpos & Hmin & Hrow).
      exists (sg_product row, total_out). split; [done|].
      apply suggestion_row_Some. done.
  - intros start db pid total_out. apply advisor_totals_spec.
  - vm_compute. reflexivity.
Qed.

Lemma one_unit_over_eight_days :
  effective_days 8 = 8
  ∧ 2 * Z.abs (avg_daily_of (effective_days 8) 100 * effective_days 8 - 100)
    ≤ effective_days 8
  ∧ Z.even (avg_daily_of (effective_days 8) 100) = true
  ∧ target_of 12 100 = 12 * 100.
Proof.
  destruct reorder_advice_rounds_half_even as (Hdays & Hnear & Htarget & _).
  split; [apply (Hdays 8); lia|].
  split; [apply (Hnear 8 100)|].
  split; [apply (Hnear 8 100); vm_compute; reflexivity|].
  apply (Htarget 12 100).
Defined.

(** ** The Balance invariant under the other three operations

    Single application, single reversal and batch application keep every
    balance non-negative; the batch reversal, treated next, is the one
    operation that does not. *)

Lemma atomic_raise {A} (body : M A) db db' e :
  atomic body db = (db', Raise e) → db' = db.
Proof.
  unfold atomic. destruct (body db) as [[a d]|e']; intros H; by simplify_eq.
Qed.

Lemma apply_stock_move_nonneg type p q from to ts db :
  nonneg_balances db →
  nonneg_balances (apply_stock_move type p q from to ts db).1.
Proof.
  intros Hinv.
  destruct (apply_stock_move type p q from to ts db) as [db1 [mv|e]] eqn:H; cbn.
  2:{ by rewrite (atomic_raise _ _ _ _ H). }
  destruct (apply_stock_move_ok_inv _ _ _ _ _ _ _ _ _ H)
    as (q' & -> & Hq & [(-> & l & ->) | [(-> & l & -> & Hle)
                                        | (-> & src & dst & -> & -> & Hne & Hle)]]).
  - rewrite apply_inbound_eq in H by done. simplify_eq. intros p' l'.
    change (on_hand_of (with_move ?m ?d)) with (on_hand_of d).
    rewrite on_hand_of_add_at. specialize (Hinv p' l'). case_decide; lia.
  - rewrite apply_outbound_eq in H by done. simplify_eq. intros p' l'.
    change (on_hand_of (with_move ?m ?d)) with (on_hand_of d).
    rewrite on_hand_of_add_at. specialize (Hinv p' l').
    case_decide; simplify_eq; lia.
  - rewrite apply_transfer_eq in H by done. simplify_eq. intros p' l'.
    change (on_hand_of (with_move ?m ?d)) with (on_hand_of d).
    rewrite !on_hand_of_add_at. specialize (Hinv p' l').
    repeat case_decide; simplify_eq; lia.
Qed.

Ltac reverse_raises :=
  unfold reverse_stock_move, atomic, reverse_stock_move_body, bind;
  repeat match goal with
         | H : move_type _ = _ |- _ => rewrite H
         | H : move_from_location _ = _ |- _ => rewrite H
         | H : move_to_location _ = _ |- _ => rewrite H
         end;
  cbn; done.

Lemma reverse_stock_move_nonneg mv db :
  0 ≤ move_qty mv → nonneg_balances db →
  nonneg_balances (reverse_stock_move mv db).1.
Proof.
  intros Hq Hinv.
  destruct (String.eqb_spec (move_type mv) INBOUND) as [Ht|Hin].
  { destruct (move_to_location mv) as [l|] eqn:Hto.
    - destruct (Z.lt_ge_cases (on_hand_of db (move_product mv) l) (move_qty mv)).
      + by rewrite (reverse_inbound_short _ l).
      + rewrite (reverse_inbound_eq _ l) by done. intros p' l'. cbn.
        change (on_hand_of (without_move ?m ?d)) with (on_hand_of d).
        rewrite on_hand_of_add_at. specialize (Hinv p' l').
        case_decide; simplify_eq; lia.
    - assert (reverse_stock_move mv db
              = (db, Raise (StockError "Cannot reverse: missing destination.")))
        as -> by reverse_raises. done. }
  destruct (String.eqb_spec (move_type mv) OUTBOUND) as [Ht|Hout].
  { destruct (move_from_location mv) as [l|] eqn:Hfrom.
    - rewrite (reverse_outbound_eq _ l) by done. intros p' l'. cbn.
      change (on_hand_of (without_move ?m ?d)) with (on_hand_of d).
      rewrite on_hand_of_add_at. specialize (Hinv p' l'). case_decide; lia.
    - assert (reverse_stock_move mv db
              = (db, Raise (StockError "Cannot reverse: missing source.")))
        as -> by reverse_raises. done. }
  destruct (String.eqb_spec (move_type mv) TRANSFER) as [Ht|Htr].
  { destruct (move_from_location mv) as [src|] eqn:Hfrom,
             (move_to_location mv) as [dst|] eqn:Hto.
    - destruct (Z.lt_ge_cases (on_hand_of db (move_product mv) dst) (move_qty mv)).
      + by rewrite (reverse_transfer_short _ src dst).
      + rewrite (reverse_transfer_eq _ src dst) by done. intros p' l'. cbn.
        change (on_hand_of (without_move ?m ?d)) with (on_hand_of d).
        rewrite !on_hand_of_add_at. specialize (Hinv p' l').
        repeat case_decide; simplify_eq; lia.
    - assert (reverse_stock_move mv db
              = (db, Raise (StockError "Cannot reverse: missing locations.")))
        as -> by reverse_raises. done.
    - assert (reverse_stock_move mv db
              = (db, Raise (StockError "Cannot reverse: missing locations.")))
        as -> by reverse_raises. done.
    - assert (reverse_stock_move mv db
              = (db, Raise (StockError "Cannot reverse: missing locations.")))
        as -> by reverse_raises. done. }
  assert (reverse_stock_move mv db = (db, Raise (StockError "Unknown move type.")))
    as ->; [|done].
  unfold reverse_stock_move, atomic, reverse_stock_move_body, bind.
  by rewrite (proj2 (String.eqb_neq _ _)), (proj2 (String.eqb_neq _ _)),
    (proj2 (String.eqb_neq _ _)) by done.
Qed.

Lemma on_hand_of_credit_all totals l db p l' :
  on_hand_of (credit_all totals l db) p l'
  = on_hand_of db p l' + (if decide (l = l') then qty_of totals p else 0).
Proof.
  revert db. induction totals as [|[k v] rest IH]; intros db; cbn [qty_of].
  { change (credit_all [] l db) with db. case_decide; lia. }
  change (credit_all ((k, v) :: rest) l db) with (credit_all rest l (add_at k l v db)).
  rewrite IH, on_hand_of_add_at.
  destruct (N.eqb_spec k p); repeat case_decide; simplify_eq; lia.
Qed.

Lemma on_hand_of_debit_all totals l db p l' :
  on_hand_of (debit_all totals l db) p l'
  = on_hand_of db p l' - (if decide (l = l') then qty_of totals p else 0).
Proof.
  revert db. induction totals as [|[k v] rest IH]; intros db; cbn [qty_of].
  { change (debit_all [] l db) with db. case_decide; lia. }
  change (debit_all ((k, v) :: rest) l db) with (debit_all rest l (add_at k l (- v) db)).
  rewrite IH, on_hand_of_add_at.
  destruct (N.eqb_spec k p); repeat case_decide; simplify_eq; lia.
Qed.

Lemma on_hand_of_transfer_all totals src dst db p l' :
  on_hand_of (transfer_all totals src dst db) p l'
  = on_hand_of db p l' + (if decide (dst = l') then qty_of totals p else 0)
    - (if decide (src = l') then qty_of totals p else 0).
Proof.
  revert db. induction totals as [|[k v] rest IH]; intros db; cbn [qty_of].
  { change (transfer_all [] src dst db) with db. repeat case_decide; lia. }
  change (transfer_all ((k, v) :: rest) src dst db)
    with (transfer_all rest src dst (add_at k dst v (add_at k src (- v) db))).
  rewrite IH, !on_hand_of_add_at.
  destruct (N.eqb_spec k p); repeat case_decide; simplify_eq; lia.
Qed.

Lemma qty_of_nonneg totals p :
  Forall (λ x, 0 < x.2) totals → 0 ≤ qty_of totals p.
Proof.
  induction 1 as [|[k v] rest Hv _ IH]; cbn in *; [done|].
  destruct (N.eqb k p); lia.
Qed.

Lemma qty_of_notin totals p : p ∉ totals.*1 → qty_of totals p = 0.
Proof.
  induction totals as [|[k v] rest IH]; cbn; intros Hnin; [done|].
  apply not_elem_of_cons in Hnin as [Hne Hnin].
  rewrite (proj2 (N.eqb_neq k p)) by done. rewrite IH by done. done.
Qed.

Lemma first_short_None bal totals p q :
  first_short bal totals = None → (p, q) ∈ totals → q ≤ bal p.
Proof.
  induction totals as [|[k v] rest IH]; cbn; intros Hfs Hin.
  { by apply elem_of_nil in Hin. }
  destruct (Z.ltb_spec (bal k) v); [done|].
  apply elem_of_cons in Hin as [E|Hin]; [by simplify_eq|eauto].
Qed.

Lemma feasible_total bal totals p :
  NoDup totals.*1 → first_short bal totals = None → 0 ≤ bal p →
  qty_of totals p ≤ bal p.
Proof.
  intros Hnd Hfs Hb. destruct (decide (p ∈ totals.*1)) as [Hin|Hnin].
  - apply list_elem_of_fmap in Hin as ([k v] & -> & Hin). cbn.
    rewrite (qty_of_NoDup _ _ _ Hnd Hin). by eapply first_short_None.
  - by rewrite qty_of_notin.
Qed.

Lemma apply_stock_batch_move_nonneg type from to ts lns db :
  nonneg_balances db →
  nonneg_balances (apply_stock_batch_move type from to ts lns db).1.
Proof.
  intros Hinv.
  destruct (apply_stock_batch_move type from to ts lns db) as [db1 [b|e]] eqn:H; cbn.
  2:{ by rewrite (atomic_raise _ _ _ _ H). }
  destruct (apply_batch_ok_inv _ _ _ _ _ _ _ _ H)
    as (totals & Hg & _ & -> & dbm & -> & Hcases).
  destruct (group_lines_spec _ _ Hg) as (Hnd & _ & _ & Hpos & _).
  destruct (with_lines_spec (new_batch db type from to ts) totals
              (with_batch (new_batch db type from to ts) dbm))
    as (_ & _ & _ & _ & _ & Hlv & _).
  intros p l'. unfold on_hand_of. rewrite Hlv.
  change (default 0 (levels (with_batch ?b ?d) !! (p, l'))) with (on_hand_of d p l').
  pose proof (qty_of_nonneg totals p Hpos) as Hq.
  destruct Hcases as [(-> & l & _ & ->) | [(-> & l & _ & Hfs & ->)
                                         | (-> & s & t & _ & _ & _ & Hfs & ->)]].
  - rewrite on_hand_of_credit_all, on_hand_of_touch_all.
    specialize (Hinv p l'). case_decide; lia.
  - rewrite on_hand_of_debit_all, on_hand_of_touch_all.
    pose proof (feasible_total _ _ p Hnd Hfs (Hinv p l)).
    specialize (Hinv p l'). case_decide; simplify_eq; lia.
  - rewrite on_hand_of_transfer_all, !on_hand_of_touch_all.
    pose proof (feasible_total _ _ p Hnd Hfs (Hinv p s)).
    specialize (Hinv p l'). repeat case_decide; simplify_eq; lia.
Qed.

(** ** The batch reversal in closed form (INBOUND) *)

Lemma touch_twice p l db : add_at p l 0 (add_at p l 0 db) = add_at p l 0 db.
Proof. by rewrite add_at_add_at. Qed.

Lemma reversal_lock_levels_eq ln0 lns totals l d db :
  reversal_lock_levels (ln0 :: lns) totals (Some l) d db
  = Ok (locked_first (line_product_id ln0) l (on_hand_of db (line_product_id ln0) l)
          totals d,
        touch_all (same_product (line_product_id ln0) totals) l db).
Proof.
  revert d db. induction totals as [|[pid q] rest IH]; intros d db; [done|].
  cbn [reversal_lock_levels reversal_lock_product].
  rewrite bind_eq. cbn [ret]. rewrite bind_eq, get_level_eq, IH.
  by rewrite on_hand_of_touch.
Qed.

Lemma locked_first_lookup_notin p0 l v totals d pid :
  pid ∉ totals.*1 → locked_first p0 l v totals d !! pid = d !! pid.
Proof.
  revert d. induction totals as [|[k q] rest IH]; intros d Hnin; cbn; [done|].
  cbn in Hnin. apply not_elem_of_cons in Hnin as [Hne Hnin].
  rewrite IH by done. by rewrite lookup_insert_ne.
Qed.

Lemma locked_first_lookup p0 l v totals d pid :
  pid ∈ totals.*1 → locked_first p0 l v totals d !! pid = Some (mk_level p0 l v).
Proof.
  revert d. induction totals as [|[k q] rest IH]; intros d Hin; cbn in *.
  { by apply elem_of_nil in Hin. }
  destruct (decide (pid ∈ rest.*1)) as [Hr|Hr]; [by apply IH|].
  apply elem_of_cons in Hin as [->|Hin]; [|done].
  rewrite locked_first_lookup_notin by done. by rewrite lookup_insert_eq.
Qed.

Lemma first_levels_locked p0 l v totals d :
  first_levels p0 l totals (locked_first p0 l v totals d).
Proof. intros pid Hin. exists v. by apply locked_first_lookup. Qed.

Lemma first_levels_tail p0 l x rest d :
  first_levels p0 l (x :: rest) d → first_levels p0 l rest d.
Proof. intros H pid Hin. apply H. cbn. by apply elem_of_cons; right. Qed.

Lemma first_levels_head p0 l pid q rest d :
  first_levels p0 l ((pid, q) :: rest) d → ∃ v, d !! pid = Some (mk_level p0 l v).
Proof. intros H. apply H. cbn. by apply elem_of_cons; left. Qed.

Lemma reversal_check_eq p0 l totals d db e :
  first_levels p0 l totals d → is_Some (levels db !! (p0, l)) →
  for_each totals (λ '(pid, q),
    do lvl <- dict_get d pid;
    do lvl <- refresh_from_db lvl;
    if lvl_on_hand lvl <? q then raise e else ret tt) db
  = match first_short (λ _, on_hand_of db p0 l) totals with
    | Some _ => Raise e
    | None => Ok (tt, db)
    end.
Proof.
  intros Hd Hrow. induction totals as [|[pid q] rest IH]; [done|].
  change (for_each ((pid, q) :: rest) ?f db) with (bind (f (pid, q)) (λ _, for_each rest f) db).
  destruct (first_levels_head _ _ _ _ _ _ Hd) as [v Hv].
  rewrite bind_eq. cbn beta iota. rewrite bind_eq, (dict_get_eq _ _ _ _ Hv).
  rewrite bind_eq, refresh_row by done. cbn.
  destruct (on_hand_of db p0 l <? q); [done|]. cbn.
  apply IH. by eapply first_levels_tail.
Qed.

Lemma reversal_debit_eq p0 l totals d db :
  first_levels p0 l totals d → is_Some (levels db !! (p0, l)) →
  for_each totals (λ '(pid, q),
    do lvl <- dict_get d pid;
    save_on_hand lvl (- q)) db
  = Ok (tt, debit_all (same_product p0 totals) l db).
Proof.
  revert db. induction totals as [|[pid q] rest IH]; intros db Hd Hrow; [done|].
  change (for_each ((pid, q) :: rest) ?f db) with (bind (f (pid, q)) (λ _, for_each rest f) db).
  destruct (first_levels_head _ _ _ _ _ _ Hd) as [v Hv].
  rewrite bind_eq. cbn beta iota. rewrite bind_eq, (dict_get_eq _ _ _ _ Hv).
  rewrite save_eq by done. cbn.
  change (debit_all (same_product p0 ((pid, q) :: rest)) l db)
    with (debit_all (same_product p0 rest) l (add_at p0 l (- q) db)).
  apply IH; [by eapply first_levels_tail|by apply has_row_add_at].
Qed.

Lemma has_row_first_touch p0 l totals db :
  totals ≠ [] →
  is_Some (levels (touch_all (same_product p0 totals) l db) !! (p0, l)).
Proof.
  intros Hne. apply has_row_touch_all_in.
  destruct totals as [|[k v] rest]; [done|]. cbn. by apply elem_of_cons; left.
Qed.

Lemma first_short_const_ext (a b : Z) (totals : list (Product * Z)) :
  a = b → first_short (λ _, a) totals = first_short (λ _, b) totals.
Proof. by intros ->. Qed.

Lemma line_totals_not_nil lns acc : lns ≠ [] → line_totals lns acc ≠ [].
Proof.
  revert acc. induction lns as [|ln rest IH]; intros acc Hne; [done|]. cbn.
  destruct rest as [|ln' rest']; [apply dict_add_not_nil|by apply IH].
Qed.

(** The reversal of an INBOUND batch with lines: whether it is refused, and
    the state it leaves, depend on the first line's product alone. *)
Lemma reverse_inbound_batch_eq b l ln0 lns db :
  batch_type b = INBOUND → batch_to_location b = Some l →
  batch_lines b db = ln0 :: lns →
  reverse_stock_batch_move b db
  = match first_short (λ _, on_hand_of db (line_product_id ln0) l)
            (line_totals (ln0 :: lns) []) with
    | Some _ =>
        (db, Raise (StockError "Cannot reverse: would go negative at destination."))
    | None =>
        (without_batch b
           (debit_all (same_product (line_product_id ln0) (line_totals (ln0 :: lns) []))
              l
              (touch_all (same_product (line_product_id ln0)
                            (line_totals (ln0 :: lns) [])) l db)),
         Ok tt)
    end.
Proof.
  intros Ht Hto Hl.
  unfold reverse_stock_batch_move, atomic, reverse_stock_batch_move_body.
  rewrite bind_eq, Hl, Ht, Hto. cbn beta iota zeta.
  change (String.eqb INBOUND INBOUND) with true. cbn beta iota.
  set (totals := line_totals (ln0 :: lns) []).
  assert (totals ≠ []) as Hne by (by apply line_totals_not_nil).
  rewrite bind_eq, bind_eq, reversal_lock_levels_eq. rewrite bind_eq.
  erewrite (reversal_check_eq (line_product_id ln0) l);
    [| apply first_levels_locked | by apply has_row_first_touch ].
  rewrite (first_short_const_ext _ (on_hand_of db (line_product_id ln0) l))
    by apply on_hand_of_touch_all.
  destruct (first_short _ totals); [done|].
  erewrite (reversal_debit_eq (line_product_id ln0) l);
    [| apply first_levels_locked | by apply has_row_first_touch ].
  done.
Qed.

Lemma sum_qty_dict_add pid q acc : sum_qty (dict_add pid q acc) = sum_qty acc + q.
Proof.
  unfold sum_qty. induction acc as [|[k v] rest IH]; cbn; [lia|].
  destruct (N.eqb k pid); cbn; [|rewrite IH]; lia.
Qed.

Lemma sum_qty_line_totals lns acc :
  sum_qty (line_totals lns acc) = sum_qty acc + sum_qty (line_entry <$> lns).
Proof.
  revert acc. induction lns as [|ln rest IH]; intros acc.
  { change (line_totals [] acc) with acc. change (sum_qty (line_entry <$> [])) with 0.
    lia. }
  change (line_totals (ln :: rest) acc)
    with (line_totals rest (dict_add (line_product_id ln) (line_qty ln) acc)).
  change (sum_qty (line_entry <$> ln :: rest))
    with (line_qty ln + sum_qty (line_entry <$> rest)).
  rewrite IH, sum_qty_dict_add. lia.
Qed.

Lemma qty_of_same_product p0 totals p :
  qty_of (same_product p0 totals) p = if N.eqb p0 p then sum_qty totals else 0.
Proof.
  induction totals as [|[k v] rest IH].
  { cbn. by destruct (N.eqb p0 p). }
  change (qty_of (same_product p0 ((k, v) :: rest)) p)
    with ((if N.eqb p0 p then v else 0) + qty_of (same_product p0 rest) p).
  change (sum_qty ((k, v) :: rest)) with (v + sum_qty rest).
  rewrite IH. destruct (N.eqb p0 p); lia.
Qed.

(** A reversed INBOUND batch changes one balance only: the one of its first
    line's product at the destination, by the quantities of all its lines. *)
Lemma inbound_batch_reversal_effect b l ln0 lns db db' :
  batch_type b = INBOUND → batch_to_location b = Some l →
  batch_lines b db = ln0 :: lns →
  reverse_stock_batch_move b db = (db', Ok tt) →
  ∀ p l',
    on_hand_of db' p l'
    = on_hand_of db p l'
      - (if decide ((p, l') = (line_product_id ln0, l))
         then sum_qty (line_entry <$> ln0 :: lns) else 0).
Proof.
  intros Ht Hto Hl H p l'.
  rewrite (reverse_inbound_batch_eq _ l ln0 lns) in H by done.
  destruct (first_short _ _); [discriminate H|]. simplify_eq.
  change (on_hand_of (without_batch ?b ?d)) with (on_hand_of d).
  rewrite on_hand_of_debit_all, on_hand_of_touch_all, qty_of_same_product.
  rewrite sum_qty_line_totals. unfold sum_qty at 1. cbn [foldr].
  destruct (N.eqb_spec (line_product_id ln0) p); repeat case_decide; simplify_eq;
    try lia; congruence.
Qed.

(** ** C1 and C2: reversing a batch of several products *)

(** C1. The reversal of a batch does not apply each product's inverse delta
    to that product's own balance: every lock it takes is on the first
    line's product.  An INBOUND batch of 4.00 of product 1 and 3.00 of
    product 2, reversed right after it was applied, leaves product 1 at
    -3.00 and product 2 at 3.00 instead of restoring both to zero, and
    deletes the batch; with the quantities exchanged the reversal is refused
    although each balance covers its own line. *)
Theorem batch_reversal_hits_first_product :
  (received 400 300).2 = Ok (sample_batch INBOUND None (Some 1%N))
  ∧ on_hand_of (received 400 300).1 1%N 1%N = 400
  ∧ on_hand_of (received 400 300).1 2%N 1%N = 300
  ∧ (∃ db2,
       reverse_stock_batch_move (sample_batch INBOUND None (Some 1%N)) (received 400 300).1
       = (db2, Ok tt)
       ∧ on_hand_of db2 1%N 1%N = -300
       ∧ on_hand_of db2 2%N 1%N = 300
       ∧ batches db2 = [] ∧ lines db2 = [])
  ∧ (received 300 400).2 = Ok (sample_batch INBOUND None (Some 1%N))
  ∧ reverse_stock_batch_move (sample_batch INBOUND None (Some 1%N)) (received 300 400).1
    = ((received 300 400).1,
       Raise (StockError "Cannot reverse: would go negative at destination.")).
Proof.
  split; [vm_compute; reflexivity|].
  split; [vm_compute; reflexivity|].
  split; [vm_compute; reflexivity|].
  split; [|split; vm_compute; reflexivity].
  eexists. split; [vm_compute; reflexivity|].
  repeat split; vm_compute; reflexivity.
Qed.

(** C2. A balance does go negative: from a state with 4.00 of product 1 and
    3.00 of product 2 at location 1, and nothing negative, a TRANSFER batch
    of both to location 2 followed by its reversal ends with product 1 at
    -3.00 at location 2.  The reversal checks the first product's destination
    balance against each total in turn and then subtracts every total from
    that one balance. *)
Theorem negative_balance_is_reachable :
  nonneg_balances (two_products 400 300)
  ∧ (transferred 400 300).2 = Ok (sample_batch TRANSFER (Some 1%N) (Some 2%N))
  ∧ nonneg_balances (transferred 400 300).1
  ∧ ∃ db2,
      reverse_stock_batch_move (sample_batch TRANSFER (Some 1%N) (Some 2%N))
                               (transferred 400 300).1
      = (db2, Ok tt)
      ∧ on_hand_of db2 1%N 2%N = -300
      ∧ on_hand_of db2 1%N 1%N = 700
      ∧ on_hand_of db2 2%N 2%N = 300
      ∧ ¬ nonneg_balances db2.
Proof.
  assert (Hnn : ∀ (m : gmap (N * N) Z) db,
             levels db = m → map_Forall (λ _ v, 0 ≤ v) m → nonneg_balances db).
  { intros m db <- Hall p l. unfold on_hand_of.
    destruct (levels db !! (p, l)) as [v|] eqn:E; cbn; [|done].
    by apply (Hall _ _ E). }
  split.
  { eapply Hnn; [reflexivity|]. unfold two_products; cbn.
    apply map_Forall_insert_2; [done|]. apply map_Forall_singleton. done. }
  split; [vm_compute; reflexivity|].
  split.
  { eapply Hnn; [reflexivity|].
    apply (bool_decide_unpack _). vm_compute. reflexivity. }
  eexists. split; [vm_compute; reflexivity|].
  split; [vm_compute; reflexivity|].
  split; [vm_compute; reflexivity|].
  split; [vm_compute; reflexivity|].
  intros H. specialize (H 1%N 2%N). vm_compute in H. by apply H.
Qed.

(** * Further properties of the services *)

(** ** Refusals *)

Lemma group_lines_loop_nonpositive lines acc pid q :
  (pid, q) ∈ lines → q ≤ 0 →
  group_lines_loop lines acc = Raise (StockError "Line quantity must be positive.").
Proof.
  revert acc. induction lines as [|[k v] rest IH]; intros acc Hin Hq.
  { by apply elem_of_nil in Hin. }
  cbn. destruct (Z.leb_spec v 0) as [Hv|Hv]; [done|].
  apply elem_of_cons in Hin as [E|Hin]; [simplify_eq; lia|by apply IH].
Qed.

(** A request whose shape [apply_stock_batch_move] accepts. *)
Lemma batch_shape_cases type (from to : option N) :
  (type = INBOUND ∧ is_Some to) ∨ (type = OUTBOUND ∧ is_Some from)
  ∨ (type = TRANSFER ∧ ∃ src dst, from = Some src ∧ to = Some dst ∧ src ≠ dst) →
  ∀ ts lines db e,
    lines ≠ [] → _group_lines_by_product lines = Raise e →
    apply_stock_batch_move type from to ts lines db = (db, Raise e).
Proof.
  intros Hshape ts lines db e Hne Hg. destruct lines as [|ln lines]; [done|].
  unfold apply_stock_batch_move, atomic, apply_stock_batch_move_body.
  destruct Hshape as [(-> & [l ->]) | [(-> & [l ->])
                                      | (-> & src & dst & -> & -> & Hsd)]];
    cbn; rewrite ?(proj2 (N.eqb_neq src dst)) by done; cbn; by rewrite Hg.
Qed.

(** X2. A kind other than INBOUND, OUTBOUND and TRANSFER is refused with the
    unknown-type error and nothing changes: by the batch service whatever
    else the request holds, by the single service once the quantity is
    positive. *)
Theorem unknown_kind_is_refused type :
  type ≠ INBOUND → type ≠ OUTBOUND → type ≠ TRANSFER →
  (∀ from to ts lines db,
     apply_stock_batch_move type from to ts lines db
     = (db, Raise (StockError "Unknown move type.")))
  ∧ (∀ p q from to ts db,
       0 < q →
       apply_stock_move type p (Some q) from to ts db
       = (db, Raise (StockError "Unknown move type.")))
  ∧ (∀ mv db,
       move_type mv = type →
       reverse_stock_move mv db = (db, Raise (StockError "Unknown move type."))).
Proof.
  intros Hin Hout Htr. split; [|split].
  - intros from to ts lines db.
    unfold apply_stock_batch_move, atomic, apply_stock_batch_move_body.
    by rewrite (proj2 (String.eqb_neq _ _)), (proj2 (String.eqb_neq _ _)),
      (proj2 (String.eqb_neq _ _)) by done.
  - intros p q from to ts db Hq.
    unfold apply_stock_move, atomic, apply_stock_move_body, bind.
    rewrite (proj2 (Z.leb_gt q 0)) by done.
    by rewrite (proj2 (String.eqb_neq _ _)), (proj2 (String.eqb_neq _ _)),
      (proj2 (String.eqb_neq _ _)) by done.
  - intros mv db <-.
    unfold reverse_stock_move, atomic, reverse_stock_move_body, bind.
    by rewrite (proj2 (String.eqb_neq _ _)), (proj2 (String.eqb_neq _ _)),
      (proj2 (String.eqb_neq _ _)) by done.
Qed.

Lemma return_kind_is_refused :
  apply_stock_batch_move "RETURN" None (Some 1%N) 0 [(1%N, 300)] empty_db
  = (empty_db, Raise (StockError "Unknown move type."))
  ∧ apply_stock_move "RETURN" 1%N (Some 300) None (Some 1%N) 0 empty_db
    = (empty_db, Raise (StockError "Unknown move type.")).
Proof.
  destruct (unknown_kind_is_refused "RETURN") as (Hbatch & Hone & _);
    [discriminate..|].
  split; [apply Hbatch|apply Hone; lia].
Defined.

(** ** Outcomes of the single services *)

Lemma apply_stock_move_outcome type p q from to ts db :
  (∃ msg, apply_stock_move type p q from to ts db = (db, Raise (StockError msg)))
  ∨ (∃ db' mv, apply_stock_move type p q from to ts db = (db', Ok mv)).
Proof.
  destruct q as [q|]; [|left; eexists; reflexivity].
  destruct (Z.leb_spec q 0) as [Hq|Hq].
  { left. eexists. unfold apply_stock_move, atomic, apply_stock_move_body.
    by rewrite (proj2 (Z.leb_le _ _)). }
  destruct (String.eqb_spec type INBOUND) as [->|Hin].
  { destruct to as [l|].
    - right. rewrite apply_inbound_eq by done. eauto.
    - left. eexists. unfold apply_stock_move, atomic, apply_stock_move_body, bind.
      by rewrite (proj2 (Z.leb_gt _ _)). }
  destruct (String.eqb_spec type OUTBOUND) as [->|Hout].
  { destruct from as [l|].
    - destruct (Z.lt_ge_cases (on_hand_of db p l) q).
      + left. rewrite apply_outbound_short by done. eauto.
      + right. rewrite apply_outbound_eq by done. eauto.
    - left. eexists. unfold apply_stock_move, atomic, apply_stock_move_body, bind.
      by rewrite (proj2 (Z.leb_gt _ _)). }
  destruct (String.eqb_spec type TRANSFER) as [->|Htr].
  { destruct from as [src|], to as [dst|];
      try (left; eexists; unfold apply_stock_move, atomic, apply_stock_move_body, bind;
           by rewrite (proj2 (Z.leb_gt _ _))).
    destruct (N.eqb_spec src dst) as [->|Hne].
    { left. eexists. unfold apply_stock_move, atomic, apply_stock_move_body, bind.
      rewrite (proj2 (Z.leb_gt _ _)) by done. cbn. by rewrite N.eqb_refl. }
    destruct (Z.lt_ge_cases (on_hand_of db p src) q).
    - left. rewrite apply_transfer_short by done. eauto.
    - right. rewrite apply_transfer_eq by done. eauto. }
  left. eexists. unfold apply_stock_move, atomic, apply_stock_move_body, bind.
  rewrite (proj2 (Z.leb_gt _ _)) by done.
  by rewrite (proj2 (String.eqb_neq _ _)), (proj2 (String.eqb_neq _ _)),
    (proj2 (String.eqb_neq _ _)) by done.
Qed.

Lemma reverse_stock_move_outcome mv db :
  (∃ msg, reverse_stock_move mv db = (db, Raise (StockError msg)))
  ∨ (∃ db', reverse_stock_move mv db = (db', Ok tt)).
Proof.
  destruct (String.eqb_spec (move_type mv) INBOUND) as [Ht|Hin].
  { destruct (move_to_location mv) as [l|] eqn:Hto.
    - destruct (Z.lt_ge_cases (on_hand_of db (move_product mv) l) (move_qty mv)).
      + left. rewrite (reverse_inbound_short _ l) by done. eauto.
      + right. rewrite (reverse_inbound_eq _ l) by done. eauto.
    - left. eexists. reverse_raises. }
  destruct (String.eqb_spec (move_type mv) OUTBOUND) as [Ht|Hout].
  { destruct (move_from_location mv) as [l|] eqn:Hfrom.
    - right. rewrite (reverse_outbound_eq _ l) by done. eauto.
    - left. eexists. reverse_raises. }
  destruct (String.eqb_spec (move_type mv) TRANSFER) as [Ht|Htr].
  { destruct (move_from_location mv) as [src|] eqn:Hfrom,
             (move_to_location mv) as [dst|] eqn:Hto;
      try (left; eexists; reverse_raises).
    destruct (Z.lt_ge_cases (on_hand_of db (move_product mv) dst) (move_qty mv)).
    - left. rewrite (reverse_transfer_short _ src dst) by done. eauto.
    - right. rewrite (reverse_transfer_eq _ src dst) by done. eauto. }
  left. eexists.
  unfold reverse_stock_move, atomic, reverse_stock_move_body, bind.
  by rewrite (proj2 (String.eqb_neq _ _)), (proj2 (String.eqb_neq _ _)),
    (proj2 (String.eqb_neq _ _)) by done.
Qed.

Lemma group_lines_loop_raises lines acc e :
  group_lines_loop lines acc = Raise e →
  e = StockError "Line quantity must be positive.".
Proof.
  revert acc. induction lines as [|[k v] rest IH]; intros acc H; cbn in H; [done|].
  destruct (v <=? 0); [by simplify_eq|eauto].
Qed.

Lemma apply_stock_batch_move_outcome type from to ts lines db :
  (∃ msg, apply_stock_batch_move type from to ts lines db = (db, Raise (StockError msg)))
  ∨ (∃ db' b, apply_stock_batch_move type from to ts lines db = (db', Ok b)).
Proof.
  destruct (String.eqb_spec type INBOUND) as [->|Hin].
  { destruct to as [l|]; [|left; eexists; reflexivity].
    destruct lines as [|ln lines]; [left; eexists; reflexivity|].
    destruct (_group_lines_by_product (ln :: lines)) as [totals|e] eqn:Hg.
    - right. rewrite (apply_batch_inbound_eq _ _ _ _ totals) by done. eauto.
    - left. pose proof (group_lines_loop_raises _ _ _ Hg) as ->.
      eexists. apply batch_shape_cases; [left; eauto|done|done]. }
  destruct (String.eqb_spec type OUTBOUND) as [->|Hout].
  { destruct from as [l|]; [|left; eexists; reflexivity].
    destruct lines as [|ln lines]; [left; eexists; reflexivity|].
    destruct (_group_lines_by_product (ln :: lines)) as [totals|e] eqn:Hg.
    - destruct (first_short (λ p, on_hand_of db p l) totals) as [pid|] eqn:Hfs.
      + left. rewrite (apply_batch_outbound_short _ _ _ _ totals _ pid) by done.
        unfold insufficient_for. eauto.
      + right. rewrite (apply_batch_outbound_eq _ _ _ _ totals) by done. eauto.
    - left. pose proof (group_lines_loop_raises _ _ _ Hg) as ->.
      eexists. apply batch_shape_cases; [right; left; eauto|done|done]. }
  destruct (String.eqb_spec type TRANSFER) as [->|Htr].
  { destruct from as [src|], to as [dst|]; try (left; eexists; reflexivity).
    destruct (N.eqb_spec src dst) as [->|Hne].
    { left. eexists.
      unfold apply_stock_batch_move, atomic, apply_stock_batch_move_body.
      cbn. by rewrite N.eqb_refl. }
    destruct lines as [|ln lines].
    { left. eexists.
      unfold apply_stock_batch_move, atomic, apply_stock_batch_move_body.
      cbn. by rewrite (proj2 (N.eqb_neq src dst)). }
    destruct (_group_lines_by_product (ln :: lines)) as [totals|e] eqn:Hg.
    - destruct (first_short (λ p, on_hand_of db p src) totals) as [pid|] eqn:Hfs.
      + left. rewrite (apply_batch_transfer_short _ _ _ _ totals _ pid) by done.
        unfold insufficient_for. eauto.
      + right. rewrite (apply_batch_transfer_eq _ _ _ _ totals) by done. eauto.
    - left. pose proof (group_lines_loop_raises _ _ _ Hg) as ->.
      eexists. apply batch_shape_cases; [right; right; eauto 10|done|done]. }
  left. eexists.
  unfold apply_stock_batch_move, atomic, apply_stock_batch_move_body.
  by rewrite (proj2 (String.eqb_neq _ _)), (proj2 (String.eqb_neq _ _)),
    (proj2 (String.eqb_neq _ _)) by done.
Qed.

(** ** What a successful single movement does *)

(** X4. An INBOUND movement of a positive quantity with a destination cannot
    be refused, whatever the state: it succeeds, the destination balance of
    the product grows by exactly the quantity (from zero when the pair had no
    row, which now exists), and no other balance changes. *)
Theorem inbound_always_succeeds p q from dst ts db :
  0 < q →
  ∃ db' mv,
    apply_stock_move INBOUND p (Some q) from (Some dst) ts db = (db', Ok mv)
    ∧ on_hand_of db' p dst = on_hand_of db p dst + q
    ∧ levels db' !! (p, dst) = Some (on_hand_of db p dst + q)
    ∧ (∀ p' l', (p', l') ≠ (p, dst) → levels db' !! (p', l') = levels db !! (p', l')).
Proof.
  intros Hq. rewrite apply_inbound_eq by done. eexists _, _. split; [done|].
  change (on_hand_of (with_move ?m ?d)) with (on_hand_of d).
  change (levels (with_move ?m ?d)) with (levels d).
  split; [|split].
  - rewrite on_hand_of_add_at, decide_True by done. lia.
  - apply levels_add_at_eq.
  - intros p' l' Hne. rewrite levels_add_at, decide_False by congruence. done.
Qed.

Lemma inbound_three_into_empty_main :
  ∃ db' mv,
    apply_stock_move INBOUND 2%N (Some 300) None (Some 1%N) 0 empty_db = (db', Ok mv)
    ∧ on_hand_of db' 2%N 1%N = on_hand_of empty_db 2%N 1%N + 300
    ∧ levels db' !! (2%N, 1%N) = Some (on_hand_of empty_db 2%N 1%N + 300)
    ∧ (∀ p' l', (p', l') ≠ (2%N, 1%N) →
                levels db' !! (p', l') = levels empty_db !! (p', l')).
Proof.
  apply (inbound_always_succeeds 2%N 300 None 1%N 0 empty_db). lia.
Defined.

(** X5. A TRANSFER of a positive quantity between two different locations
    succeeds exactly when the source balance covers it; it then takes the
    quantity from the source and adds it to the destination, changes no other
    balance and leaves the product's total over all locations as it was.
    When the source is short it is refused and nothing changes; a transfer
    from a location to itself is always refused. *)
Theorem transfer_moves_quantity p q src dst ts db :
  0 < q →
  (src ≠ dst → q ≤ on_hand_of db p src →
     ∃ db' mv,
       apply_stock_move TRANSFER p (Some q) (Some src) (Some dst) ts db = (db', Ok mv)
       ∧ on_hand_of db' p src = on_hand_of db p src - q
       ∧ on_hand_of db' p dst = on_hand_of db p dst + q
       ∧ (∀ p' l', (p', l') ≠ (p, src) → (p', l') ≠ (p, dst) →
                   on_hand_of db' p' l' = on_hand_of db p' l')
       ∧ (∀ p', on_hand_total db' p' = on_hand_total db p'))
  ∧ (src ≠ dst → on_hand_of db p src < q →
       apply_stock_move TRANSFER p (Some q) (Some src) (Some dst) ts db
       = (db, Raise (StockError "Insufficient stock at source location for transfer.")))
  ∧ apply_stock_move TRANSFER p (Some q) (Some src) (Some src) ts db
    = (db, Raise (StockError "Source and destination locations must differ.")).
Proof.
  intros Hq. split; [|split].
  - intros Hne Hle. rewrite apply_transfer_eq by done. eexists _, _. split; [done|].
    change (on_hand_of (with_move ?m ?d)) with (on_hand_of d).
    split; [|split; [|split]].
    + rewrite !on_hand_of_add_at. repeat case_decide; simplify_eq; lia.
    + rewrite !on_hand_of_add_at. repeat case_decide; simplify_eq; lia.
    + intros p' l' H1 H2. rewrite !on_hand_of_add_at.
      rewrite !decide_False by congruence. lia.
    + intros p'.
      rewrite (on_hand_total_levels _ (add_at p dst q (add_at p src (- q) db))) by done.
      rewrite !on_hand_total_add_at. destruct (N.eqb p p'); lia.
  - intros Hne Hlt. by apply apply_transfer_short.
  - unfold apply_stock_move, atomic, apply_stock_move_body, bind.
    rewrite (proj2 (Z.leb_gt q 0)) by done. cbn. by rewrite N.eqb_refl.
Qed.

Lemma transfer_four_of_ten :
  ∃ db' mv,
    apply_stock_move TRANSFER 3%N (Some 400) (Some 1%N) (Some 2%N) 0 (main_with 3%N 1000)
    = (db', Ok mv)
    ∧ on_hand_of db' 3%N 1%N = on_hand_of (main_with 3%N 1000) 3%N 1%N - 400
    ∧ on_hand_of db' 3%N 2%N = on_hand_of (main_with 3%N 1000) 3%N 2%N + 400
    ∧ (∀ p' l', (p', l') ≠ (3%N, 1%N) → (p', l') ≠ (3%N, 2%N) →
                on_hand_of db' p' l' = on_hand_of (main_with 3%N 1000) p' l')
    ∧ (∀ p', on_hand_total db' p' = on_hand_total (main_with 3%N 1000) p').
Proof.
  apply (transfer_moves_quantity 3%N 400 1%N 2%N 0 (main_with 3%N 1000)).
  - lia.
  - discriminate.
  - vm_compute. discriminate.
Defined.

(** X6. A successful single application records exactly one event: the
    movement it returns is appended to the movements, under a primary key no
    recorded movement has, and carries the kind, product, quantity, endpoints
    and timestamp of the request; batches and batch lines are untouched. *)
Theorem apply_records_one_fresh_move type p q from to ts db db' mv :
  apply_stock_move type p q from to ts db = (db', Ok mv) →
  moves db' = moves db ++ [mv]
  ∧ (∀ m, m ∈ moves db → move_id m ≠ move_id mv)
  ∧ batches db' = batches db ∧ lines db' = lines db
  ∧ move_type mv = type ∧ move_product mv = p ∧ Some (move_qty mv) = q
  ∧ move_from_location mv = from ∧ move_to_location mv = to
  ∧ move_timestamp mv = ts.
Proof.
  intros H.
  assert (Hfresh : ∀ t q' f o m, m ∈ moves db →
            move_id m ≠ move_id (new_move db t p q' f o ts)).
  { intros t q' f o m Hm E.
    assert (Hin : move_id m ∈ move_id <$> moves db) by (apply list_elem_of_fmap; eauto).
    apply next_id_fresh in Hin. rewrite E in Hin. unfold new_move in Hin; cbn in Hin.
    lia. }
  destruct (apply_stock_move_ok_inv _ _ _ _ _ _ _ _ _ H)
    as (q' & -> & Hq & [(-> & l & ->) | [(-> & l & -> & Hle)
                                        | (-> & src & dst & -> & -> & Hne & Hle)]]).
  - rewrite apply_inbound_eq in H by done. simplify_eq. repeat split; try done.
    apply Hfresh.
  - rewrite apply_outbound_eq in H by done. simplify_eq. repeat split; try done.
    apply Hfresh.
  - rewrite apply_transfer_eq in H by done. simplify_eq. repeat split; try done.
    apply Hfresh.
Qed.

Lemma outbound_move_is_recorded :
  moves shipped_once
  = moves (main_with 1%N 500)
    ++ [ {| move_id := 1; move_type := OUTBOUND; move_product := 1%N; move_qty := 100;
            move_from_location := Some 1%N; move_to_location := None;
            move_timestamp := 0 |} ].
Proof.
  apply (apply_records_one_fresh_move OUTBOUND 1%N (Some 100) (Some 1%N) None 0
           (main_with 1%N 500) shipped_once).
  vm_compute. reflexivity.
Defined.

(** ** More on batches *)

Lemma group_lines_loop_Ok lines acc :
  Forall (λ x, 0 < x.2) lines → ∃ totals, group_lines_loop lines acc = Ok totals.
Proof.
  revert acc. induction lines as [|[k v] rest IH]; intros acc Hpos; cbn; [eauto|].
  apply Forall_cons in Hpos as [Hv Hpos]. cbn in Hv.
  rewrite (proj2 (Z.leb_gt v 0)) by done. by apply IH.
Qed.

Lemma sum_qty_group_lines_loop lines acc totals :
  group_lines_loop lines acc = Ok totals →
  sum_qty totals = sum_qty acc + sum_qty lines.
Proof.
  revert acc. induction lines as [|[k v] rest IH]; intros acc H; cbn in H.
  { simplify_eq. change (sum_qty []) with 0. lia. }
  destruct (v <=? 0); [done|].
  rewrite (IH _ H), sum_qty_dict_add.
  change (sum_qty ((k, v) :: rest)) with (v + sum_qty rest). lia.
Qed.

(** On pairs, the consolidation succeeds exactly when every quantity is
    strictly positive, and it keeps the sum of the quantities. *)
Lemma group_amounts_spec lines :
  ((∃ totals, _group_lines_by_product lines = Ok totals)
   ↔ Forall (λ x, 0 < x.2) lines)
  ∧ (∀ e, _group_lines_by_product lines = Raise e →
          e = StockError "Line quantity must be positive.")
  ∧ (∀ totals, _group_lines_by_product lines = Ok totals →
               Forall (λ x, 0 < x.2) totals ∧ sum_qty totals = sum_qty lines).
Proof.
  split; [split|split].
  - intros [totals H]. by destruct (group_lines_loop_spec _ _ _ H) as (Hpos & _).
  - apply group_lines_loop_Ok.
  - apply group_lines_loop_raises.
  - intros totals H. split.
    + by destruct (group_lines_spec _ _ H) as (_ & _ & _ & Hpos & _).
    + rewrite (sum_qty_group_lines_loop _ _ _ H). change (sum_qty []) with 0. lia.
Qed.

(** X8. A successful batch changes the balances by the requested quantities
    and nothing else: the balance of a product at a location grows by the sum
    of the product's lines when the location is the destination of an INBOUND
    or TRANSFER batch, shrinks by that sum when it is the source of an
    OUTBOUND or TRANSFER batch, and is untouched otherwise. *)
Theorem batch_balance_effect type from to ts lines db db' b :
  apply_stock_batch_move type from to ts lines db = (db', Ok b) →
  ∀ p l,
    on_hand_of db' p l
    = on_hand_of db p l
      + (if (String.eqb type INBOUND || String.eqb type TRANSFER)
            && bool_decide (to = Some l)
         then qty_of lines p else 0)
      - (if (String.eqb type OUTBOUND || String.eqb type TRANSFER)
            && bool_decide (from = Some l)
         then qty_of lines p else 0).
Proof.
  intros H p l'.
  destruct (apply_batch_ok_inv _ _ _ _ _ _ _ _ H)
    as (totals & Hg & _ & -> & dbm & -> & Hcases).
  destruct (group_lines_spec _ _ Hg) as (_ & _ & Hqty & _).
  destruct (with_lines_spec (new_batch db type from to ts) totals
              (with_batch (new_batch db type from to ts) dbm))
    as (_ & _ & _ & _ & _ & Hlv & _).
  unfold on_hand_of at 1. rewrite Hlv.
  change (default 0 (levels (with_batch ?b ?d) !! (p, l'))) with (on_hand_of d p l').
  rewrite <-Hqty.
  destruct Hcases as [(-> & l & -> & ->) | [(-> & l & -> & _ & ->)
                                           | (-> & s & t & -> & -> & _ & _ & ->)]].
  - rewrite on_hand_of_credit_all, on_hand_of_touch_all. cbn.
    destruct from; repeat case_decide; repeat case_bool_decide; simplify_eq; lia.
  - rewrite on_hand_of_debit_all, on_hand_of_touch_all. cbn.
    repeat case_decide; repeat case_bool_decide; simplify_eq; lia.
  - rewrite on_hand_of_transfer_all, !on_hand_of_touch_all. cbn.
    repeat case_decide; repeat case_bool_decide; simplify_eq; lia.
Qed.

Lemma ship_two_products :
  on_hand_of (apply_stock_batch_move OUTBOUND (Some 1%N) None 0
                [(1%N, 200); (2%N, 100); (1%N, 300)] (two_products 1000 1000)).1
             1%N 1%N
  = on_hand_of (two_products 1000 1000) 1%N 1%N
    + 0
    - (if bool_decide (Some 1%N = Some 1%N)
       then qty_of [(1%N, 200); (2%N, 100); (1%N, 300)] 1%N else 0).
Proof.
  apply (batch_balance_effect OUTBOUND (Some 1%N) None 0
           [(1%N, 200); (2%N, 100); (1%N, 300)] (two_products 1000 1000) _
           (sample_batch OUTBOUND (Some 1%N) None)).
  vm_compute. reflexivity.
Defined.

Lemma group_one_line p q : 0 < q → _group_lines_by_product [(p, q)] = Ok [(p, q)].
Proof.
  intros Hq. unfold _group_lines_by_product. cbn.
  by rewrite (proj2 (Z.leb_gt q 0)).
Qed.

Lemma first_short_one bal p q :
  first_short bal [(p, q)] = if bal p <? q then Some p else None.
Proof. done. Qed.

Lemma levels_one_credit p l q db :
  levels (credit_all [(p, q)] l (touch_all [(p, q)] l db)) = levels (add_at p l q db).
Proof.
  change (credit_all [(p, q)] l (touch_all [(p, q)] l db))
    with (add_at p l q (add_at p l 0 db)).
  by rewrite add_at_add_at.
Qed.

Lemma levels_one_debit p l q db :
  levels (debit_all [(p, q)] l (touch_all [(p, q)] l db)) = levels (add_at p l (- q) db).
Proof.
  change (debit_all [(p, q)] l (touch_all [(p, q)] l db))
    with (add_at p l (- q) (add_at p l 0 db)).
  by rewrite add_at_add_at.
Qed.

Lemma levels_one_transfer p src dst q db :
  levels (transfer_all [(p, q)] src dst
            (touch_all [(p, q)] dst (touch_all [(p, q)] src db)))
  = levels (add_at p dst q (add_at p src (- q) db)).
Proof.
  change (transfer_all [(p, q)] src dst
            (touch_all [(p, q)] dst (touch_all [(p, q)] src db)))
    with (add_at p dst q (add_at p src (- q) (add_at p dst 0 (add_at p src 0 db)))).
  f_equal. add_at_eq.
Qed.

Lemma first_short_one_None bal p q :
  first_short bal [(p, q)] = None ↔ q ≤ bal p.
Proof. rewrite first_short_one. destruct (Z.ltb_spec (bal p) q); split; try done; lia. Qed.

(** The batch of one line succeeds with the balances of the single movement
    whenever the single movement succeeds. *)
Lemma one_line_batch_follows type p q from to ts db d2 mv :
  apply_stock_move type p (Some q) from to ts db = (d2, Ok mv) →
  ∃ d1 b, apply_stock_batch_move type from to ts [(p, q)] db = (d1, Ok b)
          ∧ levels d1 = levels d2.
Proof.
  intros H.
  destruct (apply_stock_move_ok_inv _ _ _ _ _ _ _ _ _ H)
    as (q' & Eq & Hq & [(-> & l & ->) | [(-> & l & -> & Hle)
                                        | (-> & src & dst & -> & -> & Hne & Hle)]]);
    simplify_eq; pose proof (group_one_line p q' Hq) as Hg.
  - rewrite apply_inbound_eq in H by done. simplify_eq.
    rewrite (apply_batch_inbound_eq _ _ _ _ [(p, q')]) by done.
    eexists _, _. split; [done|].
    destruct (with_lines_spec (new_batch db INBOUND from (Some l) ts) [(p, q')]
                (with_batch (new_batch db INBOUND from (Some l) ts)
                   (credit_all [(p, q')] l (touch_all [(p, q')] l db))))
      as (_ & _ & _ & _ & _ & -> & _).
    apply levels_one_credit.
  - rewrite apply_outbound_eq in H by done. simplify_eq.
    rewrite (apply_batch_outbound_eq _ _ _ _ [(p, q')])
      by (try done; by apply first_short_one_None).
    eexists _, _. split; [done|].
    destruct (with_lines_spec (new_batch db OUTBOUND (Some l) to ts) [(p, q')]
                (with_batch (new_batch db OUTBOUND (Some l) to ts)
                   (debit_all [(p, q')] l (touch_all [(p, q')] l db))))
      as (_ & _ & _ & _ & _ & -> & _).
    apply levels_one_debit.
  - rewrite apply_transfer_eq in H by done. simplify_eq.
    rewrite (apply_batch_transfer_eq _ _ _ _ [(p, q')])
      by (try done; by apply first_short_one_None).
    eexists _, _. split; [done|].
    destruct (with_lines_spec (new_batch db TRANSFER (Some src) (Some dst) ts)
                [(p, q')]
                (with_batch (new_batch db TRANSFER (Some src) (Some dst) ts)
                   (transfer_all [(p, q')] src dst
                      (touch_all [(p, q')] dst (touch_all [(p, q')] src db)))))
      as (_ & _ & _ & _ & _ & -> & _).
    apply levels_one_transfer.
Qed.

(** And the single movement succeeds whenever the batch of one line does. *)
Lemma single_move_follows type p q from to ts db d1 b :
  apply_stock_batch_move type from to ts [(p, q)] db = (d1, Ok b) →
  ∃ d2 mv, apply_stock_move type p (Some q) from to ts db = (d2, Ok mv).
Proof.
  intros H.
  destruct (apply_batch_ok_inv _ _ _ _ _ _ _ _ H)
    as (totals & Hg & _ & _ & dbm & _ & Hcases).
  destruct (group_lines_loop_spec _ _ _ Hg) as (Hpos & _).
  apply Forall_cons in Hpos as [Hq _]. cbn in Hq.
  rewrite (group_one_line p q Hq) in Hg. simplify_eq.
  destruct Hcases as [(-> & l & -> & _) | [(-> & l & -> & Hfs & _)
                                          | (-> & s & t & -> & -> & Hne & Hfs & _)]].
  - rewrite apply_inbound_eq by done. eauto.
  - rewrite apply_outbound_eq by (try done; by apply first_short_one_None in Hfs). eauto.
  - rewrite apply_transfer_eq by (try done; by apply first_short_one_None in Hfs). eauto.
Qed.

(** X9. A batch of one line is, for the balances, the single movement of
    that product and quantity: for every kind, endpoints and state the two
    services accept or refuse together and leave the same table of
    balances. *)
Theorem one_line_batch_as_single_move type p q from to ts db :
  levels (apply_stock_batch_move type from to ts [(p, q)] db).1
  = levels (apply_stock_move type p (Some q) from to ts db).1
  ∧ ((∃ b, (apply_stock_batch_move type from to ts [(p, q)] db).2 = Ok b)
     ↔ (∃ mv, (apply_stock_move type p (Some q) from to ts db).2 = Ok mv)).
Proof.
  destruct (apply_stock_move_outcome type p (Some q) from to ts db)
    as [[msg Hs]|(d2 & mv & Hs)].
  - destruct (apply_stock_batch_move_outcome type from to ts [(p, q)] db)
      as [[msg' Hb]|(d1 & b & Hb)].
    + rewrite Hs, Hb. cbn. split; [done|]. split; intros [? ?]; done.
    + destruct (single_move_follows _ _ _ _ _ _ _ _ _ Hb) as (d2 & mv & Hs').
      rewrite Hs in Hs'. done.
  - destruct (one_line_batch_follows _ _ _ _ _ _ _ _ _ Hs) as (d1 & b & Hb & Hl).
    rewrite Hs, Hb. cbn. split; [done|]. split; eauto.
Qed.

(** ** The batch reversal in closed form (OUTBOUND, TRANSFER, no lines) *)

Arguments touch_both : simpl never.
Arguments same_product : simpl never.
Arguments locked_first : simpl never.

Lemma reversal_credit_eq p0 l totals d db :
  first_levels p0 l totals d → is_Some (levels db !! (p0, l)) →
  for_each totals (λ '(pid, q),
    do lvl <- dict_get d pid;
    save_on_hand lvl q) db
  = Ok (tt, credit_all (same_product p0 totals) l db).
Proof.
  revert db. induction totals as [|[pid q] rest IH]; intros db Hd Hrow; [done|].
  change (for_each ((pid, q) :: rest) ?f db) with (bind (f (pid, q)) (λ _, for_each rest f) db).
  destruct (first_levels_head _ _ _ _ _ _ Hd) as [v Hv].
  rewrite bind_eq. cbn beta iota. rewrite bind_eq, (dict_get_eq _ _ _ _ Hv).
  rewrite save_eq by done. cbn.
  change (credit_all (same_product p0 ((pid, q) :: rest)) l db)
    with (credit_all (same_product p0 rest) l (add_at p0 l q db)).
  apply IH; [by eapply first_levels_tail|by apply has_row_add_at].
Qed.

Lemma reversal_transfer_eq p0 src dst totals ds dd db :
  first_levels p0 src totals ds → first_levels p0 dst totals dd →
  is_Some (levels db !! (p0, src)) → is_Some (levels db !! (p0, dst)) →
  for_each totals (λ '(pid, q),
    do dst <- dict_get dd pid;
    do src <- dict_get ds pid;
    save_on_hand dst (- q) ;;
    save_on_hand src q) db
  = Ok (tt, transfer_all (same_product p0 totals) dst src db).
Proof.
  revert db. induction totals as [|[pid q] rest IH]; intros db Hs Hd Hrs Hrd; [done|].
  change (for_each ((pid, q) :: rest) ?f db) with (bind (f (pid, q)) (λ _, for_each rest f) db).
  destruct (first_levels_head _ _ _ _ _ _ Hs) as [vs Hvs].
  destruct (first_levels_head _ _ _ _ _ _ Hd) as [vd Hvd].
  rewrite bind_eq. cbn beta iota. rewrite bind_eq, (dict_get_eq _ _ _ _ Hvd).
  rewrite bind_eq, (dict_get_eq _ _ _ _ Hvs).
  rewrite bind_eq, save_eq by done.
  rewrite save_eq by (by apply has_row_add_at). cbn.
  change (transfer_all (same_product p0 ((pid, q) :: rest)) dst src db)
    with (transfer_all (same_product p0 rest) dst src
            (add_at p0 src q (add_at p0 dst (- q) db))).
  apply IH; try by eapply first_levels_tail.
  - by apply has_row_add_at, has_row_add_at.
  - by apply has_row_add_at, has_row_add_at.
Qed.

Lemma on_hand_of_touch_both totals p0 src dst db p l :
  on_hand_of (touch_both totals p0 src dst db) p l = on_hand_of db p l.
Proof.
  revert db. induction totals as [|x rest IH]; intros db; [done|].
  change (touch_both (x :: rest) p0 src dst db)
    with (touch_both rest p0 src dst (add_at p0 dst 0 (add_at p0 src 0 db))).
  by rewrite IH, !on_hand_of_touch.
Qed.

Lemma has_row_touch_both totals p0 src dst db k :
  is_Some (levels db !! k) → is_Some (levels (touch_both totals p0 src dst db) !! k).
Proof.
  revert db. induction totals as [|x rest IH]; intros db H; [done|].
  change (touch_both (x :: rest) p0 src dst db)
    with (touch_both rest p0 src dst (add_at p0 dst 0 (add_at p0 src 0 db))).
  by apply IH, has_row_add_at, has_row_add_at.
Qed.

Lemma has_rows_touch_both totals p0 src dst db :
  totals ≠ [] →
  is_Some (levels (touch_both totals p0 src dst db) !! (p0, src))
  ∧ is_Some (levels (touch_both totals p0 src dst db) !! (p0, dst)).
Proof.
  intros Hne. destruct totals as [|x rest]; [done|].
  change (touch_both (x :: rest) p0 src dst db)
    with (touch_both rest p0 src dst (add_at p0 dst 0 (add_at p0 src 0 db))).
  split; apply has_row_touch_both.
  - apply has_row_add_at, has_row_add_at_eq.
  - apply has_row_add_at_eq.
Qed.

Lemma tables_touch_both totals p0 src dst db :
  moves (touch_both totals p0 src dst db) = moves db
  ∧ batches (touch_both totals p0 src dst db) = batches db
  ∧ lines (touch_both totals p0 src dst db) = lines db.
Proof.
  revert db. induction totals as [|x rest IH]; intros db; [done|].
  change (touch_both (x :: rest) p0 src dst db)
    with (touch_both rest p0 src dst (add_at p0 dst 0 (add_at p0 src 0 db))).
  destruct (IH (add_at p0 dst 0 (add_at p0 src 0 db))) as (-> & -> & ->). done.
Qed.

Lemma reversal_lock_both_eq ln0 lns totals src dst ds dd db :
  reversal_lock_both (ln0 :: lns) totals (Some src) (Some dst) ds dd db
  = Ok ((locked_first (line_product_id ln0) src
           (on_hand_of db (line_product_id ln0) src) totals ds,
         locked_first (line_product_id ln0) dst
           (on_hand_of db (line_product_id ln0) dst) totals dd),
        touch_both totals (line_product_id ln0) src dst db).
Proof.
  revert ds dd db. induction totals as [|[pid q] rest IH]; intros ds dd db; [done|].
  cbn [reversal_lock_both reversal_lock_product].
  rewrite bind_eq. cbn [ret]. rewrite bind_eq, get_level_eq.
  rewrite bind_eq. cbn [ret]. rewrite bind_eq, get_level_eq, IH.
  by rewrite !on_hand_of_touch.
Qed.

Lemma reverse_batch_no_lines b db :
  batch_lines b db = [] → reverse_stock_batch_move b db = (without_batch b db, Ok tt).
Proof.
  intros Hl. unfold reverse_stock_batch_move, atomic, reverse_stock_batch_move_body.
  by rewrite bind_eq, Hl.
Qed.

Lemma reverse_outbound_batch_eq b l ln0 lns db :
  batch_type b = OUTBOUND → batch_from_location b = Some l →
  batch_lines b db = ln0 :: lns →
  reverse_stock_batch_move b db
  = (without_batch b
       (credit_all (same_product (line_product_id ln0) (line_totals (ln0 :: lns) []))
          l
          (touch_all (same_product (line_product_id ln0)
                        (line_totals (ln0 :: lns) [])) l db)),
     Ok tt).
Proof.
  intros Ht Hfrom Hl.
  unfold reverse_stock_batch_move, atomic, reverse_stock_batch_move_body.
  rewrite bind_eq, Hl, Ht, Hfrom. cbn beta iota zeta.
  change (String.eqb OUTBOUND INBOUND) with false.
  change (String.eqb OUTBOUND OUTBOUND) with true. cbn beta iota.
  set (totals := line_totals (ln0 :: lns) []).
  assert (totals ≠ []) as Hne by (by apply line_totals_not_nil).
  rewrite bind_eq, bind_eq, reversal_lock_levels_eq.
  erewrite (reversal_credit_eq (line_product_id ln0) l);
    [| apply first_levels_locked | by apply has_row_first_touch ].
  done.
Qed.

Lemma reverse_transfer_batch_eq b src dst ln0 lns db :
  batch_type b ≠ INBOUND → batch_type b ≠ OUTBOUND →
  batch_from_location b = Some src → batch_to_location b = Some dst →
  batch_lines b db = ln0 :: lns →
  reverse_stock_batch_move b db
  = match first_short (λ _, on_hand_of db (line_product_id ln0) dst)
            (line_totals (ln0 :: lns) []) with
    | Some _ =>
        (db, Raise (StockError "Cannot reverse: insufficient stock at destination."))
    | None =>
        (without_batch b
           (transfer_all
              (same_product (line_product_id ln0) (line_totals (ln0 :: lns) []))
              dst src
              (touch_both (line_totals (ln0 :: lns) []) (line_product_id ln0)
                 src dst db)),
         Ok tt)
    end.
Proof.
  intros Hin Hout Hfrom Hto Hl.
  unfold reverse_stock_batch_move, atomic, reverse_stock_batch_move_body.
  rewrite bind_eq, Hl, Hfrom, Hto. cbn beta iota zeta.
  rewrite (proj2 (String.eqb_neq _ _)), (proj2 (String.eqb_neq _ _)) by done.
  set (totals := line_totals (ln0 :: lns) []).
  assert (totals ≠ []) as Hne by (by apply line_totals_not_nil).
  destruct (has_rows_touch_both totals (line_product_id ln0) src dst db Hne)
    as [Hrs Hrd].
  rewrite bind_eq, bind_eq, reversal_lock_both_eq. cbn [fst snd]. rewrite bind_eq.
  erewrite (reversal_check_eq (line_product_id ln0) dst);
    [| apply first_levels_locked | done ].
  rewrite (first_short_const_ext _ (on_hand_of db (line_product_id ln0) dst))
    by apply on_hand_of_touch_both.
  destruct (first_short _ totals); [done|].
  erewrite (reversal_transfer_eq (line_product_id ln0) src dst);
    [| apply first_levels_locked | apply first_levels_locked | done | done ].
  done.
Qed.

(** ** What the batch reversal does, for every kind *)

Lemma first_product_cons b db ln0 lns :
  batch_lines b db = ln0 :: lns → first_product b db = Some (line_product_id ln0).
Proof. unfold first_product. by intros ->. Qed.

Lemma first_product_nil b db : batch_lines b db = [] → first_product b db = None.
Proof. unfold first_product. by intros ->. Qed.

Lemma sum_qty_totals_of_lines lns :
  sum_qty (line_totals lns []) = sum_qty (line_entry <$> lns).
Proof. rewrite sum_qty_line_totals. change (sum_qty []) with 0. lia. Qed.

(** X10. The reversal of an OUTBOUND batch that has a source is never
    refused: in every state it succeeds and deletes the batch with its lines.
    It makes no feasibility check, and the one balance it changes is the
    source balance of the batch's first line's product, which receives the
    quantities of all the lines. *)
Theorem outbound_batch_reversal_is_never_refused b l db :
  batch_type b = OUTBOUND → batch_from_location b = Some l →
  ∃ db',
    reverse_stock_batch_move b db = (db', Ok tt)
    ∧ (∀ p l',
         on_hand_of db' p l'
         = on_hand_of db p l'
           + (if decide (first_product b db = Some p ∧ l' = l)
              then sum_qty (line_entry <$> batch_lines b db) else 0))
    ∧ batches db' = filter (λ b', batch_id b' ≠ batch_id b) (batches db)
    ∧ lines db' = filter (λ ln, line_batch_id ln ≠ batch_id b) (lines db)
    ∧ moves db' = moves db.
Proof.
  intros Ht Hfrom. destruct (batch_lines b db) as [|ln0 lns] eqn:Hl.
  - rewrite reverse_batch_no_lines by done. eexists. split; [done|].
    split; [|done]. intros p l'. rewrite (first_product_nil _ _ Hl).
    change (on_hand_of (without_batch ?b ?d)) with (on_hand_of d).
    case_decide as E; [by destruct E|lia].
  - rewrite (reverse_outbound_batch_eq _ l ln0 lns) by done.
    eexists. split; [done|]. split.
    + intros p l'. rewrite (first_product_cons _ _ _ _ Hl).
      change (on_hand_of (without_batch ?b ?d)) with (on_hand_of d).
      rewrite on_hand_of_credit_all, on_hand_of_touch_all, qty_of_same_product.
      rewrite sum_qty_totals_of_lines.
      destruct (N.eqb_spec (line_product_id ln0) p) as [Hp|Hp];
        destruct (decide (l = l')) as [Hll|Hll];
        destruct (decide (Some (line_product_id ln0) = Some p ∧ l' = l)) as [[E1 E2]|E];
        try lia; exfalso;
        solve [ apply E; split; congruence | apply Hll; congruence
              | apply Hp; congruence ].
    + unfold without_batch; cbn.
      rewrite batches_credit_all, batches_touch_all, lines_credit_all, lines_touch_all,
        moves_credit_all, moves_touch_all. done.
Qed.

Lemma reversal_lock_levels_none ln0 lns totals d db :
  totals ≠ [] →
  reversal_lock_levels (ln0 :: lns) totals None d db = Raise IntegrityError.
Proof. destruct totals as [|[pid q] rest]; done. Qed.

Lemma reversal_lock_both_none ln0 lns totals src dst ds dd db :
  totals ≠ [] → src = None ∨ dst = None →
  ∃ e, reversal_lock_both (ln0 :: lns) totals src dst ds dd db = Raise e.
Proof.
  intros Hne Hnone. destruct totals as [|[pid q] rest]; [done|].
  cbn [reversal_lock_both reversal_lock_product].
  rewrite bind_eq. cbn [ret]. rewrite bind_eq.
  destruct src as [s|]; [|by eexists].
  rewrite get_level_eq. rewrite bind_eq. cbn [ret]. rewrite bind_eq.
  destruct Hnone as [?| ->]; [done|]. by eexists.
Qed.

(** The state a successful batch reversal leaves: the batch deleted from a
    state that differs from the initial one in the balances of the first
    line's product only. *)
Lemma reverse_batch_ok_inv b db db' :
  reverse_stock_batch_move b db = (db', Ok tt) →
  ∃ dbm, db' = without_batch b dbm
    ∧ moves dbm = moves db ∧ batches dbm = batches db ∧ lines dbm = lines db
    ∧ ∀ p l, first_product b db ≠ Some p → on_hand_of dbm p l = on_hand_of db p l.
Proof.
  intros H. destruct (batch_lines b db) as [|ln0 lns] eqn:Hl.
  { rewrite reverse_batch_no_lines in H by done. simplify_eq. by exists db. }
  rewrite (first_product_cons _ _ _ _ Hl).
  assert (Hne : line_totals (ln0 :: lns) [] ≠ []) by (by apply line_totals_not_nil).
  destruct (String.eqb_spec (batch_type b) INBOUND) as [Ht|Hin].
  { destruct (batch_to_location b) as [l|] eqn:Hto.
    - rewrite (reverse_inbound_batch_eq _ l ln0 lns) in H by done.
      destruct (first_short _ _); [discriminate H|]. simplify_eq.
      eexists. split; [done|].
      rewrite moves_debit_all, moves_touch_all, batches_debit_all, batches_touch_all,
        lines_debit_all, lines_touch_all. repeat split; try done.
      intros p l' Hp.
      rewrite on_hand_of_debit_all, on_hand_of_touch_all, qty_of_same_product.
      rewrite (proj2 (N.eqb_neq _ _)) by congruence. case_decide; lia.
    - exfalso. revert H.
      unfold reverse_stock_batch_move, atomic, reverse_stock_batch_move_body.
      rewrite bind_eq, Hl, Ht, Hto. cbn beta iota zeta.
      change (String.eqb INBOUND INBOUND) with true. cbn beta iota.
      by rewrite bind_eq, bind_eq, reversal_lock_levels_none. }
  destruct (String.eqb_spec (batch_type b) OUTBOUND) as [Ht|Hout].
  { destruct (batch_from_location b) as [l|] eqn:Hfrom.
    - rewrite (reverse_outbound_batch_eq _ l ln0 lns) in H by done. simplify_eq.
      eexists. split; [done|].
      rewrite moves_credit_all, moves_touch_all, batches_credit_all, batches_touch_all,
        lines_credit_all, lines_touch_all. repeat split; try done.
      intros p l' Hp.
      rewrite on_hand_of_credit_all, on_hand_of_touch_all, qty_of_same_product.
      rewrite (proj2 (N.eqb_neq _ _)) by congruence. case_decide; lia.
    - exfalso. revert H.
      unfold reverse_stock_batch_move, atomic, reverse_stock_batch_move_body.
      rewrite bind_eq, Hl, Ht, Hfrom. cbn beta iota zeta.
      change (String.eqb OUTBOUND INBOUND) with false.
      change (String.eqb OUTBOUND OUTBOUND) with true. cbn beta iota.
      by rewrite bind_eq, bind_eq, reversal_lock_levels_none. }
  destruct (batch_from_location b) as [src|] eqn:Hfrom,
           (batch_to_location b) as [dst|] eqn:Hto.
  - rewrite (reverse_transfer_batch_eq _ src dst ln0 lns) in H by done.
    destruct (first_short _ _); [discriminate H|]. simplify_eq.
    eexists. split; [done|].
    destruct (tables_touch_both (line_totals (ln0 :: lns) []) (line_product_id ln0)
                src dst db) as (Hm & Hb & Hls).
    rewrite moves_transfer_all, batches_transfer_all, lines_transfer_all, Hm, Hb, Hls.
    repeat split; try done.
    intros p l' Hp.
    rewrite on_hand_of_transfer_all, on_hand_of_touch_both, qty_of_same_product.
    rewrite (proj2 (N.eqb_neq _ _)) by congruence. repeat case_decide; lia.
  - exfalso. revert H.
    unfold reverse_stock_batch_move, atomic, reverse_stock_batch_move_body.
    rewrite bind_eq, Hl, Hfrom, Hto. cbn beta iota zeta.
    rewrite (proj2 (String.eqb_neq _ _)), (proj2 (String.eqb_neq _ _)) by done.
    rewrite bind_eq, bind_eq.
    destruct (reversal_lock_both_none ln0 lns (line_totals (ln0 :: lns) [])
                (Some src) None ∅ ∅ db Hne) as [e ->]; [by right|]. done.
  - exfalso. revert H.
    unfold reverse_stock_batch_move, atomic, reverse_stock_batch_move_body.
    rewrite bind_eq, Hl, Hfrom, Hto. cbn beta iota zeta.
    rewrite (proj2 (String.eqb_neq _ _)), (proj2 (String.eqb_neq _ _)) by done.
    rewrite bind_eq, bind_eq.
    destruct (reversal_lock_both_none ln0 lns (line_totals (ln0 :: lns) [])
                None (Some dst) ∅ ∅ db Hne) as [e ->]; [by left|]. done.
  - exfalso. revert H.
    unfold reverse_stock_batch_move, atomic, reverse_stock_batch_move_body.
    rewrite bind_eq, Hl, Hfrom, Hto. cbn beta iota zeta.
    rewrite (proj2 (String.eqb_neq _ _)), (proj2 (String.eqb_neq _ _)) by done.
    rewrite bind_eq, bind_eq.
    destruct (reversal_lock_both_none ln0 lns (line_totals (ln0 :: lns) [])
                None None ∅ ∅ db Hne) as [e ->]; [by left|]. done.
Qed.

(** X11. A successful batch reversal, of whatever kind, deletes the batch and
    all its lines and touches no other batch, line or movement; among the
    balances it can change only those of the product of the batch's first
    line.  A refused reversal changes nothing. *)
Theorem batch_reversal_deletes_batch_and_lines b db :
  (∀ db', reverse_stock_batch_move b db = (db', Ok tt) →
     batches db' = filter (λ b', batch_id b' ≠ batch_id b) (batches db)
     ∧ lines db' = filter (λ ln, line_batch_id ln ≠ batch_id b) (lines db)
     ∧ batch_lines b db' = []
     ∧ moves db' = moves db
     ∧ ∀ p l, first_product b db ≠ Some p → on_hand_of db' p l = on_hand_of db p l)
  ∧ (∀ db' e, reverse_stock_batch_move b db = (db', Raise e) → db' = db).
Proof.
  split.
  - intros db' H.
    destruct (reverse_batch_ok_inv _ _ _ H) as (dbm & -> & Hm & Hb & Hls & Hbal).
    unfold without_batch at 1 2 4; cbn. rewrite Hm, Hb, Hls.
    repeat split; try done.
    unfold batch_lines, without_batch; cbn.
    apply filter_Forall_nil, Forall_forall. intros ln Hln E.
    apply list_elem_of_filter in Hln as [Hne _]. done.
  - intros db' e H. by apply (atomic_raise _ _ _ _ H).
Qed.

Lemma outbound_batch_reversal_scenario :
  ∃ db',
    reverse_stock_batch_move (sample_batch OUTBOUND (Some 1%N) None) shipped_batch
    = (db', Ok tt)
    ∧ (∀ p l',
         on_hand_of db' p l'
         = on_hand_of shipped_batch p l'
           + (if decide (first_product (sample_batch OUTBOUND (Some 1%N) None)
                                       shipped_batch = Some p ∧ l' = 1%N)
              then sum_qty (line_entry <$>
                              batch_lines (sample_batch OUTBOUND (Some 1%N) None)
                                          shipped_batch)
              else 0))
    ∧ batches db'
      = filter (λ b', batch_id b' ≠ batch_id (sample_batch OUTBOUND (Some 1%N) None))
               (batches shipped_batch)
    ∧ lines db'
      = filter (λ ln, line_batch_id ln ≠ batch_id (sample_batch OUTBOUND (Some 1%N) None))
               (lines shipped_batch)
    ∧ moves db' = moves shipped_batch.
Proof.
  apply (outbound_batch_reversal_is_never_refused
           (sample_batch OUTBOUND (Some 1%N) None) 1%N shipped_batch);
    reflexivity.
Defined.

(** ** A batch of one product, applied and reversed *)

Lemma on_hand_of_levels db1 db2 p l :
  levels db1 = levels db2 → on_hand_of db1 p l = on_hand_of db2 p l.
Proof. unfold on_hand_of. by intros ->. Qed.

Lemma totals_of_one_product (totals : list (Product * Z)) p :
  NoDup totals.*1 → Forall (λ x, x.1 = p) totals → totals ≠ [] →
  ∃ Q, totals = [(p, Q)].
Proof.
  intros Hnd Hall Hne. destruct totals as [|[k v] rest]; [done|].
  apply Forall_cons in Hall as [Hk Hall]. cbn in Hk. subst k.
  destruct rest as [|[k' v'] rest']; [eauto|].
  apply Forall_cons in Hall as [Hk' _]. cbn in Hk'. subst k'.
  cbn in Hnd. apply NoDup_cons in Hnd as [Hnin _].
  exfalso. apply Hnin. by apply elem_of_cons; left.
Qed.

Lemma lines_of_new_batch db dbm type from to ts totals :
  fk_lines db → lines dbm = lines db →
  ∃ new,
    lines (with_lines (new_batch db type from to ts) totals
             (with_batch (new_batch db type from to ts) dbm)) = lines db ++ new
    ∧ batch_lines (new_batch db type from to ts)
        (with_lines (new_batch db type from to ts) totals
           (with_batch (new_batch db type from to ts) dbm)) = new
    ∧ line_entry <$> new = totals
    ∧ Forall (λ ln, line_batch_id ln = batch_id (new_batch db type from to ts)) new.
Proof.
  intros Hfk Hlines. set (b := new_batch db type from to ts).
  destruct (with_lines_spec b totals (with_batch b dbm)) as (new & Hl & He & Hb & _).
  exists new. change (lines (with_batch b dbm)) with (lines dbm) in Hl.
  rewrite Hlines in Hl. split; [done|]. split; [|done].
  unfold batch_lines. rewrite Hl.
  rewrite filter_app, filter_Forall_nil, (filter_Forall_id _ new); [done|done|].
  apply Forall_forall. intros ln Hln E. specialize (Hfk ln Hln).
  apply next_id_fresh in Hfk. rewrite E in Hfk.
  unfold b, new_batch in Hfk; cbn in Hfk. lia.
Qed.

(** Deleting the batch just recorded gives back the event tables. *)
Lemma without_new_batch_tables db dbx type from to ts new :
  fk_lines db →
  batches dbx = batches db ++ [new_batch db type from to ts] →
  lines dbx = lines db ++ new →
  Forall (λ ln, line_batch_id ln = batch_id (new_batch db type from to ts)) new →
  batches (without_batch (new_batch db type from to ts) dbx) = batches db
  ∧ lines (without_batch (new_batch db type from to ts) dbx) = lines db.
Proof.
  intros Hfk Hb Hl Hnew. unfold without_batch; cbn. rewrite Hb, Hl. split.
  - rewrite filter_app, filter_cons_False, filter_nil, app_nil_r by (cbn; tauto).
    apply filter_Forall_id, Forall_forall. intros b' Hb' E.
    assert (Hin : batch_id b' ∈ batch_id <$> batches db)
      by (apply list_elem_of_fmap; eauto).
    apply next_id_fresh in Hin. rewrite E in Hin. unfold new_batch in Hin; cbn in Hin.
    lia.
  - rewrite filter_app, (filter_Forall_nil _ new), app_nil_r.
    + apply filter_Forall_id, Forall_forall. intros ln Hln E. specialize (Hfk ln Hln).
      apply next_id_fresh in Hfk. rewrite E in Hfk.
      unfold new_batch in Hfk; cbn in Hfk. lia.
    + eapply Forall_impl; [exact Hnew|]. cbn. intros ln E Hne. by apply Hne.
Qed.

Lemma line_totals_one ln : line_totals [ln] [] = [(line_product_id ln, line_qty ln)].
Proof. done. Qed.

Lemma one_new_line (new : list StockMoveLine) p Q :
  line_entry <$> new = [(p, Q)] →
  ∃ ln, new = [ln] ∧ line_product_id ln = p ∧ line_qty ln = Q.
Proof.
  destruct new as [|ln [|ln' rest]]; intros H; cbn in H; try discriminate H.
  exists ln. unfold line_entry in H. by simplify_eq.
Qed.

(** X12. A batch whose lines all name one product is undone exactly by its
    reversal: applied to a state with no negative balance and reversed at
    once, the reversal of an INBOUND, OUTBOUND or TRANSFER batch succeeds,
    every balance is back at the quantity it had before, and the batch and
    its line are gone from otherwise unchanged event tables. *)
Theorem single_product_batch_round_trip type from to ts lns p db db1 b :
  nonneg_balances db → fk_lines db → Forall (λ x, x.1 = p) lns →
  apply_stock_batch_move type from to ts lns db = (db1, Ok b) →
  ∃ db2, reverse_stock_batch_move b db1 = (db2, Ok tt)
    ∧ (∀ p' l', on_hand_of db2 p' l' = on_hand_of db p' l')
    ∧ moves db2 = moves db ∧ batches db2 = batches db ∧ lines db2 = lines db.
Proof.
  intros Hinv Hfk Hall H.
  destruct (apply_batch_ok_inv _ _ _ _ _ _ _ _ H)
    as (totals & Hg & Hne & -> & dbm & -> & Hcases).
  destruct (group_lines_spec _ _ Hg) as (Hnd & Hel & _ & Hpos & Hnn & _).
  assert (Forall (λ x, x.1 = p) totals) as Hallt.
  { apply Forall_forall. intros [k v] Hin. cbn.
    assert (k ∈ lns.*1) as Hk by (apply Hel, list_elem_of_fmap; by exists (k, v)).
    apply list_elem_of_fmap in Hk as ([k' v'] & -> & Hin').
    by apply (proj1 (Forall_forall _ _) Hall (k', v')). }
  destruct (totals_of_one_product totals p Hnd Hallt (Hnn Hne)) as [Q ->].
  apply Forall_cons in Hpos as [HQ _]. cbn in HQ.
  set (b := new_batch db type from to ts) in *.
  assert (lines dbm = lines db ∧ batches dbm = batches db ∧ moves dbm = moves db)
    as (Hldbm & Hbdbm & Hmdbm).
  { destruct Hcases as [(_ & l & _ & ->) | [(_ & l & _ & _ & ->)
                                           | (_ & s & t & _ & _ & _ & _ & ->)]].
    - by rewrite lines_credit_all, lines_touch_all, batches_credit_all,
        batches_touch_all, moves_credit_all, moves_touch_all.
    - by rewrite lines_debit_all, lines_touch_all, batches_debit_all,
        batches_touch_all, moves_debit_all, moves_touch_all.
    - by rewrite lines_transfer_all, !lines_touch_all, batches_transfer_all,
        !batches_touch_all, moves_transfer_all, !moves_touch_all. }
  destruct (lines_of_new_batch db dbm type from to ts [(p, Q)] Hfk Hldbm)
    as (new & Hl & Hbl & He & Hnew).
  fold b in Hl, Hbl, Hnew.
  destruct (one_new_line _ _ _ He) as (ln & -> & Hlp & Hlq).
  destruct (with_lines_spec b [(p, Q)] (with_batch b dbm))
    as (_ & _ & _ & _ & Hbs & Hlv & Hmv).
  set (db1 := with_lines b [(p, Q)] (with_batch b dbm)) in *.
  assert (Hbal1 : ∀ p' l', on_hand_of db1 p' l' = on_hand_of dbm p' l').
  { intros p' l'. by apply on_hand_of_levels. }
  assert (Htab : ∀ dbx, batches dbx = batches db1 → lines dbx = lines db1 →
            moves dbx = moves db1 →
            moves (without_batch b dbx) = moves db
            ∧ batches (without_batch b dbx) = batches db
            ∧ lines (without_batch b dbx) = lines db).
  { intros dbx Hb1 Hl1 Hm1. split.
    - change (moves (without_batch b dbx)) with (moves dbx). rewrite Hm1, Hmv.
      by change (moves (with_batch b dbm)) with (moves dbm).
    - apply (without_new_batch_tables db dbx type from to ts [ln]); try done.
      + rewrite Hb1, Hbs. change (batches (with_batch b dbm)) with (batches dbm ++ [b]).
        by rewrite Hbdbm.
      + by rewrite Hl1, Hl. }
  destruct Hcases as [(-> & l & -> & Hdbm) | [(-> & l & -> & Hfs & Hdbm)
                                            | (-> & s & t & -> & -> & Hst & Hfs & Hdbm)]].
  - rewrite (reverse_inbound_batch_eq b l ln []) by done.
    rewrite line_totals_one, Hlp, Hlq. rewrite first_short_one.
    assert (on_hand_of db1 p l = on_hand_of db p l + Q) as Hb.
    { rewrite Hbal1, Hdbm, on_hand_of_credit_all, on_hand_of_touch_all. cbn.
      rewrite decide_True, N.eqb_refl by done. lia. }
    rewrite (proj2 (Z.ltb_ge _ _)) by (specialize (Hinv p l); lia).
    eexists. split; [done|]. split.
    + intros p' l'. change (on_hand_of (without_batch ?b ?d)) with (on_hand_of d).
      rewrite on_hand_of_debit_all, on_hand_of_touch_all, Hbal1, Hdbm.
      rewrite on_hand_of_credit_all, on_hand_of_touch_all, qty_of_same_product.
      change (sum_qty [(p, Q)]) with (Q + 0). cbn.
      case_decide; destruct (N.eqb p p'); lia.
    + apply Htab.
      * by rewrite batches_debit_all, batches_touch_all.
      * by rewrite lines_debit_all, lines_touch_all.
      * by rewrite moves_debit_all, moves_touch_all.
  - rewrite (reverse_outbound_batch_eq b l ln []) by done.
    rewrite line_totals_one, Hlp, Hlq.
    eexists. split; [done|]. split.
    + intros p' l'. change (on_hand_of (without_batch ?b ?d)) with (on_hand_of d).
      rewrite on_hand_of_credit_all, on_hand_of_touch_all, Hbal1, Hdbm.
      rewrite on_hand_of_debit_all, on_hand_of_touch_all, qty_of_same_product.
      change (sum_qty [(p, Q)]) with (Q + 0). cbn.
      case_decide; destruct (N.eqb p p'); lia.
    + apply Htab.
      * by rewrite batches_credit_all, batches_touch_all.
      * by rewrite lines_credit_all, lines_touch_all.
      * by rewrite moves_credit_all, moves_touch_all.
  - rewrite (reverse_transfer_batch_eq b s t ln []) by done.
    rewrite line_totals_one, Hlp, Hlq. rewrite first_short_one.
    assert (on_hand_of db1 p t = on_hand_of db p t + Q) as Hb.
    { rewrite Hbal1, Hdbm, on_hand_of_transfer_all, !on_hand_of_touch_all. cbn.
      rewrite decide_True, N.eqb_refl, decide_False by done. lia. }
    rewrite (proj2 (Z.ltb_ge _ _)) by (specialize (Hinv p t); lia).
    eexists. split; [done|]. split.
    + intros p' l'. change (on_hand_of (without_batch ?b ?d)) with (on_hand_of d).
      rewrite on_hand_of_transfer_all, on_hand_of_touch_both, Hbal1, Hdbm.
      rewrite on_hand_of_transfer_all, !on_hand_of_touch_all, qty_of_same_product.
      change (sum_qty [(p, Q)]) with (Q + 0). cbn.
      repeat case_decide; destruct (N.eqb p p'); lia.
    + destruct (tables_touch_both [(p, Q)] p s t db1) as (Hm' & Hb' & Hl').
      apply Htab.
      * by rewrite batches_transfer_all.
      * by rewrite lines_transfer_all.
      * by rewrite moves_transfer_all.
Qed.

Lemma one_product_batch_scenario :
  ∃ db2,
    reverse_stock_batch_move (sample_batch TRANSFER (Some 1%N) (Some 2%N))
      (apply_stock_batch_move TRANSFER (Some 1%N) (Some 2%N) 0
         [(3%N, 300); (3%N, 100)] (main_with 3%N 1000)).1
    = (db2, Ok tt)
    ∧ (∀ p' l', on_hand_of db2 p' l' = on_hand_of (main_with 3%N 1000) p' l')
    ∧ moves db2 = moves (main_with 3%N 1000)
    ∧ batches db2 = batches (main_with 3%N 1000)
    ∧ lines db2 = lines (main_with 3%N 1000).
Proof.
  apply (single_product_batch_round_trip TRANSFER (Some 1%N) (Some 2%N) 0
           [(3%N, 300); (3%N, 100)] 3%N (main_with 3%N 1000)).
  - apply nonneg_main_with. lia.
  - intros ln Hln. by apply elem_of_nil in Hln.
  - repeat constructor.
  - vm_compute. reflexivity.
Defined.

(** * Further properties of the serializer and the views *)

(** ** Validation of a single-movement request *)

(** X13. [StockMoveSerializer.validate] accepts a request, and returns it
    unchanged, exactly when its quantity is present and strictly positive, an
    INBOUND request has a destination, an OUTBOUND request has a source, and
    a TRANSFER request has a source and a destination that differ; every
    other request is refused with a [ValidationError]. *)
Theorem validate_accepts_iff_well_formed attrs :
  (∀ out, StockMoveSerializer_validate attrs = Ok out ↔
     out = attrs
     ∧ (∃ q, attr_qty attrs = Some q ∧ 0 < q)
     ∧ (attr_type attrs = INBOUND → is_Some (attr_to_location attrs))
     ∧ (attr_type attrs = OUTBOUND → is_Some (attr_from_location attrs))
     ∧ (attr_type attrs = TRANSFER →
        ∃ src dst, attr_from_location attrs = Some src
                   ∧ attr_to_location attrs = Some dst ∧ src ≠ dst))
  ∧ (∀ e, StockMoveSerializer_validate attrs = Raise e → ∃ msg, e = ValidationError msg).
Proof.
  unfold StockMoveSerializer_validate.
  destruct (attr_qty attrs) as [q|] eqn:Eq; cbn.
  2:{ split; [|intros e ?; simplify_eq; eauto].
      intros out. split; [done|]. by intros (_ & (q & ? & _) & _). }
  destruct (Z.leb_spec q 0) as [Hq|Hq].
  { split; [|intros e ?; simplify_eq; eauto].
    intros out. split; [done|]. intros (_ & (q' & ? & ?) & _). simplify_eq. lia. }
  destruct (String.eqb_spec (attr_type attrs) INBOUND) as [Ht|Hin].
  { rewrite Ht. cbn. destruct (attr_to_location attrs) as [l|] eqn:Hto; cbn.
    - split; [|done]. intros out. split.
      + intros [= <-]. repeat split; eauto; intros E; discriminate E.
      + by intros (-> & _).
    - split; [|intros e ?; simplify_eq; eauto].
      intros out. split; [done|]. intros (_ & _ & H & _).
      destruct (H eq_refl) as [? ?]. done. }
  destruct (String.eqb_spec (attr_type attrs) OUTBOUND) as [Ht|Hout].
  { rewrite Ht. cbn. destruct (attr_from_location attrs) as [l|] eqn:Hfrom; cbn.
    - split; [|done]. intros out. split.
      + intros [= <-]. repeat split; eauto; intros E; discriminate E.
      + by intros (-> & _).
    - split; [|intros e ?; simplify_eq; eauto].
      intros out. split; [done|]. intros (_ & _ & _ & H & _).
      destruct (H eq_refl) as [? ?]. done. }
  destruct (String.eqb_spec (attr_type attrs) TRANSFER) as [Ht|Htr].
  { rewrite Ht. cbn.
    destruct (attr_from_location attrs) as [src|] eqn:Hfrom,
             (attr_to_location attrs) as [dst|] eqn:Hto; cbn.
    - destruct (N.eqb_spec src dst) as [->|Hne].
      + split; [|intros e ?; simplify_eq; eauto].
        intros out. split; [done|]. intros (_ & _ & _ & _ & H).
        destruct (H eq_refl) as (s & t & ? & ? & ?). simplify_eq.
      + split; [|done]. intros out. split.
        * intros [= <-]. repeat split; eauto; try (intros E; discriminate E).
        * by intros (-> & _).
    - split; [|intros e ?; simplify_eq; eauto].
      intros out. split; [done|]. intros (_ & _ & _ & _ & H).
      destruct (H eq_refl) as (s & t & ? & ? & ?). simplify_eq.
    - split; [|intros e ?; simplify_eq; eauto].
      intros out. split; [done|]. intros (_ & _ & _ & _ & H).
      destruct (H eq_refl) as (s & t & ? & ? & ?). simplify_eq.
    - split; [|intros e ?; simplify_eq; eauto].
      intros out. split; [done|]. intros (_ & _ & _ & _ & H).
      destruct (H eq_refl) as (s & t & ? & ? & ?). simplify_eq. }
  cbn. split; [|done]. intros out. split.
  - intros [= <-]. repeat split; eauto; done.
  - by intros (-> & _).
Qed.

Lemma validate_Ok_inv attrs out :
  StockMoveSerializer_validate attrs = Ok out →
  out = attrs
  ∧ (∃ q, attr_qty attrs = Some q ∧ 0 < q)
  ∧ (attr_type attrs = INBOUND → is_Some (attr_to_location attrs))
  ∧ (attr_type attrs = OUTBOUND → is_Some (attr_from_location attrs))
  ∧ (attr_type attrs = TRANSFER →
     ∃ src dst, attr_from_location attrs = Some src
                ∧ attr_to_location attrs = Some dst ∧ src ≠ dst).
Proof.
  unfold StockMoveSerializer_validate.
  destruct (attr_qty attrs) as [q|] eqn:Eq; cbn; [|done].
  destruct (Z.leb_spec q 0) as [Hq|Hq]; [done|].
  destruct (String.eqb_spec (attr_type attrs) INBOUND) as [Ht|Hin].
  { rewrite Ht. cbn. destruct (attr_to_location attrs) as [l|]; cbn; [|done].
    intros [= <-]. repeat split; eauto; intros E; discriminate E. }
  destruct (String.eqb_spec (attr_type attrs) OUTBOUND) as [Ht|Hout].
  { rewrite Ht. cbn. destruct (attr_from_location attrs) as [l|]; cbn; [|done].
    intros [= <-]. repeat split; eauto; intros E; discriminate E. }
  destruct (String.eqb_spec (attr_type attrs) TRANSFER) as [Ht|Htr].
  { rewrite Ht. cbn.
    destruct (attr_from_location attrs) as [src|], (attr_to_location attrs) as [dst|];
      cbn; try done.
    destruct (N.eqb_spec src dst) as [->|Hne]; [done|].
    intros [= <-]. repeat split; eauto; intros E; discriminate E. }
  cbn. intros [= <-]. repeat split; eauto; done.
Qed.

(** X14. Once [StockMoveSerializer.validate] has accepted a request of a
    known kind, the service can refuse it for one reason only, insufficient
    stock at the source: saving it either records the movement or raises a
    [ValidationError] carrying one of the two insufficient-stock messages and
    changes nothing.  The shape checks of the service never fire after
    validation. *)
Theorem validated_request_fails_only_on_stock attrs now db :
  known_kind (attr_type attrs) →
  (∃ out, StockMoveSerializer_validate attrs = Ok out) →
  (∃ db' mv, StockMoveSerializer_save attrs now db = (db', Ok mv))
  ∨ (attr_type attrs = OUTBOUND
     ∧ StockMoveSerializer_save attrs now db
       = (db, Raise (ValidationError "Insufficient stock at source location.")))
  ∨ (attr_type attrs = TRANSFER
     ∧ StockMoveSerializer_save attrs now db
       = (db, Raise (ValidationError
                       "Insufficient stock at source location for transfer."))).
Proof.
  intros Hkind [out Hv].
  destruct (validate_Ok_inv _ _ Hv) as (-> & (q & Hq & Hpos) & Hin & Hout & Htr).
  unfold StockMoveSerializer_save. rewrite Hv. unfold StockMoveSerializer_create.
  rewrite Hq.
  destruct Hkind as [Ht|[Ht|Ht]]; rewrite Ht.
  - destruct (Hin Ht) as [l ->]. rewrite apply_inbound_eq by done. left. eauto.
  - destruct (Hout Ht) as [l ->].
    destruct (Z.lt_ge_cases (on_hand_of db (attr_product attrs) l) q).
    + rewrite apply_outbound_short by done. right; left. done.
    + rewrite apply_outbound_eq by done. left. eauto.
  - destruct (Htr Ht) as (src & dst & -> & -> & Hne).
    destruct (Z.lt_ge_cases (on_hand_of db (attr_product attrs) src) q).
    + rewrite apply_transfer_short by done. right; right. done.
    + rewrite apply_transfer_eq by done. left. eauto.
Qed.

Lemma validated_outbound_scenario :
  (∃ db' mv,
     StockMoveSerializer_save (sample_attrs OUTBOUND 600 (Some 1%N) None) 0
                              (main_with 1%N 500) = (db', Ok mv))
  ∨ (attr_type (sample_attrs OUTBOUND 600 (Some 1%N) None) = OUTBOUND
     ∧ StockMoveSerializer_save (sample_attrs OUTBOUND 600 (Some 1%N) None) 0
                                (main_with 1%N 500)
       = (main_with 1%N 500,
          Raise (ValidationError "Insufficient stock at source location.")))
  ∨ (attr_type (sample_attrs OUTBOUND 600 (Some 1%N) None) = TRANSFER
     ∧ StockMoveSerializer_save (sample_attrs OUTBOUND 600 (Some 1%N) None) 0
                                (main_with 1%N 500)
       = (main_with 1%N 500,
          Raise (ValidationError
                   "Insufficient stock at source location for transfer."))).
Proof.
  apply (validated_request_fails_only_on_stock
           (sample_attrs OUTBOUND 600 (Some 1%N) None) 0 (main_with 1%N 500)).
  - right; left. reflexivity.
  - eexists. vm_compute. reflexivity.
Defined.

(** X15. [StockMoveSerializer.create] surfaces every refusal of the service
    as a [ValidationError] with the service's message and leaves the state
    as it was; a [StockError], or any other exception, never leaves it. *)
Theorem create_raises_only_validation_errors validated_data now db :
  (∃ db' mv, StockMoveSerializer_create validated_data now db = (db', Ok mv)
     ∧ apply_stock_move (attr_type validated_data) (attr_product validated_data)
         (attr_qty validated_data) (attr_from_location validated_data)
         (attr_to_location validated_data)
         (default now (attr_timestamp validated_data)) db = (db', Ok mv))
  ∨ (∃ msg, StockMoveSerializer_create validated_data now db
            = (db, Raise (ValidationError msg))
     ∧ apply_stock_move (attr_type validated_data) (attr_product validated_data)
         (attr_qty validated_data) (attr_from_location validated_data)
         (attr_to_location validated_data)
         (default now (attr_timestamp validated_data)) db
       = (db, Raise (StockError msg))).
Proof.
  unfold StockMoveSerializer_create.
  destruct (apply_stock_move_outcome (attr_type validated_data)
              (attr_product validated_data) (attr_qty validated_data)
              (attr_from_location validated_data) (attr_to_location validated_data)
              (default now (attr_timestamp validated_data)) db)
    as [[msg ->]|(db' & mv & ->)].
  - right. eauto.
  - left. eauto.
Qed.

(** ** Deleting a movement or a batch through the views *)

Lemma reverse_stock_move_ok_inv mv db db' :
  reverse_stock_move mv db = (db', Ok tt) →
  ∃ dbm, db' = without_move mv dbm
    ∧ moves dbm = moves db ∧ batches dbm = batches db ∧ lines dbm = lines db.
Proof.
  intros H.
  destruct (String.eqb_spec (move_type mv) INBOUND) as [Ht|Hin].
  { destruct (move_to_location mv) as [l|] eqn:Hto.
    - destruct (Z.lt_ge_cases (on_hand_of db (move_product mv) l) (move_qty mv)).
      + rewrite (reverse_inbound_short _ l) in H by done. discriminate H.
      + rewrite (reverse_inbound_eq _ l) in H by done. simplify_eq. eauto.
    - exfalso. revert H. reverse_raises. }
  destruct (String.eqb_spec (move_type mv) OUTBOUND) as [Ht|Hout].
  { destruct (move_from_location mv) as [l|] eqn:Hfrom.
    - rewrite (reverse_outbound_eq _ l) in H by done. simplify_eq. eauto.
    - exfalso. revert H. reverse_raises. }
  destruct (String.eqb_spec (move_type mv) TRANSFER) as [Ht|Htr].
  { destruct (move_from_location mv) as [src|] eqn:Hfrom,
             (move_to_location mv) as [dst|] eqn:Hto;
      try (exfalso; revert H; reverse_raises).
    destruct (Z.lt_ge_cases (on_hand_of db (move_product mv) dst) (move_qty mv)).
    - rewrite (reverse_transfer_short _ src dst) in H by done. discriminate H.
    - rewrite (reverse_transfer_eq _ src dst) in H by done. simplify_eq. eauto. }
  exfalso. revert H.
  unfold reverse_stock_move, atomic, reverse_stock_move_body, bind.
  by rewrite (proj2 (String.eqb_neq _ _)), (proj2 (String.eqb_neq _ _)),
    (proj2 (String.eqb_neq _ _)) by done.
Qed.

Lemma head_filter_None {A} (P : A → Prop) `{!∀ x, Decision (P x)} (l : list A) :
  (∀ x, x ∈ l → ¬ P x) → head (filter P l) = None.
Proof.
  intros Hall. rewrite filter_Forall_nil; [done|]. by apply Forall_forall.
Qed.

Lemma head_filter_Some_inv {A} (P : A → Prop) `{!∀ x, Decision (P x)} (l : list A) x :
  head (filter P l) = Some x → P x ∧ x ∈ l.
Proof.
  intros Hh. apply (proj1 (list_elem_of_filter P l x)).
  destruct (filter P l); [done|]. cbn in Hh. simplify_eq. by apply elem_of_cons; left.
Qed.

(** X16. Deleting a movement through its view: a key no recorded movement has
    is answered 404 with nothing changed; the view never lets an exception
    through, and only a 204 changes the state; after a 204 no movement has
    that key any more, so deleting it a second time is answered 404 and
    changes nothing: a movement cannot be reversed twice. *)
Theorem destroy_stock_move_outcomes :
  (∀ pk db,
     (∀ m, m ∈ moves db → move_id m ≠ pk) →
     StockMoveViewSet_destroy pk db = (db, Ok NotFound))
  ∧ (∀ pk db,
       ∃ db' resp,
         StockMoveViewSet_destroy pk db = (db', Ok resp)
         ∧ (resp = NoContent
            ∨ (db' = db ∧ (resp = NotFound ∨ ∃ detail, resp = BadRequest detail))))
  ∧ (∀ pk db db',
       StockMoveViewSet_destroy pk db = (db', Ok NoContent) →
       (∀ m, m ∈ moves db' → move_id m ≠ pk)
       ∧ StockMoveViewSet_destroy pk db' = (db', Ok NotFound)).
Proof.
  assert (Hnf : ∀ pk db, (∀ m, m ∈ moves db → move_id m ≠ pk) →
            StockMoveViewSet_destroy pk db = (db, Ok NotFound)).
  { intros pk db H. unfold StockMoveViewSet_destroy.
    by rewrite head_filter_None. }
  split; [done|]. split.
  - intros pk db. unfold StockMoveViewSet_destroy.
    destruct (head (filter (λ m, move_id m = pk) (moves db))) as [mv|]; [|eauto 10].
    destruct (reverse_stock_move_outcome mv db) as [[msg ->]|(db' & ->)]; eauto 10.
  - intros pk db db' H. unfold StockMoveViewSet_destroy in H.
    destruct (head (filter (λ m, move_id m = pk) (moves db))) as [mv|] eqn:Hh;
      [|discriminate H].
    apply head_filter_Some_inv in Hh as [Hid _].
    destruct (reverse_stock_move mv db) as [db1 [[]|e]] eqn:Hr.
    2:{ destruct e; discriminate H. }
    simplify_eq.
    destruct (reverse_stock_move_ok_inv _ _ _ Hr) as (dbm & -> & Hm & _).
    assert (∀ m, m ∈ moves (without_move mv dbm) → move_id m ≠ move_id mv) as Hgone.
    { intros m Hin. unfold without_move in Hin; cbn in Hin.
      by apply list_elem_of_filter in Hin as [? _]. }
    split; [done|]. by apply Hnf.
Qed.

Lemma destroy_twice_scenario :
  StockMoveViewSet_destroy 7 shipped_once = (shipped_once, Ok NotFound)
  ∧ (∀ m, m ∈ moves (StockMoveViewSet_destroy 1 shipped_once).1 → move_id m ≠ 1%N)
  ∧ StockMoveViewSet_destroy 1 (StockMoveViewSet_destroy 1 shipped_once).1
    = ((StockMoveViewSet_destroy 1 shipped_once).1, Ok NotFound).
Proof.
  destruct destroy_stock_move_outcomes as (Hnf & _ & Htwice). split.
  - apply Hnf. intros m Hm. vm_compute in Hm.
    apply list_elem_of_singleton in Hm as ->. discriminate.
  - apply (Htwice 1%N shipped_once). vm_compute. reflexivity.
Defined.

(** X17. Deleting a batch through its view: a key no recorded batch has is
    answered 404 with nothing changed; any answer other than 204, and any
    exception, leaves the state as it was; after a 204 the batch and every
    line of it are gone, the other batches, lines and movements are as
    before, and deleting the batch a second time is answered 404. *)
Theorem destroy_stock_batch_outcomes :
  (∀ pk db,
     (∀ b, b ∈ batches db → batch_id b ≠ pk) →
     StockMoveBatchViewSet_destroy pk db = (db, Ok NotFound))
  ∧ (∀ pk db db' r,
       StockMoveBatchViewSet_destroy pk db = (db', r) → r ≠ Ok NoContent → db' = db)
  ∧ (∀ pk db db',
       StockMoveBatchViewSet_destroy pk db = (db', Ok NoContent) →
       batches db' = filter (λ b, batch_id b ≠ pk) (batches db)
       ∧ lines db' = filter (λ ln, line_batch_id ln ≠ pk) (lines db)
       ∧ moves db' = moves db
       ∧ StockMoveBatchViewSet_destroy pk db' = (db', Ok NotFound)).
Proof.
  assert (Hnf : ∀ pk db, (∀ b, b ∈ batches db → batch_id b ≠ pk) →
            StockMoveBatchViewSet_destroy pk db = (db, Ok NotFound)).
  { intros pk db H. unfold StockMoveBatchViewSet_destroy.
    by rewrite head_filter_None. }
  split; [done|]. split.
  - intros pk db db' r H Hr. unfold StockMoveBatchViewSet_destroy in H.
    destruct (head (filter (λ b, batch_id b = pk) (batches db))) as [b|];
      [|by simplify_eq].
    destruct (reverse_stock_batch_move b db) as [db1 [[]|e]] eqn:Hrev.
    + by simplify_eq.
    + pose proof (atomic_raise _ _ _ _ Hrev) as ->. by destruct e; simplify_eq.
  - intros pk db db' H. unfold StockMoveBatchViewSet_destroy in H.
    destruct (head (filter (λ b, batch_id b = pk) (batches db))) as [b|] eqn:Hh;
      [|discriminate H].
    apply head_filter_Some_inv in Hh as [Hid _].
    destruct (reverse_stock_batch_move b db) as [db1 [[]|e]] eqn:Hr.
    2:{ destruct e; discriminate H. }
    simplify_eq.
    destruct (reverse_batch_ok_inv _ _ _ Hr) as (dbm & -> & Hm & Hb & Hls & _).
    unfold without_batch at 1 2 3; cbn. rewrite Hm, Hb, Hls.
    repeat split; try done.
    apply Hnf. intros b' Hin. unfold without_batch in Hin; cbn in Hin.
    by apply list_elem_of_filter in Hin as [? _].
Qed.

Lemma destroy_batch_twice_scenario :
  batches (StockMoveBatchViewSet_destroy 1 shipped_batch).1
  = filter (λ b, batch_id b ≠ 1%N) (batches shipped_batch)
  ∧ lines (StockMoveBatchViewSet_destroy 1 shipped_batch).1
    = filter (λ ln, line_batch_id ln ≠ 1%N) (lines shipped_batch)
  ∧ moves (StockMoveBatchViewSet_destroy 1 shipped_batch).1 = moves shipped_batch
  ∧ StockMoveBatchViewSet_destroy 1 (StockMoveBatchViewSet_destroy 1 shipped_batch).1
    = ((StockMoveBatchViewSet_destroy 1 shipped_batch).1, Ok NotFound).
Proof.
  destruct destroy_stock_batch_outcomes as (_ & _ & Htwice).
  apply (Htwice 1%N shipped_batch). vm_compute. reflexivity.
Defined.

(** ** The order and the threshold of the reorder suggestions *)

Lemma insert_desc_sorted x l :
  StronglySorted (λ r1 r2, sg_suggested_qty r2 ≤ sg_suggested_qty r1) l →
  StronglySorted (λ r1 r2, sg_suggested_qty r2 ≤ sg_suggested_qty r1) (insert_desc x l).
Proof.
  induction 1 as [|y l Hs IH Hy]; cbn.
  { repeat constructor. }
  destruct (Z.ltb_spec (sg_suggested_qty x) (sg_suggested_qty y)) as [Hlt|Hge].
  - constructor; [done|]. apply Forall_forall. intros z Hz.
    apply elem_of_insert_desc in Hz as [->|Hz]; [lia|].
    by apply (proj1 (Forall_forall _ _) Hy).
  - constructor; [by constructor|]. constructor; [done|].
    eapply Forall_impl; [exact Hy|]. cbn. intros z Hz. lia.
Qed.

Lemma sort_desc_sorted l :
  StronglySorted (λ r1 r2, sg_suggested_qty r2 ≤ sg_suggested_qty r1) (sort_desc l).
Proof.
  induction l as [|x l IH]; cbn; [constructor|]. by apply insert_desc_sorted.
Qed.

Lemma insert_desc_perm x l : insert_desc x l ≡ₚ x :: l.
Proof.
  induction l as [|y l IH]; cbn; [done|].
  destruct (sg_suggested_qty x <? sg_suggested_qty y); [|done].
  rewrite IH. apply Permutation_swap.
Qed.

Lemma sort_desc_perm l : sort_desc l ≡ₚ l.
Proof.
  induction l as [|x l IH]; cbn; [done|]. by rewrite insert_desc_perm, IH.
Qed.

Lemma rows_products_NoDup days C m (bal : Product → Z) (totals : list (Product * Z)) :
  NoDup totals.*1 →
  NoDup (sg_product <$>
           omap (λ '(pid, total_out), suggestion_row days C m pid total_out (bal pid))
                totals)
  ∧ ∀ p, p ∈ sg_product <$>
               omap (λ '(pid, total_out), suggestion_row days C m pid total_out (bal pid))
                    totals → p ∈ totals.*1.
Proof.
  induction totals as [|[pid t] rest IH]; intros Hnd; cbn.
  { split; [constructor|done]. }
  cbn in Hnd. apply NoDup_cons in Hnd as [Hnin Hnd].
  destruct (IH Hnd) as [IHnd IHin].
  destruct (suggestion_row days C m pid t (bal pid)) as [row|] eqn:Hrow; cbn.
  - apply suggestion_row_Some in Hrow as (_ & _ & ->). cbn. split.
    + apply NoDup_cons. split; [|done]. intros Hin. by apply Hnin, IHin.
    + intros p Hp. apply elem_of_cons in Hp as [->|Hp]; apply elem_of_cons; eauto.
  - split; [done|]. intros p Hp. apply elem_of_cons; eauto.
Qed.

(** X18. The suggestions come out highest need first: the list is sorted by
    suggested quantity, descending, and it holds at most one row per
    product. *)
Theorem advisor_output_is_sorted W C min_qty now db :
  StronglySorted (λ r1 r2, sg_suggested_qty r2 ≤ sg_suggested_qty r1)
                 (ReorderSuggestionView_get W C min_qty now db)
  ∧ NoDup (sg_product <$> ReorderSuggestionView_get W C min_qty now db).
Proof.
  unfold ReorderSuggestionView_get. split; [apply sort_desc_sorted|].
  rewrite sort_desc_perm.
  apply (rows_products_NoDup _ _ _ (on_hand_total db)).
  apply advisor_totals_spec.
Qed.

(** X19. Raising the minimum quantity only removes suggestions: every row
    reported under a higher threshold is reported, unchanged, under any lower
    one. *)
Theorem advisor_threshold_only_removes W C m1 m2 now db row :
  m1 ≤ m2 →
  row ∈ ReorderSuggestionView_get W C m2 now db →
  row ∈ ReorderSuggestionView_get W C m1 now db.
Proof.
  intros Hle. unfold ReorderSuggestionView_get.
  rewrite !elem_of_sort_desc, !list_elem_of_omap.
  intros ([pid t] & Hin & Hrow). exists (pid, t). split; [done|].
  apply suggestion_row_Some in Hrow as (Hpos & Hmin & ->).
  apply suggestion_row_Some. repeat split; [done|lia].
Qed.

Lemma advisor_threshold_scenario :
  {| sg_product := 1%N; sg_avg_daily_demand := 1000; sg_on_hand_total := 1000;
     sg_suggested_qty := 6000; sg_window_days := 14; sg_coverage_days := 7 |}
  ∈ ReorderSuggestionView_get 14 7 0 (101 * day) scenario_140.
Proof.
  apply (advisor_threshold_only_removes 14 7 0 5000 (101 * day) scenario_140).
  - lia.
  - assert (ReorderSuggestionView_get 14 7 5000 (101 * day) scenario_140
            = [ {| sg_product := 1%N; sg_avg_daily_demand := 1000;
                   sg_on_hand_total := 1000; sg_suggested_qty := 6000;
                   sg_window_days := 14; sg_coverage_days := 7 |} ]) as ->
      by (vm_compute; reflexivity).
    apply elem_of_cons. left. reflexivity.
Defined.

(** ** The catalogue views: what protects a row and what goes with it *)

Lemma on_hand_of_without_product pk db p l :
  on_hand_of (set_levels (filter (λ kv, kv.1.1 ≠ pk)) db) p l
  = if decide (p = pk) then 0 else on_hand_of db p l.
Proof.
  unfold on_hand_of, set_levels; cbn.
  destruct (levels db !! (p, l)) as [v|] eqn:E.
  - case_decide as Hp.
    + rewrite (proj2 (map_lookup_filter_None _ _ _)); [done|].
      right. intros v' _ Hne. by apply Hne.
    + rewrite (proj2 (map_lookup_filter_Some _ _ _ v)); [done|]. by split.
  - rewrite (proj2 (map_lookup_filter_None _ _ _)); [by case_decide|]. by left.
Qed.

Lemma on_hand_of_without_location pk db p l :
  on_hand_of (set_levels (filter (λ kv, kv.1.2 ≠ pk)) db) p l
  = if decide (l = pk) then 0 else on_hand_of db p l.
Proof.
  unfold on_hand_of, set_levels; cbn.
  destruct (levels db !! (p, l)) as [v|] eqn:E.
  - case_decide as Hp.
    + rewrite (proj2 (map_lookup_filter_None _ _ _)); [done|].
      right. intros v' _ Hne. by apply Hne.
    + rewrite (proj2 (map_lookup_filter_Some _ _ _ v)); [done|]. by split.
  - rewrite (proj2 (map_lookup_filter_None _ _ _)); [by case_decide|]. by left.
Qed.

Lemma filter_nil_not_elem_of {A} (P : A → Prop) `{!∀ x, Decision (P x)} l x :
  filter P l = [] → x ∈ l → ¬ P x.
Proof.
  intros Hnil Hin HP.
  assert (x ∈ filter P l) as Hx by (apply (proj2 (list_elem_of_filter P l x)); by split).
  rewrite Hnil in Hx. by apply elem_of_nil in Hx.
Qed.

Lemma filter_cons_elem_of {A} (P : A → Prop) `{!∀ x, Decision (P x)} l y ys :
  filter P l = y :: ys → y ∈ l ∧ P y.
Proof.
  intros Heq.
  assert (y ∈ filter P l) as Hy by (rewrite Heq; apply elem_of_cons; by left).
  apply (proj1 (list_elem_of_filter P l y)) in Hy as [? ?]. by split.
Qed.

Lemma Product_delete_Some pk site site' :
  Product_delete pk site = Some site' →
  (∀ m, m ∈ moves (ledger site) → move_product m ≠ pk)
  ∧ (∀ ln, ln ∈ lines (ledger site) → line_product_id ln ≠ pk)
  ∧ site' = {| products := products site ∖ {[pk]};
               locations := locations site;
               ledger := set_levels (filter (λ kv, kv.1.1 ≠ pk)) (ledger site) |}.
Proof.
  unfold Product_delete.
  destruct (product_stock_moves pk (ledger site)) as [|m ms] eqn:Hm; [|done].
  destruct (product_stock_move_lines pk (ledger site)) as [|ln lns] eqn:Hl; [|done].
  intros [= <-]. split; [|split; [|done]].
  - intros m Hin. by apply (filter_nil_not_elem_of _ _ _ Hm).
  - intros ln Hin. by apply (filter_nil_not_elem_of _ _ _ Hl).
Qed.

Lemma Product_delete_None pk site :
  Product_delete pk site = None →
  (∃ m, m ∈ moves (ledger site) ∧ move_product m = pk)
  ∨ (∃ ln, ln ∈ lines (ledger site) ∧ line_product_id ln = pk).
Proof.
  unfold Product_delete.
  destruct (product_stock_moves pk (ledger site)) as [|m ms] eqn:Hm.
  - destruct (product_stock_move_lines pk (ledger site)) as [|ln lns] eqn:Hl; [done|].
    intros _. right.
    exists ln. by apply (filter_cons_elem_of _ _ _ _ Hl).
  - intros _. left. exists m. by apply (filter_cons_elem_of _ _ _ _ Hm).
Qed.

Lemma Location_delete_Some pk site site' :
  Location_delete pk site = Some site' →
  (∀ m, m ∈ moves (ledger site) →
        move_from_location m ≠ Some pk ∧ move_to_location m ≠ Some pk)
  ∧ (∀ b, b ∈ batches (ledger site) →
          batch_from_location b ≠ Some pk ∧ batch_to_location b ≠ Some pk)
  ∧ site' = {| products := products site;
               locations := locations site ∖ {[pk]};
               ledger := set_levels (filter (λ kv, kv.1.2 ≠ pk)) (ledger site) |}.
Proof.
  unfold Location_delete.
  destruct (stock_moves_from pk (ledger site)) as [|m1 ms1] eqn:Hmf;
    destruct (stock_moves_to pk (ledger site)) as [|m2 ms2] eqn:Hmt;
    destruct (stock_batches_from pk (ledger site)) as [|b1 bs1] eqn:Hbf;
    destruct (stock_batches_to pk (ledger site)) as [|b2 bs2] eqn:Hbt; try done.
  intros [= <-]. split; [|split; [|done]].
  - intros m Hin. split.
    + by apply (filter_nil_not_elem_of _ _ _ Hmf).
    + by apply (filter_nil_not_elem_of _ _ _ Hmt).
  - intros b Hin. split.
    + by apply (filter_nil_not_elem_of _ _ _ Hbf).
    + by apply (filter_nil_not_elem_of _ _ _ Hbt).
Qed.

Lemma Location_delete_None pk site :
  Location_delete pk site = None →
  (∃ m, m ∈ moves (ledger site)
        ∧ (move_from_location m = Some pk ∨ move_to_location m = Some pk))
  ∨ (∃ b, b ∈ batches (ledger site)
          ∧ (batch_from_location b = Some pk ∨ batch_to_location b = Some pk)).
Proof.
  unfold Location_delete.
  destruct (stock_moves_from pk (ledger site)) as [|m1 ms1] eqn:Hmf;
    destruct (stock_moves_to pk (ledger site)) as [|m2 ms2] eqn:Hmt;
    destruct (stock_batches_from pk (ledger site)) as [|b1 bs1] eqn:Hbf;
    destruct (stock_batches_to pk (ledger site)) as [|b2 bs2] eqn:Hbt; try done; intros _;
    repeat match goal with
           | H : _ = _ :: _ |- _ =>
               apply filter_cons_elem_of in H as [? ?]
           end; eauto 6.
Qed.

(** X20. Deleting a product answers 404 for an unknown key; 409, changing
    nothing, exactly when a movement or a batch line names the product; and
    204 otherwise.  A successful deletion removes the product and its
    balances, whatever they hold: inventory levels never protect a product.
    Movements, batches, lines, locations and the balances of every other
    product are left as they were. *)
Theorem product_destroy_outcomes pk site :
  match ProductViewSet_destroy pk site with
  | (site', NotFound) => (pk ∉ products site) ∧ site' = site
  | (site', Conflict _ _) =>
      pk ∈ products site ∧ site' = site
      ∧ ((∃ m, m ∈ moves (ledger site) ∧ move_product m = pk)
         ∨ (∃ ln, ln ∈ lines (ledger site) ∧ line_product_id ln = pk))
  | (site', NoContent) =>
      pk ∈ products site
      ∧ (∀ m, m ∈ moves (ledger site) → move_product m ≠ pk)
      ∧ (∀ ln, ln ∈ lines (ledger site) → line_product_id ln ≠ pk)
      ∧ products site' = products site ∖ {[pk]}
      ∧ locations site' = locations site
      ∧ moves (ledger site') = moves (ledger site)
      ∧ batches (ledger site') = batches (ledger site)
      ∧ lines (ledger site') = lines (ledger site)
      ∧ (∀ p l, on_hand_of (ledger site') p l
                = if decide (p = pk) then 0 else on_hand_of (ledger site) p l)
  | (_, BadRequest _) => False
  end.
Proof.
  unfold ProductViewSet_destroy. case_decide as Hin; [|done].
  destruct (Product_delete pk site) as [site'|] eqn:Hd.
  - apply Product_delete_Some in Hd as (Hm & Hl & ->). cbn.
    split; [done|]. split; [exact Hm|]. split; [exact Hl|].
    repeat split; try done. intros p l. apply on_hand_of_without_product.
  - apply Product_delete_None in Hd. done.
Qed.

(** X21. Deleting a location answers 404 for an unknown key; 409, changing
    nothing, exactly when a movement or a batch has it as source or
    destination; and 204 otherwise.  A successful deletion removes the
    location and every balance held there; movements, batches, lines,
    products and the balances at other locations are left as they were. *)
Theorem location_destroy_outcomes pk site :
  match LocationViewSet_destroy pk site with
  | (site', NotFound) => (pk ∉ locations site) ∧ site' = site
  | (site', Conflict _ _) =>
      pk ∈ locations site ∧ site' = site
      ∧ ((∃ m, m ∈ moves (ledger site)
               ∧ (move_from_location m = Some pk ∨ move_to_location m = Some pk))
         ∨ (∃ b, b ∈ batches (ledger site)
                 ∧ (batch_from_location b = Some pk ∨ batch_to_location b = Some pk)))
  | (site', NoContent) =>
      pk ∈ locations site
      ∧ (∀ m, m ∈ moves (ledger site) →
              move_from_location m ≠ Some pk ∧ move_to_location m ≠ Some pk)
      ∧ (∀ b, b ∈ batches (ledger site) →
              batch_from_location b ≠ Some pk ∧ batch_to_location b ≠ Some pk)
      ∧ products site' = products site
      ∧ locations site' = locations site ∖ {[pk]}
      ∧ moves (ledger site') = moves (ledger site)
      ∧ batches (ledger site') = batches (ledger site)
      ∧ lines (ledger site') = lines (ledger site)
      ∧ (∀ p l, on_hand_of (ledger site') p l
                = if decide (l = pk) then 0 else on_hand_of (ledger site) p l)
  | (_, BadRequest _) => False
  end.
Proof.
  unfold LocationViewSet_destroy. case_decide as Hin; [|done].
  destruct (Location_delete pk site) as [site'|] eqn:Hd.
  - apply Location_delete_Some in Hd as (Hm & Hb & ->). cbn.
    split; [done|]. split; [exact Hm|]. split; [exact Hb|].
    repeat split; try done. intros p l. apply on_hand_of_without_location.
  - apply Location_delete_None in Hd. done.
Qed.

Lemma lookup_filter_is_Some (P : (N * N) * Z → Prop) `{!∀ x, Decision (P x)}
    (m : gmap (N * N) Z) k :
  is_Some (filter P m !! k) → ∃ v, m !! k = Some v ∧ P (k, v).
Proof.
  intros [v Hv]. apply map_lookup_filter_Some in Hv as [? ?]. eauto.
Qed.

(** X22. The catalogue deletions keep the stock tables consistent: if every
    movement, batch, line and balance names a product and locations that
    exist, this still holds after [ProductViewSet.destroy] and after
    [LocationViewSet.destroy], whatever they answer. *)
Theorem destroy_keeps_references_valid pk site :
  well_referenced site →
  well_referenced (ProductViewSet_destroy pk site).1
  ∧ well_referenced (LocationViewSet_destroy pk site).1.
Proof.
  intros (Hmv & Hb & Hl & Hlv). split.
  - unfold ProductViewSet_destroy. case_decide as Hin; [|done].
    destruct (Product_delete pk site) as [site'|] eqn:Hd; [|done].
    apply Product_delete_Some in Hd as (Hm' & Hl' & ->). cbn.
    unfold well_referenced; cbn. split; [|split; [|split]].
    + intros m Hm. split; [|by apply (Hmv m)].
      apply elem_of_difference. split; [by apply Hmv|].
      intros E%elem_of_singleton. by apply (Hm' m).
    + intros b Hbin. by apply (Hb b).
    + intros ln Hln. apply elem_of_difference. split; [by apply Hl|].
      intros E%elem_of_singleton. by apply (Hl' ln).
    + intros p l (v & Hv & Hne)%lookup_filter_is_Some. cbn in Hne.
      destruct (Hlv p l) as [Hp Hloc]; [by eexists|]. split; [|done].
      apply elem_of_difference. split; [done|].
      by intros E%elem_of_singleton.
  - unfold LocationViewSet_destroy. case_decide as Hin; [|done].
    destruct (Location_delete pk site) as [site'|] eqn:Hd; [|done].
    apply Location_delete_Some in Hd as (Hm' & Hb' & ->). cbn.
    unfold well_referenced; cbn. split; [|split; [|split]].
    + intros m Hm. destruct (Hmv m Hm) as (Hp & Hf & Ht).
      destruct (Hm' m Hm) as [Hnf Hnt]. split; [done|]. split.
      * intros l Hfrom. apply elem_of_difference. split; [by apply Hf|].
        intros E%elem_of_singleton. subst. done.
      * intros l Hto. apply elem_of_difference. split; [by apply Ht|].
        intros E%elem_of_singleton. subst. done.
    + intros b Hbin. destruct (Hb b Hbin) as (Hf & Ht).
      destruct (Hb' b Hbin) as [Hnf Hnt]. split.
      * intros l Hfrom. apply elem_of_difference. split; [by apply Hf|].
        intros E%elem_of_singleton. subst. done.
      * intros l Hto. apply elem_of_difference. split; [by apply Ht|].
        intros E%elem_of_singleton. subst. done.
    + done.
    + intros p l (v & Hv & Hne)%lookup_filter_is_Some. cbn in Hne.
      destruct (Hlv p l) as [Hp Hloc]; [by eexists|]. split; [done|].
      apply elem_of_difference. split; [done|].
      by intros E%elem_of_singleton.
Qed.

Lemma site_of_main_well_referenced q : well_referenced (site_of (main_with 1%N q)).
Proof.
  unfold well_referenced, site_of, main_with; cbn. split; [|split; [|split]].
  - intros m Hm. by apply elem_of_nil in Hm.
  - intros b Hb. by apply elem_of_nil in Hb.
  - intros ln Hln. by apply elem_of_nil in Hln.
  - intros p l [v Hv]. apply lookup_singleton_Some in Hv as [[= <- <-] _].
    split; by apply elem_of_singleton.
Defined.

Lemma deleting_the_only_product_and_location :
  well_referenced (ProductViewSet_destroy 1%N (site_of (main_with 1%N 500))).1
  ∧ well_referenced (LocationViewSet_destroy 1%N (site_of (main_with 1%N 500))).1.
Proof.
  apply (destroy_keeps_references_valid 1%N (site_of (main_with 1%N 500))).
  apply site_of_main_well_referenced.
Defined.

(** ** Recorded events protect the rows they name *)

Lemma product_with_move_is_protected pk site m :
  pk ∈ products site → m ∈ moves (ledger site) → move_product m = pk →
  (ProductViewSet_destroy pk site).1 = site
  ∧ is_conflict (ProductViewSet_destroy pk site).2.
Proof.
  intros Hin Hm Hp. unfold ProductViewSet_destroy. case_decide; [|done].
  destruct (Product_delete pk site) as [site'|] eqn:Hd; [|done].
  apply Product_delete_Some in Hd as (Hm' & _). by destruct (Hm' m Hm).
Qed.

Lemma product_with_line_is_protected pk site ln :
  pk ∈ products site → ln ∈ lines (ledger site) → line_product_id ln = pk →
  (ProductViewSet_destroy pk site).1 = site
  ∧ is_conflict (ProductViewSet_destroy pk site).2.
Proof.
  intros Hin Hl Hp. unfold ProductViewSet_destroy. case_decide; [|done].
  destruct (Product_delete pk site) as [site'|] eqn:Hd; [|done].
  apply Product_delete_Some in Hd as (_ & Hl' & _). by destruct (Hl' ln Hl).
Qed.

Lemma location_with_move_is_protected pk site m :
  pk ∈ locations site → m ∈ moves (ledger site) →
  move_from_location m = Some pk ∨ move_to_location m = Some pk →
  (LocationViewSet_destroy pk site).1 = site
  ∧ is_conflict (LocationViewSet_destroy pk site).2.
Proof.
  intros Hin Hm Hp. unfold LocationViewSet_destroy. case_decide; [|done].
  destruct (Location_delete pk site) as [site'|] eqn:Hd; [|done].
  apply Location_delete_Some in Hd as (Hm' & _).
  destruct (Hm' m Hm) as [? ?]. by destruct Hp.
Qed.

Lemma location_with_batch_is_protected pk site b :
  pk ∈ locations site → b ∈ batches (ledger site) →
  batch_from_location b = Some pk ∨ batch_to_location b = Some pk →
  (LocationViewSet_destroy pk site).1 = site
  ∧ is_conflict (LocationViewSet_destroy pk site).2.
Proof.
  intros Hin Hb Hp. unfold LocationViewSet_destroy. case_decide; [|done].
  destruct (Location_delete pk site) as [site'|] eqn:Hd; [|done].
  apply Location_delete_Some in Hd as (_ & Hb' & _).
  destruct (Hb' b Hb) as [? ?]. by destruct Hp.
Qed.

Lemma apply_stock_move_recorded type p q from to ts db db' mv :
  apply_stock_move type p q from to ts db = (db', Ok mv) →
  mv ∈ moves db' ∧ move_product mv = p
  ∧ move_from_location mv = from ∧ move_to_location mv = to.
Proof.
  intros H.
  destruct (apply_stock_move_ok_inv _ _ _ _ _ _ _ _ _ H)
    as (q' & -> & Hq & [(-> & l & ->) | [(-> & l & -> & Hle)
                                        | (-> & src & dst & -> & -> & Hne & Hle)]]).
  - rewrite apply_inbound_eq in H by done. simplify_eq. split; [|done].
    unfold with_move; cbn. apply elem_of_app. right. apply elem_of_cons. by left.
  - rewrite apply_outbound_eq in H by done. simplify_eq. split; [|done].
    unfold with_move; cbn. apply elem_of_app. right. apply elem_of_cons. by left.
  - rewrite apply_transfer_eq in H by done. simplify_eq. split; [|done].
    unfold with_move; cbn. apply elem_of_app. right. apply elem_of_cons. by left.
Qed.

(** X23. A recorded movement protects what it names: once
    [apply_stock_move] has succeeded, deleting its product, or its source or
    destination, is answered with 409 and changes nothing. *)
Theorem moved_product_cannot_be_deleted type p q from to ts site db' mv :
  apply_stock_move type p q from to ts (ledger site) = (db', Ok mv) →
  let site1 := {| products := products site; locations := locations site;
                  ledger := db' |} in
  (p ∈ products site →
   (ProductViewSet_destroy p site1).1 = site1
   ∧ is_conflict (ProductViewSet_destroy p site1).2)
  ∧ (∀ l, from = Some l ∨ to = Some l → l ∈ locations site →
          (LocationViewSet_destroy l site1).1 = site1
          ∧ is_conflict (LocationViewSet_destroy l site1).2).
Proof.
  intros H site1.
  destruct (apply_stock_move_recorded _ _ _ _ _ _ _ _ _ H) as (Hin & Hp & Hf & Ht).
  split.
  - intros Hprod. by apply (product_with_move_is_protected p site1 mv).
  - intros l Hl Hloc. apply (location_with_move_is_protected l site1 mv); [done..|].
    rewrite Hf, Ht. done.
Qed.

Lemma shipped_product_is_protected :
  (ProductViewSet_destroy 1%N (site_of shipped_once)).1 = site_of shipped_once
  ∧ is_conflict (ProductViewSet_destroy 1%N (site_of shipped_once)).2.
Proof.
  apply (moved_product_cannot_be_deleted OUTBOUND 1%N (Some 100) (Some 1%N) None 0
           (site_of (main_with 1%N 500)) shipped_once
           (new_move (main_with 1%N 500) OUTBOUND 1%N 100 (Some 1%N) None 0)).
  - vm_compute. reflexivity.
  - vm_compute. reflexivity.
Defined.

Lemma apply_batch_recorded type from to ts lns db db' b :
  apply_stock_batch_move type from to ts lns db = (db', Ok b) →
  b ∈ batches db' ∧ batch_from_location b = from ∧ batch_to_location b = to
  ∧ ∀ p, p ∈ lns.*1 → ∃ ln, ln ∈ lines db' ∧ line_product_id ln = p.
Proof.
  intros H.
  destruct (apply_batch_ok_inv _ _ _ _ _ _ _ _ H)
    as (totals & Hg & Hne & -> & dbm & -> & _).
  destruct (group_lines_spec _ _ Hg) as (_ & Hel & _).
  destruct (with_lines_spec (new_batch db type from to ts) totals
              (with_batch (new_batch db type from to ts) dbm))
    as (new & Hlines & Hentries & _ & Hb & _).
  split; [|split; [done|split; [done|]]].
  - rewrite Hb. unfold with_batch; cbn. apply elem_of_app. right.
    apply elem_of_cons. by left.
  - intros p Hp. apply Hel in Hp. rewrite <- Hentries in Hp.
    apply list_elem_of_fmap in Hp as ([k v] & -> & Hin).
    apply list_elem_of_fmap in Hin as (ln & E & Hln).
    exists ln. split.
    + rewrite Hlines. apply elem_of_app. by right.
    + unfold line_entry in E. by simplify_eq.
Qed.

(** X24. A recorded batch protects what it names: once
    [apply_stock_batch_move] has succeeded, deleting the product of any of
    its lines, or its source or destination, is answered with 409 and
    changes nothing. *)
Theorem batched_product_cannot_be_deleted type from to ts lns site db' b :
  apply_stock_batch_move type from to ts lns (ledger site) = (db', Ok b) →
  let site1 := {| products := products site; locations := locations site;
                  ledger := db' |} in
  (∀ p, p ∈ lns.*1 → p ∈ products site →
        (ProductViewSet_destroy p site1).1 = site1
        ∧ is_conflict (ProductViewSet_destroy p site1).2)
  ∧ (∀ l, from = Some l ∨ to = Some l → l ∈ locations site →
          (LocationViewSet_destroy l site1).1 = site1
          ∧ is_conflict (LocationViewSet_destroy l site1).2).
Proof.
  intros H site1.
  destruct (apply_batch_recorded _ _ _ _ _ _ _ _ H) as (Hin & Hf & Ht & Hl).
  split.
  - intros p Hp Hprod. destruct (Hl p Hp) as (ln & Hln & E).
    by apply (product_with_line_is_protected p site1 ln).
  - intros l Hloc Hlin. apply (location_with_batch_is_protected l site1 b); [done..|].
    rewrite Hf, Ht. done.
Qed.

Lemma batch_source_is_protected :
  (LocationViewSet_destroy 1%N (site_of shipped_batch)).1 = site_of shipped_batch
  ∧ is_conflict (LocationViewSet_destroy 1%N (site_of shipped_batch)).2.
Proof.
  apply (batched_product_cannot_be_deleted OUTBOUND (Some 1%N) None 0
           [(1%N, 400); (2%N, 300)]
           (site_of (two_products 1000 1000)) shipped_batch
           (new_batch (two_products 1000 1000) OUTBOUND (Some 1%N) None 0)).
  - vm_compute. reflexivity.
  - left. reflexivity.
  - vm_compute. reflexivity.
Defined.

(** ** The Balance invariant and the INBOUND batch reversal *)

(** X25. Applying a single movement, reversing a single movement of
    non-negative quantity, and applying a batch keep every balance
    non-negative, whether they succeed or are refused. *)
Theorem stock_operations_keep_balances_nonnegative db :
  nonneg_balances db →
  (∀ type p q from to ts,
     nonneg_balances (apply_stock_move type p q from to ts db).1)
  ∧ (∀ mv, 0 ≤ move_qty mv → nonneg_balances (reverse_stock_move mv db).1)
  ∧ (∀ type from to ts lns,
       nonneg_balances (apply_stock_batch_move type from to ts lns db).1).
Proof.
  intros Hinv. split; [|split].
  - intros. by apply apply_stock_move_nonneg.
  - intros. by apply reverse_stock_move_nonneg.
  - intros. by apply apply_stock_batch_move_nonneg.
Qed.

Lemma shipping_keeps_balances_nonnegative :
  nonneg_balances (apply_stock_move OUTBOUND 1%N (Some 600) (Some 1%N) None 0
                                    (main_with 1%N 500)).1
  ∧ nonneg_balances (apply_stock_move OUTBOUND 1%N (Some 200) (Some 1%N) None 0
                                      (main_with 1%N 500)).1.
Proof.
  split; apply (stock_operations_keep_balances_nonnegative (main_with 1%N 500));
    apply nonneg_main_with; lia.
Defined.

Lemma first_short_const v totals :
  (first_short (λ _, v) totals = None ↔ Forall (λ x, x.2 ≤ v) totals).
Proof.
  induction totals as [|[k q] rest IH]; cbn.
  { split; [constructor|done]. }
  destruct (Z.ltb_spec v q) as [Hlt|Hge].
  - split; [done|]. intros [Hq _]%Forall_cons. cbn in Hq. lia.
  - rewrite IH. split.
    + intros. by apply Forall_cons.
    + by intros [_ ?]%Forall_cons.
Qed.

(** X26. The reversal of an INBOUND batch compares each product's total of
    the batch with one balance, that of the first line's product at the
    destination.  It is accepted when no total exceeds that balance, and then
    takes the quantities of all the lines from that one balance and leaves
    every other balance as it was; it is refused, changing nothing, when some
    total exceeds it. *)
Theorem inbound_batch_reversal_outcome b l ln0 lns db :
  batch_type b = INBOUND → batch_to_location b = Some l →
  batch_lines b db = ln0 :: lns →
  (Forall (λ x, x.2 ≤ on_hand_of db (line_product_id ln0) l)
          (line_totals (ln0 :: lns) []) →
   ∃ db', reverse_stock_batch_move b db = (db', Ok tt)
     ∧ ∀ p l',
         on_hand_of db' p l'
         = on_hand_of db p l'
           - (if decide ((p, l') = (line_product_id ln0, l))
              then sum_qty (line_entry <$> ln0 :: lns) else 0))
  ∧ (Exists (λ x, on_hand_of db (line_product_id ln0) l < x.2)
            (line_totals (ln0 :: lns) []) →
     reverse_stock_batch_move b db
     = (db, Raise (StockError "Cannot reverse: would go negative at destination."))).
Proof.
  intros Ht Hto Hl. split.
  - intros Hall. apply first_short_const in Hall.
    pose proof (reverse_inbound_batch_eq b l ln0 lns db Ht Hto Hl) as E.
    rewrite Hall in E. eexists. split; [exact E|].
    by apply (inbound_batch_reversal_effect b l ln0 lns).
  - intros Hex. rewrite (reverse_inbound_batch_eq b l ln0 lns db Ht Hto Hl).
    destruct (first_short _ _) eqn:Hfs; [done|].
    apply first_short_const in Hfs. apply Exists_exists in Hex as (x & Hx & Hlt).
    pose proof (proj1 (Forall_forall _ _) Hfs x Hx) as Hle. cbn in Hle. lia.
Qed.

Lemma inbound_batch_reversal_scenario :
  ∃ db', reverse_stock_batch_move (sample_batch INBOUND None (Some 1%N))
                                  (received 400 300).1 = (db', Ok tt)
    ∧ ∀ p l',
        on_hand_of db' p l'
        = on_hand_of (received 400 300).1 p l'
          - (if decide ((p, l') = (1%N, 1%N)) then 700 else 0).
Proof.
  apply (inbound_batch_reversal_outcome (sample_batch INBOUND None (Some 1%N)) 1%N
           {| line_id := 1; line_batch_id := 1; line_product_id := 1; line_qty := 400 |}
           [ {| line_id := 2; line_batch_id := 1; line_product_id := 2; line_qty := 300 |} ]
           (received 400 300).1).
  - reflexivity.
  - reflexivity.
  - vm_compute. reflexivity.
  - apply (bool_decide_unpack _). vm_compute. reflexivity.
Defined.

(** * Batch lines as dicts *)

Arguments Raw._group_lines_by_product : simpl never.
Arguments Raw.lock_levels : simpl never.
Arguments Raw.line_instances : simpl never.
Arguments Product_get : simpl never.

(** ** Consolidation of line dicts *)

Lemma raw_group_loop_on_amounts lines acc :
  Raw.group_lines_loop (line_dict <$> lines) acc = group_lines_loop lines acc.
Proof.
  revert acc. induction lines as [|[pid q] rest IH]; intros acc; cbn; [done|].
  destruct (q <=? 0); [done|apply IH].
Qed.

Lemma raw_group_on_amounts lines :
  Raw._group_lines_by_product (line_dict <$> lines) = _group_lines_by_product lines.
Proof. apply raw_group_loop_on_amounts. Qed.

Lemma raw_group_loop_ok_inv dicts acc totals :
  Raw.group_lines_loop dicts acc = Ok totals →
  ∃ lines, dicts = line_dict <$> lines.
Proof.
  revert acc. induction dicts as [|[[pid|] [[q|]|]] rest IH]; intros acc H;
    cbn in H; try done.
  { by exists []. }
  destruct (q <=? 0); [done|].
  destruct (IH _ H) as [lines ->]. by exists ((pid, q) :: lines).
Qed.

Lemma raw_group_loop_raises dicts acc e :
  Raw.group_lines_loop dicts acc = Raise e →
  (e = StockError "Line quantity must be positive."
   ∧ Exists (λ ln, ∃ q, ld_qty ln = Some (Amount q) ∧ q ≤ 0) dicts)
  ∨ (e = KeyError ∧ Exists (λ ln, ld_product ln = None ∨ ld_qty ln = None) dicts)
  ∨ (e = InvalidOperation ∧ Exists (λ ln, ld_qty ln = Some NotANumber) dicts).
Proof.
  revert acc. induction dicts as [|[[pid|] [[q|]|]] rest IH]; intros acc H;
    cbn in H; try done.
  - destruct (Z.leb_spec q 0) as [Hq|Hq].
    + left. simplify_eq. split; [done|]. apply Exists_cons_hd. eauto.
    + destruct (IH _ H) as [[-> Hex]|[[-> Hex]|[-> Hex]]];
        [left|right; left|right; right]; (split; [done|by apply Exists_cons_tl]).
  - right. right. simplify_eq. split; [done|]. by apply Exists_cons_hd.
  - right. left. simplify_eq. split; [done|]. apply Exists_cons_hd. by right.
  - right. left. simplify_eq. split; [done|]. apply Exists_cons_hd. by left.
  - right. left. simplify_eq. split; [done|]. apply Exists_cons_hd. by left.
  - right. left. simplify_eq. split; [done|]. apply Exists_cons_hd. by left.
Qed.

Lemma raw_group_loop_first_nonpositive good ln rest pid q acc :
  Forall has_amount good →
  ld_product ln = Some pid → ld_qty ln = Some (Amount q) → q ≤ 0 →
  Raw.group_lines_loop (good ++ ln :: rest) acc
  = Raise (StockError "Line quantity must be positive.").
Proof.
  intros Hgood Hp Hq Hle. revert acc.
  induction Hgood as [|g good [[gp Hgp] [gq Hgq]] _ IH]; intros acc; cbn.
  - rewrite Hp, Hq. by rewrite (proj2 (Z.leb_le q 0)).
  - rewrite Hgp, Hgq. destruct (gq <=? 0); [done|apply IH].
Qed.

(** ** Products that exist and products that do not *)

Lemma Product_get_known products pid db :
  pid ∈ products → Product_get products pid db = Ok (pid, db).
Proof. intros Hin. unfold Product_get. by rewrite decide_True. Qed.

Lemma Product_get_unknown products pid db :
  pid ∉ products → Product_get products pid db = Raise DoesNotExist.
Proof. intros Hin. unfold Product_get. by rewrite decide_False. Qed.

Lemma raw_lock_level_known products pid loc db :
  pid ∈ products → Raw.lock_level products pid loc db = lock_level pid loc db.
Proof.
  intros Hin. unfold Raw.lock_level. by rewrite bind_eq, Product_get_known.
Qed.

Lemma raw_lock_levels_known products totals loc d db :
  Forall (λ pid, pid ∈ products) totals.*1 →
  Raw.lock_levels products totals loc d db = lock_levels totals loc d db.
Proof.
  revert d db. induction totals as [|[pid q] rest IH]; intros d db Hall; [done|].
  apply Forall_cons in Hall as [Hin Hall].
  change (Raw.lock_levels products ((pid, q) :: rest) loc d db)
    with (bind (Raw.lock_level products pid loc)
               (λ lvl, Raw.lock_levels products rest loc (<[pid := lvl]> d)) db).
  change (lock_levels ((pid, q) :: rest) loc d db)
    with (bind (lock_level pid loc)
               (λ lvl, lock_levels rest loc (<[pid := lvl]> d)) db).
  rewrite !bind_eq, raw_lock_level_known by done.
  destruct (lock_level pid loc db) as [[lvl db']|e]; [by apply IH|done].
Qed.

Lemma raw_lock_levels_unknown products totals l d db :
  Exists (λ pid, pid ∉ products) totals.*1 →
  Raw.lock_levels products totals (Some l) d db = Raise DoesNotExist.
Proof.
  revert d db. induction totals as [|[pid q] rest IH]; intros d db Hex.
  { by apply Exists_nil in Hex. }
  change (Raw.lock_levels products ((pid, q) :: rest) (Some l) d db)
    with (bind (Raw.lock_level products pid (Some l))
               (λ lvl, Raw.lock_levels products rest (Some l) (<[pid := lvl]> d)) db).
  rewrite bind_eq. destruct (decide (pid ∈ products)) as [Hin|Hnin].
  - rewrite raw_lock_level_known, lock_level_eq by done.
    apply IH. apply Exists_cons in Hex as [Hex|Hex]; [done|done].
  - unfold Raw.lock_level. by rewrite bind_eq, Product_get_unknown.
Qed.

Lemma raw_line_instances_known products totals db :
  Forall (λ pid, pid ∈ products) totals.*1 →
  Raw.line_instances products totals db = Ok (totals, db).
Proof.
  induction totals as [|[pid q] rest IH]; intros Hall; [done|].
  apply Forall_cons in Hall as [Hin Hall].
  change (Raw.line_instances products ((pid, q) :: rest) db)
    with (bind (Product_get products pid)
               (λ prod, bind (Raw.line_instances products rest)
                             (λ instances, ret ((prod, q) :: instances))) db).
  rewrite bind_eq, Product_get_known by done. by rewrite bind_eq, IH.
Qed.

Lemma bind_ext {A B} (m : M A) (k1 k2 : A → M B) db :
  (∀ a db', k1 a db' = k2 a db') → bind m k1 db = bind m k2 db.
Proof. intros Hk. rewrite !bind_eq. destruct (m db) as [[a db']|e]; [apply Hk|done]. Qed.

Lemma bind_ext_l {A B} (m1 m2 : M A) (k : A → M B) db :
  m1 db = m2 db → bind m1 k db = bind m2 k db.
Proof. intros Hm. by rewrite !bind_eq, Hm. Qed.

Lemma group_totals_known (products : gset N) lines totals :
  _group_lines_by_product lines = Ok totals →
  Forall (λ pid, pid ∈ products) lines.*1 →
  Forall (λ pid, pid ∈ products) totals.*1.
Proof.
  intros Hg Hall. destruct (group_lines_spec _ _ Hg) as (_ & Hel & _).
  apply Forall_forall. intros pid Hin. apply Hel in Hin.
  by apply (proj1 (Forall_forall _ _) Hall).
Qed.

(** On lines that carry a decimal amount and name products of the table, the
    service on line dicts is the service on pairs. *)
Lemma apply_stock_batch_move_on_amounts products type from to ts lines db :
  Forall (λ pid, pid ∈ products) lines.*1 →
  Raw.apply_stock_batch_move products type from to ts (line_dict <$> lines) db
  = apply_stock_batch_move type from to ts lines db.
Proof.
  intros Hall. unfold Raw.apply_stock_batch_move, apply_stock_batch_move, atomic.
  assert (Raw.apply_stock_batch_move_body products type from to ts
            (line_dict <$> lines) db
          = apply_stock_batch_move_body type from to ts lines db) as ->; [|done].
  unfold Raw.apply_stock_batch_move_body, apply_stock_batch_move_body.
  cbv zeta.
  destruct (negb _); [done|].
  destruct (String.eqb type INBOUND && _); [done|].
  destruct (String.eqb type OUTBOUND && _); [done|].
  apply bind_ext. intros _ db1.
  destruct lines as [|ln lines]; [done|].
  change (line_dict <$> ln :: lines) with (line_dict ln :: (line_dict <$> lines)).
  cbv iota beta.
  change (line_dict ln :: (line_dict <$> lines)) with (line_dict <$> ln :: lines).
  rewrite raw_group_on_amounts.
  destruct (_group_lines_by_product (ln :: lines)) as [totals|e] eqn:Hg;
    [|by rewrite !bind_eq].
  pose proof (group_totals_known products _ _ Hg Hall) as Hk.
  rewrite !(bind_eq (lift (Ok totals))). cbn [lift].
  etrans.
  { apply bind_ext_l.
    instantiate (1 := if String.eqb type OUTBOUND || String.eqb type TRANSFER
                      then lock_levels totals from ∅ else ret ∅).
    destruct (_ || _); [by apply raw_lock_levels_known|done]. }
  apply bind_ext. intros levels_src db2.
  etrans.
  { apply bind_ext_l.
    instantiate (1 := if String.eqb type INBOUND || String.eqb type TRANSFER
                      then lock_levels totals to ∅ else ret ∅).
    destruct (_ || _); [by apply raw_lock_levels_known|done]. }
  apply bind_ext. intros levels_dst db3.
  apply bind_ext. intros _ db4.
  apply bind_ext. intros _ db5.
  apply bind_ext. intros batch db6.
  by rewrite bind_eq, raw_line_instances_known.
Qed.

(** ** Outcomes of the batch service on line dicts *)

Lemma raw_batch_shape (products : gset N) type (from to : option N) ts dicts db :
  (∃ msg, Raw.apply_stock_batch_move products type from to ts dicts db
          = (db, Raise (StockError msg)))
  ∨ (dicts ≠ []
     ∧ ((type = INBOUND ∧ is_Some to) ∨ (type = OUTBOUND ∧ is_Some from)
        ∨ (type = TRANSFER ∧ ∃ src dst, from = Some src ∧ to = Some dst ∧ src ≠ dst))).
Proof.
  destruct (String.eqb_spec type INBOUND) as [->|Hin].
  { destruct to as [l|]; [|left; eexists; reflexivity].
    destruct dicts as [|ln dicts]; [left; eexists; reflexivity|].
    right. split; [done|]. left. eauto. }
  destruct (String.eqb_spec type OUTBOUND) as [->|Hout].
  { destruct from as [l|]; [|left; eexists; reflexivity].
    destruct dicts as [|ln dicts]; [left; eexists; reflexivity|].
    right. split; [done|]. right. left. eauto. }
  destruct (String.eqb_spec type TRANSFER) as [->|Htr].
  { destruct from as [src|], to as [dst|]; try (left; eexists; reflexivity).
    destruct (N.eqb_spec src dst) as [->|Hne].
    { left. eexists.
      unfold Raw.apply_stock_batch_move, atomic, Raw.apply_stock_batch_move_body.
      cbn. by rewrite N.eqb_refl. }
    destruct dicts as [|ln dicts].
    { left. eexists.
      unfold Raw.apply_stock_batch_move, atomic, Raw.apply_stock_batch_move_body.
      cbn. by rewrite (proj2 (N.eqb_neq src dst)). }
    right. split; [done|]. right. right. eauto 10. }
  left. eexists.
  unfold Raw.apply_stock_batch_move, atomic, Raw.apply_stock_batch_move_body.
  by rewrite (proj2 (String.eqb_neq _ _)), (proj2 (String.eqb_neq _ _)),
    (proj2 (String.eqb_neq _ _)) by done.
Qed.

Lemma raw_batch_lines_refused (products : gset N) type (from to : option N) ts dicts db e :
  (type = INBOUND ∧ is_Some to) ∨ (type = OUTBOUND ∧ is_Some from)
  ∨ (type = TRANSFER ∧ ∃ src dst, from = Some src ∧ to = Some dst ∧ src ≠ dst) →
  dicts ≠ [] → Raw._group_lines_by_product dicts = Raise e →
  Raw.apply_stock_batch_move products type from to ts dicts db = (db, Raise e).
Proof.
  intros Hshape Hne Hg. destruct dicts as [|ln dicts]; [done|].
  unfold Raw.apply_stock_batch_move, atomic, Raw.apply_stock_batch_move_body.
  destruct Hshape as [(-> & [l ->]) | [(-> & [l ->])
                                      | (-> & src & dst & -> & -> & Hsd)]];
    cbn; rewrite ?(proj2 (N.eqb_neq src dst)) by done; cbn; by rewrite Hg.
Qed.

Lemma raw_batch_unknown_product (products : gset N) type (from to : option N)
    ts dicts totals db :
  (type = INBOUND ∧ is_Some to) ∨ (type = OUTBOUND ∧ is_Some from)
  ∨ (type = TRANSFER ∧ ∃ src dst, from = Some src ∧ to = Some dst ∧ src ≠ dst) →
  dicts ≠ [] → Raw._group_lines_by_product dicts = Ok totals →
  Exists (λ pid, pid ∉ products) totals.*1 →
  Raw.apply_stock_batch_move products type from to ts dicts db
  = (db, Raise DoesNotExist).
Proof.
  intros Hshape Hne Hg Hex. destruct dicts as [|ln dicts]; [done|].
  unfold Raw.apply_stock_batch_move, atomic, Raw.apply_stock_batch_move_body.
  destruct Hshape as [(-> & [l ->]) | [(-> & [l ->])
                                      | (-> & src & dst & -> & -> & Hsd)]];
    cbn; rewrite ?(proj2 (N.eqb_neq src dst)) by done; cbn; rewrite Hg; cbn;
    rewrite ?(bind_eq (ret ∅)); cbn;
    by rewrite bind_eq, (raw_lock_levels_unknown products totals) by done.
Qed.

Lemma raw_batch_outcome (products : gset N) type (from to : option N) ts dicts db :
  (∃ msg, Raw.apply_stock_batch_move products type from to ts dicts db
          = (db, Raise (StockError msg)))
  ∨ (∃ e, Raw._group_lines_by_product dicts = Raise e
          ∧ Raw.apply_stock_batch_move products type from to ts dicts db
            = (db, Raise e))
  ∨ (∃ lines, dicts = line_dict <$> lines
              ∧ Exists (λ pid, pid ∉ products) lines.*1
              ∧ Raw.apply_stock_batch_move products type from to ts dicts db
                = (db, Raise DoesNotExist))
  ∨ (∃ lines, dicts = line_dict <$> lines
              ∧ Forall (λ pid, pid ∈ products) lines.*1
              ∧ Raw.apply_stock_batch_move products type from to ts dicts db
                = apply_stock_batch_move type from to ts lines db).
Proof.
  destruct (raw_batch_shape products type from to ts dicts db) as [?|[Hne Hshape]];
    [by left|].
  destruct (Raw._group_lines_by_product dicts) as [totals|e] eqn:Hg.
  - destruct (raw_group_loop_ok_inv _ _ _ Hg) as [lines ->].
    destruct (decide (Forall (λ pid, pid ∈ products) lines.*1)) as [Hall|Hnall].
    + do 3 right. exists lines. split; [done|]. split; [done|].
      by apply apply_stock_batch_move_on_amounts.
    + right. right. left. exists lines. split; [done|].
      apply not_Forall_Exists in Hnall; [|apply _]. split; [done|].
      apply (raw_batch_unknown_product _ _ _ _ _ _ totals); [done..|].
      rewrite raw_group_on_amounts in Hg.
      destruct (group_lines_spec _ _ Hg) as (_ & Hel & _).
      apply Exists_exists in Hnall as (pid & Hin & Hnin).
      apply Exists_exists. exists pid. split; [by apply Hel|done].
  - right. left. exists e. split; [done|]. by apply raw_batch_lines_refused.
Qed.

Lemma raw_group_loop_app good acc :
  Forall (λ ln, is_Some (ld_product ln) ∧ ∃ q, ld_qty ln = Some (Amount q) ∧ 0 < q)
         good →
  ∃ acc', ∀ tail,
    Raw.group_lines_loop (good ++ tail) acc = Raw.group_lines_loop tail acc'.
Proof.
  intros Hgood. revert acc.
  induction Hgood as [|g good [[gp Hgp] (gq & Hgq & Hpos)] _ IH]; intros acc.
  { by exists acc. }
  destruct (IH (dict_add gp gq acc)) as [acc' Hacc']. exists acc'. intros tail.
  cbn. rewrite Hgp, Hgq. by rewrite (proj2 (Z.leb_gt gq 0)), Hacc' by done.
Qed.

(** X7. The consolidation of line dicts succeeds exactly when every line has
    its product and a quantity that is a strictly positive decimal amount.
    Otherwise the first line that is not of this kind decides the exception:
    [KeyError] when it lacks the product or the quantity,
    [decimal.InvalidOperation] when its quantity is not a number, and the
    [StockError] of the line quantity when its amount is not positive; later
    lines are not looked at.  When the consolidation succeeds every total is
    strictly positive and the totals add up to the sum of all the lines: no
    quantity is lost or invented by the merge. *)
Theorem grouping_succeeds_iff_positive dicts :
  ((∃ totals, Raw._group_lines_by_product dicts = Ok totals)
   ↔ Forall (λ ln, is_Some (ld_product ln)
                   ∧ ∃ q, ld_qty ln = Some (Amount q) ∧ 0 < q) dicts)
  ∧ (∀ good ln rest,
       dicts = good ++ ln :: rest →
       Forall (λ ln, is_Some (ld_product ln)
                     ∧ ∃ q, ld_qty ln = Some (Amount q) ∧ 0 < q) good →
       (ld_product ln = None ∨ ld_qty ln = None →
        Raw._group_lines_by_product dicts = Raise KeyError)
       ∧ (is_Some (ld_product ln) → ld_qty ln = Some NotANumber →
          Raw._group_lines_by_product dicts = Raise InvalidOperation)
       ∧ (∀ q, is_Some (ld_product ln) → ld_qty ln = Some (Amount q) → q ≤ 0 →
               Raw._group_lines_by_product dicts
               = Raise (StockError "Line quantity must be positive.")))
  ∧ (∀ e, Raw._group_lines_by_product dicts = Raise e →
          e = StockError "Line quantity must be positive."
          ∨ e = KeyError ∨ e = InvalidOperation)
  ∧ (∀ totals, Raw._group_lines_by_product dicts = Ok totals →
               ∃ lines, dicts = line_dict <$> lines
                        ∧ Forall (λ x, 0 < x.2) totals
                        ∧ sum_qty totals = sum_qty lines).
Proof.
  split; [split|split; [|split]].
  - intros [totals H]. destruct (raw_group_loop_ok_inv _ _ _ H) as [lines ->].
    rewrite raw_group_on_amounts in H.
    assert (Forall (λ x, 0 < x.2) lines) as Hpos.
    { apply (proj1 (group_amounts_spec lines)). eauto. }
    apply Forall_fmap. eapply Forall_impl; [exact Hpos|].
    intros [pid q] Hq. cbn in *. split; [by eexists|]. by exists q.
  - intros Hall. destruct (raw_group_loop_app dicts [] Hall) as [acc' Hacc'].
    exists acc'. unfold Raw._group_lines_by_product.
    specialize (Hacc' []). by rewrite app_nil_r in Hacc'.
  - intros good ln rest -> Hgood.
    destruct (raw_group_loop_app good [] Hgood) as [acc' Hacc'].
    unfold Raw._group_lines_by_product. rewrite Hacc'. cbn.
    split; [|split].
    + intros [Hp|Hq].
      * by rewrite Hp.
      * rewrite Hq. by destruct (ld_product ln).
    + intros [pid Hp] Hq. by rewrite Hp, Hq.
    + intros q [pid Hp] Hq Hle. rewrite Hp, Hq. by rewrite (proj2 (Z.leb_le q 0)).
  - intros e H. destruct (raw_group_loop_raises _ _ _ H) as [[-> _]|[[-> _]|[-> _]]];
      eauto.
  - intros totals H. destruct (raw_group_loop_ok_inv _ _ _ H) as [lines ->].
    rewrite raw_group_on_amounts in H. exists lines. split; [done|].
    by apply (group_amounts_spec lines).
Qed.

(** X1. A quantity that is missing or not strictly positive is refused before
    anything else of a single movement is looked at: whatever the kind, known
    or not, and the endpoints, [apply_stock_move] fails with the quantity
    error.  A batch of accepted shape in which a line carries an amount that
    is not strictly positive, and every line before it has its product and a
    numeric quantity, fails with the line error, whatever the later lines
    hold, whether the products exist, and whatever the balances are.  Nothing
    is changed. *)
Theorem nonpositive_quantity_is_refused :
  (∀ type p q from to ts db,
     q = None ∨ (∃ v, q = Some v ∧ v ≤ 0) →
     apply_stock_move type p q from to ts db
     = (db, Raise (StockError "Quantity must be positive.")))
  ∧ (∀ (products : gset N) type from to ts earlier ln later pid q db,
       (type = INBOUND ∧ is_Some to) ∨ (type = OUTBOUND ∧ is_Some from)
       ∨ (type = TRANSFER ∧ ∃ src dst, from = Some src ∧ to = Some dst ∧ src ≠ dst) →
       Forall has_amount earlier →
       ld_product ln = Some pid → ld_qty ln = Some (Amount q) → q ≤ 0 →
       Raw.apply_stock_batch_move products type from to ts
                                  (earlier ++ ln :: later) db
       = (db, Raise (StockError "Line quantity must be positive."))).
Proof.
  split.
  - intros type p q from to ts db [->|(v & -> & Hv)]; [done|].
    unfold apply_stock_move, atomic, apply_stock_move_body.
    by rewrite (proj2 (Z.leb_le v 0)).
  - intros products type from to ts earlier ln later pid q db Hshape Hgood Hp Hq Hle.
    apply raw_batch_lines_refused; [done| |].
    + by destruct earlier.
    + by apply (raw_group_loop_first_nonpositive earlier ln later pid q).
Qed.

Lemma zero_quantity_scenarios :
  apply_stock_move "RETURN" 1%N (Some 0) None None 0 (main_with 1%N 500)
  = (main_with 1%N 500, Raise (StockError "Quantity must be positive."))
  ∧ Raw.apply_stock_batch_move ∅ INBOUND None (Some 1%N) 0
      ([line_dict (1%N, 300)] ++ line_dict (2%N, -100)
         :: [ {| ld_product := Some 3%N; ld_qty := Some NotANumber |} ])
      (main_with 1%N 500)
    = (main_with 1%N 500, Raise (StockError "Line quantity must be positive.")).
Proof.
  destruct nonpositive_quantity_is_refused as [Hone Hbatch]. split.
  - apply Hone. right. exists 0. split; [reflexivity|lia].
  - apply (Hbatch ∅ INBOUND None (Some 1%N) 0 [line_dict (1%N, 300)]
                  (line_dict (2%N, -100)) _ 2%N (-100)).
    + left. split; [reflexivity|]. by exists 1%N.
    + apply Forall_cons. split; [|apply Forall_nil; exact I].
      split; [by exists 1%N|by exists 300].
    + reflexivity.
    + reflexivity.
    + lia.
Defined.

(** X3. Every way the services can end is accounted for.  Applying or
    reversing a single movement succeeds or raises a [StockError].  Applying
    a batch of line dicts succeeds or raises a [StockError], a [KeyError]
    (and then some line lacks its product or its quantity), a
    [decimal.InvalidOperation] (and then some line's quantity is not a
    number) or a [Product.DoesNotExist] (and then some line names a product
    that does not exist); no other exception comes out of it.  On lines that
    carry decimal amounts and name existing products only a [StockError]
    remains, so the [except StockError] of the callers catches every
    refusal.  Whenever a service raises, the state is the one it was
    given. *)
Theorem service_exceptions_are_accounted_for :
  (∀ type p q from to ts db,
     only_stock_error (apply_stock_move type p q from to ts db).2
     ∧ (∀ e, (apply_stock_move type p q from to ts db).2 = Raise e →
             (apply_stock_move type p q from to ts db).1 = db))
  ∧ (∀ mv db,
       only_stock_error (reverse_stock_move mv db).2
       ∧ (∀ e, (reverse_stock_move mv db).2 = Raise e →
               (reverse_stock_move mv db).1 = db))
  ∧ (∀ (products : gset N) type from to ts dicts db e,
       (Raw.apply_stock_batch_move products type from to ts dicts db).2 = Raise e →
       accounted_for products dicts e
       ∧ (Raw.apply_stock_batch_move products type from to ts dicts db).1 = db)
  ∧ (∀ (products : gset N) type from to ts lines db,
       Forall (λ pid, pid ∈ products) lines.*1 →
       only_stock_error
         (Raw.apply_stock_batch_move products type from to ts
                                     (line_dict <$> lines) db).2).
Proof.
  split; [|split; [|split]].
  - intros type p q from to ts db.
    destruct (apply_stock_move_outcome type p q from to ts db)
      as [[msg ->]|(db' & mv & ->)]; cbn; split; done.
  - intros mv db.
    destruct (reverse_stock_move_outcome mv db) as [[msg ->]|(db' & ->)];
      cbn; split; done.
  - intros products type from to ts dicts db e.
    destruct (raw_batch_outcome products type from to ts dicts db)
      as [[msg ->]|[(e' & Hg & ->)|[(lines & -> & Hex & ->)
                                   |(lines & -> & Hall & ->)]]]; cbn.
    + by intros [= <-].
    + intros [= <-]. split; [|done].
      destruct (raw_group_loop_raises _ _ _ Hg) as [[-> _]|[[-> Hex]|[-> Hex]]];
        done.
    + intros [= <-]. split; [|done]. cbn.
      apply Exists_exists in Hex as (pid & Hin & Hnin).
      apply list_elem_of_fmap in Hin as ([k v] & -> & Hin).
      apply Exists_exists. exists (line_dict (k, v)). split.
      * apply list_elem_of_fmap. by exists (k, v).
      * by exists k.
    + destruct (apply_stock_batch_move_outcome type from to ts lines db)
        as [[msg ->]|(db' & b & ->)]; cbn; [by intros [= <-]|done].
  - intros products type from to ts lines db Hall.
    rewrite apply_stock_batch_move_on_amounts by done.
    by destruct (apply_stock_batch_move_outcome type from to ts lines db)
      as [[msg ->]|(db' & b & ->)].
Qed.

Lemma malformed_line_scenarios :
  (Raw.apply_stock_batch_move {[1%N]} INBOUND None (Some 1%N) 0
     [line_dict (1%N, 300); {| ld_product := Some 1%N; ld_qty := Some NotANumber |}]
     (main_with 1%N 500)).2 = Raise InvalidOperation
  ∧ accounted_for {[1%N]}
      [line_dict (1%N, 300); {| ld_product := Some 1%N; ld_qty := Some NotANumber |}]
      InvalidOperation
  ∧ (Raw.apply_stock_batch_move {[1%N]} INBOUND None (Some 1%N) 0
       [line_dict (1%N, 300); {| ld_product := Some 1%N; ld_qty := Some NotANumber |}]
       (main_with 1%N 500)).1 = main_with 1%N 500.
Proof.
  split; [vm_compute; reflexivity|].
  apply (proj1 (proj2 (proj2 service_exceptions_are_accounted_for))
           {[1%N]} INBOUND None (Some 1%N) 0
           [line_dict (1%N, 300); {| ld_product := Some 1%N; ld_qty := Some NotANumber |}]
           (main_with 1%N 500) InvalidOperation).
  vm_compute. reflexivity.
Defined.
